(** * http-mirror: the recursive crawler and its change-aware fetch client

    A shallow embedding of [pkg/mirror] (the crawler), [pkg/http] (the fetch
    client and its rate limit), the loading and defaulting part of
    [pkg/config] and the loop of [cmd/updater], with the properties the
    specification states about them and further properties of the code.

    Go strings are byte strings: they are modelled as [string] (a list of
    8-bit [ascii] values).  [int] and [int64] values are modelled as [Z] with
    the 64-bit wrap-around written out where the code does arithmetic. *)

From Stdlib Require Import ZArith Lia Ascii String List Bool.
From stdpp Require Import base option gmap strings.

Local Open Scope string_scope.
Local Open Scope Z_scope.

(* ===================================================================== *)
(** * Part I: definitions                                                  *)
(* ===================================================================== *)

(** ** The part of Go's [strings] package the program uses *)

Module GoStrings.

(** The byte with code [n]. *)
Definition chr (n : N) : ascii := ascii_of_N n.

(** The byte string with the given codes. *)
Fixpoint bytes (l : list N) : string :=
  match l with
  | nil => ""
  | n :: l' => String (chr n) (bytes l')
  end.

(** [strings.HasPrefix(s, prefix)]. *)
Fixpoint HasPrefix (s prefix : string) {struct prefix} : bool :=
  match prefix with
  | "" => true
  | String p prefix' =>
      match s with
      | "" => false
      | String c s' => Ascii.eqb c p && HasPrefix s' prefix'
      end
  end.

(** [strings.Contains(s, substr)]: some suffix of [s] starts with
    [substr]. *)
Fixpoint Contains (s substr : string) : bool :=
  HasPrefix s substr ||
  match s with
  | "" => false
  | String _ s' => Contains s' substr
  end.

(** [strings.HasSuffix(s, suffix)]: some suffix of [s] is [suffix]. *)
Fixpoint HasSuffix (s suffix : string) : bool :=
  String.eqb s suffix ||
  match s with
  | "" => false
  | String _ s' => HasSuffix s' suffix
  end.

(** [strings.TrimSuffix(s, suffix)]: [s[:len(s)-len(suffix)]] when [s]
    ends with [suffix], [s] otherwise. *)
Definition TrimSuffix (s suffix : string) : string :=
  if HasSuffix s suffix
  then substring 0 (String.length s - String.length suffix) s
  else s.

(** [unicode.ToLower] on an ASCII byte: the letters [A]..[Z] are mapped
    to [a]..[z], every other byte is kept. *)
Definition lowerByte (c : ascii) : ascii :=
  let n := N_of_ascii c in
  if ((65 <=? n) && (n <=? 90))%N then ascii_of_N (n + 32) else c.

(** [utf8.RuneError], the rune an invalid byte is read as. *)
Definition RuneError : N := 65533.

(** The payload of the continuation byte [s] starts with, when that byte
    is between [lo] and [hi], and what follows it. *)
Definition continuation (lo hi : N) (s : string) : option (N * string) :=
  match s with
  | String c s' =>
      let n := N_of_ascii c in
      if ((lo <=? n) && (n <=? hi))%N then Some ((n - 128)%N, s') else None
  | "" => None
  end.

(** [utf8.DecodeRuneInString]: the rune [s] starts with and the number of
    its bytes.  A byte that starts no valid encoding (shortest form, no
    surrogate, at most U+10FFFF) is read as [RuneError], of width 1. *)
Definition DecodeRune (s : string) : N * nat :=
  match s with
  | "" => (RuneError, 0%nat)
  | String b0 s1 =>
      let n0 := N_of_ascii b0 in
      if (n0 <? 128)%N then (n0, 1%nat)
      else if ((194 <=? n0) && (n0 <=? 223))%N then
        match continuation 128 191 s1 with
        | Some (x1, _) => (((n0 - 192) * 64 + x1)%N, 2%nat)
        | None => (RuneError, 1%nat)
        end
      else if ((224 <=? n0) && (n0 <=? 239))%N then
        match continuation (if (n0 =? 224)%N then 160 else 128)
                (if (n0 =? 237)%N then 159 else 191) s1 with
        | Some (x1, s2) =>
            match continuation 128 191 s2 with
            | Some (x2, _) => (((n0 - 224) * 4096 + x1 * 64 + x2)%N, 3%nat)
            | None => (RuneError, 1%nat)
            end
        | None => (RuneError, 1%nat)
        end
      else if ((240 <=? n0) && (n0 <=? 244))%N then
        match continuation (if (n0 =? 240)%N then 144 else 128)
                (if (n0 =? 244)%N then 143 else 191) s1 with
        | Some (x1, s2) =>
            match continuation 128 191 s2 with
            | Some (x2, s3) =>
                match continuation 128 191 s3 with
                | Some (x3, _) =>
                    (((n0 - 240) * 262144 + x1 * 4096 + x2 * 64 + x3)%N, 4%nat)
                | None => (RuneError, 1%nat)
                end
            | None => (RuneError, 1%nat)
            end
        | None => (RuneError, 1%nat)
        end
      else (RuneError, 1%nat)
  end.

(** [utf8.AppendRune]: the encoding of a rune; a surrogate and a value
    above U+10FFFF are written as [RuneError]. *)
Definition EncodeRune (r : N) : string :=
  if (r <? 128)%N then bytes [r]
  else if (r <? 2048)%N then bytes [192 + r / 64; 128 + r mod 64]%N
  else if ((1114111 <? r) || ((55296 <=? r) && (r <=? 57343)))%N
  then bytes [239; 191; 189]%N
  else if (r <? 65536)%N
  then bytes [224 + r / 4096; 128 + (r / 64) mod 64; 128 + r mod 64]%N
  else bytes [240 + r / 262144; 128 + (r / 4096) mod 64;
              128 + (r / 64) mod 64; 128 + r mod 64]%N.

(** The lower-case mappings of [unicode.ToLower]: the simple lower-case
    mappings of the Unicode Character Database, as Go's tables have them.
    An entry [(first, last, step, image)] maps [first], [first + step],
    ... up to [last] to [image], [image + step], ... *)
Definition lowerRanges : list (N * N * N * N) :=
  [
    (65, 90, 1, 97); (192, 214, 1, 224); (216, 222, 1, 248); (256, 302, 2, 257);
    (304, 304, 1, 105); (306, 310, 2, 307); (313, 327, 2, 314); (330, 374, 2, 331);
    (376, 376, 1, 255); (377, 381, 2, 378); (385, 385, 1, 595); (386, 388, 2, 387);
    (390, 390, 1, 596); (391, 391, 1, 392); (393, 394, 1, 598); (395, 395, 1, 396);
    (398, 398, 1, 477); (399, 399, 1, 601); (400, 400, 1, 603); (401, 401, 1, 402);
    (403, 403, 1, 608); (404, 404, 1, 611); (406, 406, 1, 617); (407, 407, 1, 616);
    (408, 408, 1, 409); (412, 412, 1, 623); (413, 413, 1, 626); (415, 415, 1, 629);
    (416, 420, 2, 417); (422, 422, 1, 640); (423, 423, 1, 424); (425, 425, 1, 643);
    (428, 428, 1, 429); (430, 430, 1, 648); (431, 431, 1, 432); (433, 434, 1, 650);
    (435, 437, 2, 436); (439, 439, 1, 658); (440, 440, 1, 441); (444, 444, 1, 445);
    (452, 452, 1, 454); (453, 453, 1, 454); (455, 455, 1, 457); (456, 456, 1, 457);
    (458, 458, 1, 460); (459, 475, 2, 460); (478, 494, 2, 479); (497, 497, 1, 499);
    (498, 500, 2, 499); (502, 502, 1, 405); (503, 503, 1, 447); (504, 542, 2, 505);
    (544, 544, 1, 414); (546, 562, 2, 547); (570, 570, 1, 11365); (571, 571, 1, 572);
    (573, 573, 1, 410); (574, 574, 1, 11366); (577, 577, 1, 578); (579, 579, 1, 384);
    (580, 580, 1, 649); (581, 581, 1, 652); (582, 590, 2, 583); (880, 882, 2, 881);
    (886, 886, 1, 887); (895, 895, 1, 1011); (902, 902, 1, 940); (904, 906, 1, 941);
    (908, 908, 1, 972); (910, 911, 1, 973); (913, 929, 1, 945); (931, 939, 1, 963);
    (975, 975, 1, 983); (984, 1006, 2, 985); (1012, 1012, 1, 952); (1015, 1015, 1, 1016);
    (1017, 1017, 1, 1010); (1018, 1018, 1, 1019); (1021, 1023, 1, 891); (1024, 1039, 1, 1104);
    (1040, 1071, 1, 1072); (1120, 1152, 2, 1121); (1162, 1214, 2, 1163); (1216, 1216, 1, 1231);
    (1217, 1229, 2, 1218); (1232, 1326, 2, 1233); (1329, 1366, 1, 1377);
    (4256, 4293, 1, 11520); (4295, 4295, 1, 11559); (4301, 4301, 1, 11565);
    (5024, 5103, 1, 43888); (5104, 5109, 1, 5112); (7312, 7354, 1, 4304);
    (7357, 7359, 1, 4349); (7680, 7828, 2, 7681); (7838, 7838, 1, 223); (7840, 7934, 2, 7841);
    (7944, 7951, 1, 7936); (7960, 7965, 1, 7952); (7976, 7983, 1, 7968); (7992, 7999, 1, 7984);
    (8008, 8013, 1, 8000); (8025, 8031, 2, 8017); (8040, 8047, 1, 8032); (8072, 8079, 1, 8064);
    (8088, 8095, 1, 8080); (8104, 8111, 1, 8096); (8120, 8121, 1, 8112); (8122, 8123, 1, 8048);
    (8124, 8124, 1, 8115); (8136, 8139, 1, 8050); (8140, 8140, 1, 8131); (8152, 8153, 1, 8144);
    (8154, 8155, 1, 8054); (8168, 8169, 1, 8160); (8170, 8171, 1, 8058); (8172, 8172, 1, 8165);
    (8184, 8185, 1, 8056); (8186, 8187, 1, 8060); (8188, 8188, 1, 8179); (8486, 8486, 1, 969);
    (8490, 8490, 1, 107); (8491, 8491, 1, 229); (8498, 8498, 1, 8526); (8544, 8559, 1, 8560);
    (8579, 8579, 1, 8580); (9398, 9423, 1, 9424); (11264, 11311, 1, 11312);
    (11360, 11360, 1, 11361); (11362, 11362, 1, 619); (11363, 11363, 1, 7549);
    (11364, 11364, 1, 637); (11367, 11371, 2, 11368); (11373, 11373, 1, 593);
    (11374, 11374, 1, 625); (11375, 11375, 1, 592); (11376, 11376, 1, 594);
    (11378, 11378, 1, 11379); (11381, 11381, 1, 11382); (11390, 11391, 1, 575);
    (11392, 11490, 2, 11393); (11499, 11501, 2, 11500); (11506, 11506, 1, 11507);
    (42560, 42604, 2, 42561); (42624, 42650, 2, 42625); (42786, 42798, 2, 42787);
    (42802, 42862, 2, 42803); (42873, 42875, 2, 42874); (42877, 42877, 1, 7545);
    (42878, 42886, 2, 42879); (42891, 42891, 1, 42892); (42893, 42893, 1, 613);
    (42896, 42898, 2, 42897); (42902, 42920, 2, 42903); (42922, 42922, 1, 614);
    (42923, 42923, 1, 604); (42924, 42924, 1, 609); (42925, 42925, 1, 620);
    (42926, 42926, 1, 618); (42928, 42928, 1, 670); (42929, 42929, 1, 647);
    (42930, 42930, 1, 669); (42931, 42931, 1, 43859); (42932, 42946, 2, 42933);
    (42948, 42948, 1, 42900); (42949, 42949, 1, 642); (42950, 42950, 1, 7566);
    (42951, 42953, 2, 42952); (42960, 42960, 1, 42961); (42966, 42968, 2, 42967);
    (42997, 42997, 1, 42998); (65313, 65338, 1, 65345); (66560, 66599, 1, 66600);
    (66736, 66771, 1, 66776); (66928, 66938, 1, 66967); (66940, 66954, 1, 66979);
    (66956, 66962, 1, 66995); (66964, 66965, 1, 67003); (68736, 68786, 1, 68800);
    (71840, 71871, 1, 71872); (93760, 93791, 1, 93792); (125184, 125217, 1, 125218)
  ]%N.

(** [unicode.ToLower]. *)
Definition ToLowerRune (r : N) : N :=
  match List.find (fun e : N * N * N * N =>
                     let '(first, last, step, _) := e in
                     ((first <=? r) && (r <=? last) && ((r - first) mod step =? 0))%N)
          lowerRanges with
  | Some (first, _, _, image) => (image + (r - first))%N
  | None => r
  end.

(** [strings.Map(mapping, s)] for a mapping that drops no rune: the runes
    of [s] are read one after the other, an invalid byte as [RuneError],
    and the image of each is written.  [skip] counts the bytes of the
    current rune that are still to be passed. *)
Fixpoint mapRunes (mapping : N -> N) (skip : nat) (s : string) : string :=
  match s with
  | "" => ""
  | String _ s' =>
      match skip with
      | S k => mapRunes mapping k s'
      | O =>
          EncodeRune (mapping (fst (DecodeRune s)))
          ++ mapRunes mapping (snd (DecodeRune s) - 1) s'
      end
  end.

(** [strings.ToLower]: every rune is mapped to its lower case.  (For a
    string of ASCII bytes only, which the code treats apart, this is the
    mapping of the bytes by [lowerByte].) *)
Definition ToLower (s : string) : string := mapRunes ToLowerRune 0 s.

(** The UTF-8 encodings of the runes for which [unicode.IsSpace] holds:
    the six ASCII ones, U+0085, U+00A0, U+1680, U+2000..U+200A, U+2028,
    U+2029, U+202F, U+205F and U+3000. *)
Definition spaceRunes : list string :=
  map bytes
    ([ [9]; [10]; [11]; [12]; [13]; [32];
       [194; 133]; [194; 160];
       [225; 154; 128];
       [226; 128; 128]; [226; 128; 129]; [226; 128; 130]; [226; 128; 131];
       [226; 128; 132]; [226; 128; 133]; [226; 128; 134]; [226; 128; 135];
       [226; 128; 136]; [226; 128; 137]; [226; 128; 138];
       [226; 128; 168]; [226; 128; 169]; [226; 128; 175];
       [226; 129; 159];
       [227; 128; 128] ])%N.

(** The number of bytes of the whitespace rune [s] starts with; [0%nat]
    when [s] does not start with one. *)
Definition spacePrefixLen (runes : list string) (s : string) : nat :=
  match List.find (HasPrefix s) runes with
  | Some r => String.length r
  | None => 0%nat
  end.

(** Drop whitespace runes from the front: [skip] counts the bytes of the
    current rune that are still to be dropped. *)
Fixpoint trimLeftRunes (runes : list string) (skip : nat) (s : string) : string :=
  match s with
  | "" => ""
  | String _ s' =>
      match skip with
      | S k => trimLeftRunes runes k s'
      | O =>
          match spacePrefixLen runes s with
          | O => s
          | S k => trimLeftRunes runes k s'
          end
      end
  end.

(** [strings.TrimSpace]: whitespace runes are removed at the front, then
    at the back (there, the encodings are read backwards). *)
Definition TrimSpace (s : string) : string :=
  String.rev
    (trimLeftRunes (map String.rev spaceRunes) 0
       (String.rev (trimLeftRunes spaceRunes 0 s))).

(** A string that is made of (the encodings of) the given runes. *)
Inductive RunesOnly (runes : list string) : string -> Prop :=
| runes_empty : RunesOnly runes ""
| runes_more (r s : string) :
    In r runes -> RunesOnly runes s -> RunesOnly runes (r ++ s).

(** A string of whitespace only. *)
Definition WhitespaceOnly (s : string) : Prop := RunesOnly spaceRunes s.

End GoStrings.

(** ** The part of Go's [path/filepath] package the program uses (Unix) *)

Module Filepath.
Import GoStrings.

Definition Separator : ascii := "/"%char.

Definition IsPathSeparator (c : ascii) : bool := Ascii.eqb c Separator.

(** The elements of a path: the byte runs between separators. *)
Fixpoint splitPath (cur : string) (s : string) : list string :=
  match s with
  | "" => [String.rev cur]
  | String c s' =>
      if IsPathSeparator c then String.rev cur :: splitPath "" s'
      else splitPath (String c cur) s'
  end.

(** One step of [Clean]'s scan.  [out] is the stack of elements written
    so far, last one first: an empty element or [.] is dropped; [..]
    removes the last element when there is one to remove, is kept when the
    path is not rooted, and is dropped at the root. *)
Definition cleanStep (rooted : bool) (out : list string) (e : string) : list string :=
  if String.eqb e "" || String.eqb e "." then out
  else if String.eqb e ".." then
    match out with
    | top :: out' =>
        if String.eqb top ".." then e :: out else out'
    | nil => if rooted then out else [e]
    end
  else e :: out.

Fixpoint joinElems (l : list string) : string :=
  match l with
  | nil => ""
  | [e] => e
  | e :: l' => e ++ "/" ++ joinElems l'
  end.

(** [filepath.Clean]: the shortest path equivalent to [path] by lexical
    processing alone. *)
Definition Clean (path : string) : string :=
  match path with
  | "" => "."
  | String c _ =>
      let rooted := IsPathSeparator c in
      let out := rev (fold_left (cleanStep rooted) (splitPath "" path) nil) in
      if rooted then "/" ++ joinElems out
      else match out with nil => "." | _ => joinElems out end
  end.

(** [filepath.Join]: the elements from the first non-empty one on are
    joined with separators and the result is cleaned; [""] when every
    element is empty. *)
Fixpoint Join (elem : list string) : string :=
  match elem with
  | nil => ""
  | e :: elem' =>
      if String.eqb e "" then Join elem' else Clean (joinElems elem)
  end.

Fixpoint dropWhile (f : ascii -> bool) (s : string) : string :=
  match s with
  | "" => ""
  | String c s' => if f c then dropWhile f s' else s
  end.

Fixpoint takeWhile (f : ascii -> bool) (s : string) : string :=
  match s with
  | "" => ""
  | String c s' => if f c then String c (takeWhile f s') else ""
  end.

(** [filepath.Base]: the last element of [path], trailing separators
    removed first; [.] for the empty path and [/] for a path of
    separators only. *)
Definition Base (path : string) : string :=
  match path with
  | "" => "."
  | _ =>
      let stripped := dropWhile IsPathSeparator (String.rev path) in
      let last := String.rev (takeWhile (fun c => negb (IsPathSeparator c)) stripped) in
      match last with
      | "" => "/"
      | _ => last
      end
  end.

(** [filepath.Dir]: all but the last element of [path], cleaned. *)
Definition Dir (path : string) : string :=
  Clean (String.rev (dropWhile (fun c => negb (IsPathSeparator c)) (String.rev path))).

End Filepath.

(** ** Machine integers *)

(** Go's [int] (on the 64-bit platforms the program is built for) and
    [int64]: the result of an arithmetic operation is reduced to the signed
    64-bit range. *)
Definition wrap64 (z : Z) : Z := (z + 2 ^ 63) mod 2 ^ 64 - 2 ^ 63.

(** ** [pkg/config]: targets and their defaults *)

Module Config.

Module Defaults.
Record t := mk {
  UserAgent : string;
  RateLimit : string;
  Retries : Z;
  MaxDepth : Z;
  Timeout : Z;
  WaitBetweenRequests : Z;
  Timestamping : bool;
  NoClobber : bool;
  ContinueDownload : bool;
  CheckChanges : bool
}.
End Defaults.

Module Target.
Record t := mk {
  Name : string;
  URL : string;
  UserAgent : string;
  RateLimit : string;
  Retries : Z;
  MaxDepth : Z;
  Timeout : Z;
  WaitBetweenRequests : Z;
  Timestamping : bool;
  NoClobber : bool;
  ContinueDownload : bool;
  CheckChanges : bool
}.
End Target.

(** The [Mirror] section of the configuration. *)
Module MirrorSection.
Record t := mk { DataPath : string; LogLevel : string }.
End MirrorSection.

(** [Config] without its [Server] section, which the crawler never
    reads. *)
Record Config := mkConfig {
  Defaults_ : Defaults.t;
  Targets : list Target.t;
  Mirror : MirrorSection.t
}.

Definition GetDefaults : Defaults.t :=
  {| Defaults.UserAgent :=
       "Mozilla/5.0 (compatible; HttpMirror/1.0; +https://github.com/jhofer-cloud/http-mirror) Friendly Educational Mirror";
     Defaults.RateLimit := "500k";
     Defaults.Retries := 3;
     Defaults.MaxDepth := 5;
     Defaults.Timeout := 30;
     Defaults.WaitBetweenRequests := 1;
     Defaults.Timestamping := true;
     Defaults.NoClobber := true;
     Defaults.ContinueDownload := true;
     Defaults.CheckChanges := true |}.

(** [applyDefaults]: a field of the target that holds its zero value
    takes the value of the defaults. *)
Definition applyDefaults (target : Target.t) (defaults : Defaults.t) : Target.t :=
  {| Target.Name := Target.Name target;
     Target.URL := Target.URL target;
     Target.UserAgent :=
       if String.eqb (Target.UserAgent target) "" then Defaults.UserAgent defaults
       else Target.UserAgent target;
     Target.RateLimit :=
       if String.eqb (Target.RateLimit target) "" then Defaults.RateLimit defaults
       else Target.RateLimit target;
     Target.Retries :=
       if Target.Retries target =? 0 then Defaults.Retries defaults
       else Target.Retries target;
     Target.MaxDepth :=
       if Target.MaxDepth target =? 0 then Defaults.MaxDepth defaults
       else Target.MaxDepth target;
     Target.Timeout :=
       if Target.Timeout target =? 0 then Defaults.Timeout defaults
       else Target.Timeout target;
     Target.WaitBetweenRequests :=
       if Target.WaitBetweenRequests target =? 0 then Defaults.WaitBetweenRequests defaults
       else Target.WaitBetweenRequests target;
     Target.Timestamping :=
       if negb (Target.Timestamping target) then Defaults.Timestamping defaults
       else Target.Timestamping target;
     Target.NoClobber :=
       if negb (Target.NoClobber target) then Defaults.NoClobber defaults
       else Target.NoClobber target;
     Target.ContinueDownload :=
       if negb (Target.ContinueDownload target) then Defaults.ContinueDownload defaults
       else Target.ContinueDownload target;
     Target.CheckChanges :=
       if negb (Target.CheckChanges target) then Defaults.CheckChanges defaults
       else Target.CheckChanges target |}.

(** A decoded configuration document, as [json.Unmarshal] sees it: a key
    of the [defaults] object that the document lacks is [None]; the
    targets are decoded into fresh values, so their absent keys hold the
    zero value already. *)
Record ConfigFile := mkConfigFile {
  fileUserAgent : option string;
  fileRateLimit : option string;
  fileRetries : option Z;
  fileMaxDepth : option Z;
  fileTimeout : option Z;
  fileWaitBetweenRequests : option Z;
  fileTimestamping : option bool;
  fileNoClobber : option bool;
  fileContinueDownload : option bool;
  fileCheckChanges : option bool;
  fileTargets : option (list Target.t);
  fileDataPath : option string;
  fileLogLevel : option string
}.

(** [json.Unmarshal(data, config)]: the keys the document has overwrite
    the fields of [config]; the other fields keep their values. *)
Definition unmarshal (f : ConfigFile) (config : Config) : Config :=
  let d := Defaults_ config in
  {| Defaults_ :=
       {| Defaults.UserAgent := default (Defaults.UserAgent d) (fileUserAgent f);
          Defaults.RateLimit := default (Defaults.RateLimit d) (fileRateLimit f);
          Defaults.Retries := default (Defaults.Retries d) (fileRetries f);
          Defaults.MaxDepth := default (Defaults.MaxDepth d) (fileMaxDepth f);
          Defaults.Timeout := default (Defaults.Timeout d) (fileTimeout f);
          Defaults.WaitBetweenRequests :=
            default (Defaults.WaitBetweenRequests d) (fileWaitBetweenRequests f);
          Defaults.Timestamping := default (Defaults.Timestamping d) (fileTimestamping f);
          Defaults.NoClobber := default (Defaults.NoClobber d) (fileNoClobber f);
          Defaults.ContinueDownload :=
            default (Defaults.ContinueDownload d) (fileContinueDownload f);
          Defaults.CheckChanges := default (Defaults.CheckChanges d) (fileCheckChanges f) |};
     Targets := default (Targets config) (fileTargets f);
     Mirror :=
       {| MirrorSection.DataPath :=
            default (MirrorSection.DataPath (Mirror config)) (fileDataPath f);
          MirrorSection.LogLevel :=
            default (MirrorSection.LogLevel (Mirror config)) (fileLogLevel f) |} |}.

(** [getEnv]: the environment is a function that gives [""] for a
    variable that is not set, as [os.Getenv] does. *)
Definition getEnv (env : string -> string) (key defaultValue : string) : string :=
  if String.eqb (env key) "" then defaultValue else env key.

(** [loadFromEnv]: a single target from [MIRROR_URL] and [MIRROR_NAME]. *)
Definition loadFromEnv (env : string -> string) (config : Config) : Config :=
  if String.eqb (env "MIRROR_URL") "" then config
  else
    {| Defaults_ := Defaults_ config;
       Targets :=
         [ {| Target.Name := getEnv env "MIRROR_NAME" "default";
              Target.URL := env "MIRROR_URL";
              Target.UserAgent := ""; Target.RateLimit := "";
              Target.Retries := 0; Target.MaxDepth := 0; Target.Timeout := 0;
              Target.WaitBetweenRequests := 0;
              Target.Timestamping := false; Target.NoClobber := false;
              Target.ContinueDownload := false; Target.CheckChanges := false |} ];
       Mirror := Mirror config |}.

(** [LoadConfig].  [readConfig name] is the decoded content of the file
    [name], [None] when it cannot be read or decoded. *)
Definition LoadConfig (env : string -> string)
    (readConfig : string -> option ConfigFile) : option Config :=
  let config :=
    {| Defaults_ := GetDefaults;
       Targets := nil;
       Mirror :=
         {| MirrorSection.DataPath := getEnv env "MIRROR_DATA_PATH" "/data";
            MirrorSection.LogLevel := getEnv env "LOG_LEVEL" "info" |} |} in
  let loaded :=
    if String.eqb (env "CONFIG_FILE") "" then Some (loadFromEnv env config)
    else
      match readConfig (env "CONFIG_FILE") with
      | Some f => Some (unmarshal f config)
      | None => None
      end in
  match loaded with
  | None => None
  | Some config =>
      Some {| Defaults_ := Defaults_ config;
              Targets := map (fun t => applyDefaults t (Defaults_ config)) (Targets config);
              Mirror := Mirror config |}
  end.

(** [GetWaitDuration]: [time.Duration(t.WaitBetweenRequests) * time.Second],
    in nanoseconds. *)
Definition GetWaitDuration (t : Target.t) : Z :=
  wrap64 (Target.WaitBetweenRequests t * 1000000000).

End Config.

(** ** Errors, the event trace and the local filesystem *)

(** Go [error] values.  [ErrWrap msg e] is [fmt.Errorf("msg: %w", e)] (and
    the [*url.Error] that [client.Do] wraps around a failure). *)
Inductive Error :=
| ErrContext                      (* ctx.Err(): cancelled or deadline exceeded *)
| ErrTransport                    (* the connection could not be made or broke *)
| ErrParse                        (* url.Parse failed *)
| ErrStatus (code : Z)            (* "... request returned status %d" *)
| ErrFS (op path : string)        (* *os.PathError *)
| ErrRate                         (* rate: Wait(n) exceeds limiter's burst *)
| ErrWrap (msg : string) (e : Error).

(** [errors.Is(err, ctx.Err())]: the cancellation error is in the chain. *)
Fixpoint isContextError (e : Error) : bool :=
  match e with
  | ErrContext => true
  | ErrWrap _ e' => isContextError e'
  | _ => false
  end.

(** What [downloadFile] is called for. *)
Inductive Origin :=
| ForLink            (* a file link of a listing *)
| ForEmptyListing    (* an HTML page without links *)
| ForDirectFile.     (* a resource that is not HTML *)

(** What a run does that can be observed from outside. *)
Inductive Event :=
| EvRequest (method url : string)              (* a request is sent *)
| EvMkdirAll (path : string)                   (* the crawler calls os.MkdirAll *)
| EvDownload (o : Origin) (url path : string)  (* the crawler calls downloadFile *)
| EvWarn (msg : string) (err : option Error).  (* logger.Warn *)

Module OS.
Import GoStrings Filepath.

(** A directory with its modification time, or a regular file with its
    content and modification time. *)
Inductive Node :=
| Directory (mtime : Z)
| Regular (content : string) (mtime : Z).

(** The filesystem maps (cleaned) path names to nodes; [/] and [.] are
    directories that always exist. *)
Abbreviation FS := (gmap string Node).

Record FileStat := mkStat { Size : Z; ModTime : Z; IsDir : bool }.

Inductive StatResult :=
| StatOK (fi : FileStat)
| StatNotExist                  (* os.IsNotExist(err) *)
| StatError.                    (* any other error (ENOTDIR) *)

(** The size [Stat] reports for a directory. *)
Definition dirSize : Z := 4096.

Definition lookup (fs : FS) (path : string) : option Node :=
  if String.eqb path "/" || String.eqb path "." then Some (Directory 0) else fs !! path.

(** The parent as [os.MkdirAll] finds it: [path[:i]], [i] the index of
    the separator before the last element ([""] when there is none). *)
Definition parentOf (path : string) : string :=
  let r := dropWhile IsPathSeparator (String.rev path) in
  let r := dropWhile (fun c => negb (IsPathSeparator c)) r in
  String.rev (match r with "" => "" | String _ r' => r' end).

Fixpoint ancestors (fuel : nat) (path : string) : list string :=
  match fuel with
  | O => nil
  | S n =>
      let p := parentOf path in
      if String.eqb p "" then nil else p :: ancestors n p
  end.

Definition isFileNode (o : option Node) : bool :=
  match o with Some (Regular _ _) => true | _ => false end.

(** [os.Stat]: ENOTDIR when an element of the path that should be a
    directory is a regular file. *)
Definition Stat (fs : FS) (path : string) : StatResult :=
  if String.eqb path "" then StatNotExist
  else if existsb (fun a => isFileNode (lookup fs a))
            (ancestors (String.length path) path) then StatError
  else
    match lookup fs path with
    | Some (Directory mt) => StatOK {| Size := dirSize; ModTime := mt; IsDir := true |}
    | Some (Regular c mt) =>
        StatOK {| Size := Z.of_nat (String.length c); ModTime := mt; IsDir := false |}
    | None => StatNotExist
    end.

(** The directory a new entry [path] goes into exists. *)
Definition parentIsDir (fs : FS) (path : string) : bool :=
  let p := parentOf path in
  if String.eqb p "" then true
  else match Stat fs p with
       | StatOK fi => IsDir fi
       | _ => false
       end.

(** [os.Mkdir]; [None] is an error. *)
Definition Mkdir (now : Z) (fs : FS) (path : string) : option FS :=
  match Stat fs path with
  | StatNotExist =>
      if negb (String.eqb path "") && parentIsDir fs path
      then Some (<[path := Directory now]> fs) else None
  | _ => None
  end.

(** [os.MkdirAll]: nothing to do for a directory that exists; an error
    for a path that is a file; otherwise the parent is made first. *)
Fixpoint MkdirAllFrom (fuel : nat) (now : Z) (fs : FS) (path : string) : option FS :=
  match Stat fs path with
  | StatOK fi => if IsDir fi then Some fs else None
  | _ =>
      match fuel with
      | O => None
      | S n =>
          let parent := parentOf path in
          let made :=
            if String.eqb parent "" then Some fs
            else MkdirAllFrom n now fs parent in
          match made with
          | None => None
          | Some fs' =>
              match Mkdir now fs' path with
              | Some fs'' => Some fs''
              | None =>
                  match Stat fs' path with
                  | StatOK fi => if IsDir fi then Some fs' else None
                  | _ => None
                  end
              end
          end
      end
  end.

Definition MkdirAll (now : Z) (fs : FS) (path : string) : option FS :=
  MkdirAllFrom (S (String.length path)) now fs path.

(** [os.Create]: the file is created, or truncated when it exists. *)
Definition Create (now : Z) (fs : FS) (path : string) : option FS :=
  match Stat fs path with
  | StatOK fi => if IsDir fi then None else Some (<[path := Regular "" now]> fs)
  | StatNotExist =>
      if negb (String.eqb path "") && parentIsDir fs path
      then Some (<[path := Regular "" now]> fs) else None
  | StatError => None
  end.

(** Writing [content] to the open file [path]. *)
Definition Write (now : Z) (fs : FS) (path content : string) : FS :=
  <[path := Regular content now]> fs.

(** [os.Chtimes]. *)
Definition Chtimes (fs : FS) (path : string) (t : Z) : FS :=
  match fs !! path with
  | Some (Regular c _) => <[path := Regular c t]> fs
  | Some (Directory _) => <[path := Directory t]> fs
  | None => fs
  end.

(** The state of the machine the program runs on: the filesystem, the
    wall clock (a count of nanoseconds; the zero [time.Time] is [0]) and
    the events so far, latest first. *)
Record Machine := mkMachine {
  fs : gmap string Node;
  clock : Z;
  trace : list Event
}.

Definition setFS (m : Machine) (f : gmap string Node) : Machine :=
  {| fs := f; clock := clock m; trace := trace m |}.

Definition advance (d : Z) (m : Machine) : Machine :=
  {| fs := fs m; clock := clock m + d; trace := trace m |}.

Definition emit (e : Event) (m : Machine) : Machine :=
  {| fs := fs m; clock := clock m; trace := e :: trace m |}.

(** [time.Sleep(d)]: the clock moves on by [d]; a duration that is not
    positive takes no time. *)
Definition Sleep (d : Z) (m : Machine) : Machine := advance (Z.max 0 d) m.

End OS.

(** ** [pkg/http]: the rate limit of a client *)

Module Rate.
Import GoStrings.

(** The value of a decimal digit. *)
Definition digit (c : ascii) : option Z :=
  let n := N_of_ascii c in
  if ((48 <=? n) && (n <=? 57))%N then Some (Z.of_N n - 48) else None.

(** The value of a string of decimal digits read after the value [acc];
    [None] when a byte is not a digit. *)
Fixpoint digits (acc : Z) (s : string) : option Z :=
  match s with
  | "" => Some acc
  | String c s' =>
      match digit c with
      | Some d => digits (10 * acc + d) s'
      | None => None
      end
  end.

(** [strconv.ParseInt(s, 10, 64)]: an optional sign and at least one
    decimal digit; [None] is an error, of syntax or of range. *)
Definition ParseInt (s : string) : option Z :=
  match s with
  | "" => None
  | String c s' =>
      let neg := Ascii.eqb c "-" in
      let body := if Ascii.eqb c "+" || neg then s' else s in
      match body with
      | "" => None
      | _ =>
          match digits 0 body with
          | None => None
          | Some un =>
              if neg then (if un <=? 2 ^ 63 then Some (- un) else None)
              else (if un <? 2 ^ 63 then Some un else None)
          end
      end
  end.

(** [parseRateLimit]: a rate such as [500k] in bytes per second; [0]
    for what does not parse. *)
Definition parseRateLimit (rateStr : string) : Z :=
  let rateStr := ToLower (TrimSpace rateStr) in
  let '(multiplier, numStr) :=
    if HasSuffix rateStr "k" then (1024, TrimSuffix rateStr "k")
    else if HasSuffix rateStr "m" then (1024 * 1024, TrimSuffix rateStr "m")
    else if HasSuffix rateStr "g" then (1024 * 1024 * 1024, TrimSuffix rateStr "g")
    else (1, rateStr) in
  match ParseInt numStr with
  | Some num => wrap64 (num * multiplier)
  | None => 0
  end.

End Rate.

(** ** [pkg/http]: the fetch client *)

Module HTTP.
Import GoStrings Filepath OS Config.

(** What the program reads of an HTTP response.  [ContentLength] and
    [LastModified] are the values of the headers when they are present
    and parse ([strconv.ParseInt], [time.Parse(time.RFC1123, _)]).
    [BodyErr] says that reading the body fails once [Body] has been
    delivered. *)
Module Response.
Record t := mk {
  StatusCode : Z;
  ContentType : string;
  ContentLength : option Z;
  LastModified : option Z;
  ETag : string;
  Body : string;
  BodyErr : bool
}.
End Response.

(** [FileInfo]: remote file information.  [LastModified] is [0] (the zero
    time) and [Size] is [0] when the header was absent or did not parse. *)
Module FileInfo.
Record t := mk {
  URL : string;
  LastModified : Z;
  Size : Z;
  ETag : string;
  ContentType : string
}.
End FileInfo.

(** The world outside the program:
    - [urlPath u] is the [Path] of [url.Parse(u)], [None] when [u] does
      not parse;
    - [resolveReference base link] is
      [url.Parse(base).ResolveReference(url.Parse(link)).String()],
      [None] when [link] does not parse;
    - [serve method u] is the answer of the remote server, [None] when
      the transport fails; the remote tree does not change;
    - [deadline] is the time at which the context of the run is done,
      [None] for a context that never is. *)
Record World := mkWorld {
  urlPath : string -> option string;
  resolveReference : string -> string -> option string;
  serve : string -> string -> option Response.t;
  deadline : option Z
}.

(** [ctx.Done()] is closed. *)
Definition ctxDone (w : World) (m : Machine) : bool :=
  match deadline w with
  | Some d => d <=? clock m
  | None => false
  end.

(** [client.Do(req)] for a request made with the context of the run.
    With a context that is done nothing is sent.  Otherwise the request
    is sent and takes one unit of time; it fails when the context is done
    by then. *)
Definition Do (w : World) (method url : string) (m : Machine)
    : (Error + Response.t) * Machine :=
  if ctxDone w m then (inl (ErrWrap method ErrContext), m)
  else
    let m' := advance 1 (emit (EvRequest method url) m) in
    if ctxDone w m' then (inl (ErrWrap method ErrContext), m')
    else
      match serve w method url with
      | Some resp => (inr resp, m')
      | None => (inl (ErrWrap method ErrTransport), m')
      end.

(** The file information [CheckFileInfo] reads from the headers of a
    response. *)
Definition infoOf (url : string) (resp : Response.t) : FileInfo.t :=
  {| FileInfo.URL := url;
     FileInfo.ContentType := Response.ContentType resp;
     FileInfo.ETag := Response.ETag resp;
     FileInfo.Size := default 0 (Response.ContentLength resp);
     FileInfo.LastModified := default 0 (Response.LastModified resp) |}.

(** [CheckFileInfo]: a HEAD request for the file information. *)
Definition CheckFileInfo (w : World) (url : string) (m : Machine)
    : (Error + FileInfo.t) * Machine :=
  match urlPath w url with
  | None => (inl (ErrWrap "failed to create HEAD request" ErrParse), m)
  | Some _ =>
      match Do w "HEAD" url m with
      | (inl e, m') => (inl (ErrWrap "HEAD request failed" e), m')
      | (inr resp, m') =>
          if negb (Response.StatusCode resp =? 200)
          then (inl (ErrStatus (Response.StatusCode resp)), m')
          else
            (inr (infoOf url resp), m')
      end
  end.

(** [time.Time.IsZero]. *)
Definition IsZero (t : Z) : bool := t =? 0.

(** [NeedsUpdate]: does the local file need to be updated? *)
Definition NeedsUpdate (fs : FS) (localPath : string) (remoteInfo : FileInfo.t)
    : Error + bool :=
  match Stat fs localPath with
  | StatNotExist => inr true
  | StatError => inl (ErrWrap "failed to stat local file" (ErrFS "stat" localPath))
  | StatOK stat =>
      if negb (IsZero (FileInfo.LastModified remoteInfo))
         && (ModTime stat <? FileInfo.LastModified remoteInfo)
      then inr true
      else if (0 <? FileInfo.Size remoteInfo)
              && negb (Size stat =? FileInfo.Size remoteInfo)
      then inr true
      else inr false
  end.

(** [NewClient]: the limiter of the client of [target], given by its
    burst, which is the rate in bytes per second; [None] for a client
    without a limiter. *)
Definition limiter (target : Target.t) : option Z :=
  if String.eqb (Target.RateLimit target) "" then None
  else
    let bytesPerSecond := Rate.parseRateLimit (Target.RateLimit target) in
    if 0 <? bytesPerSecond then Some bytesPerSecond else None.

(** The buffer [io.Copy] reads through: 32 KiB. *)
Definition copyBuffer : Z := 32 * 1024.

(** [rateLimitedReader.Read]: before each read the reader waits for as
    many tokens as the buffer is long, and [WaitN] refuses a wait for more
    tokens than the burst of the limiter.  A wait the limiter accepts takes no
    time here, as the copy itself takes none: time passes with the requests. *)
Definition limiterAllows (target : Target.t) : bool :=
  match limiter target with
  | Some burst => copyBuffer <=? burst
  | None => true
  end.

(** The part of [DownloadFile] after the check for changes: the
    directory is made, the file created, the body requested and copied,
    and the modification time set. *)
Definition transfer (w : World) (config : Target.t) (url localPath : string)
    (m : Machine) : option Error * Machine :=
  match MkdirAll (clock m) (fs m) (Dir localPath) with
  | None => (Some (ErrWrap "failed to create directory" (ErrFS "mkdir" (Dir localPath))), m)
  | Some fs1 =>
      let m := setFS m fs1 in
      match Create (clock m) (fs m) localPath with
      | None => (Some (ErrWrap "failed to create local file" (ErrFS "open" localPath)), m)
      | Some fs2 =>
          let m := setFS m fs2 in
          match urlPath w url with
          | None => (Some (ErrWrap "failed to create GET request" ErrParse), m)
          | Some _ =>
              match Do w "GET" url m with
              | (inl e, m) => (Some (ErrWrap "GET request failed" e), m)
              | (inr resp, m) =>
                  if negb (Response.StatusCode resp =? 200)
                  then (Some (ErrStatus (Response.StatusCode resp)), m)
                  else if negb (limiterAllows config)
                  then (Some (ErrWrap "failed to copy file" ErrRate), m)
                  else
                    let m := setFS m (Write (clock m) (fs m) localPath (Response.Body resp)) in
                    if Response.BodyErr resp
                    then (Some (ErrWrap "failed to copy file" ErrTransport), m)
                    else
                      match Response.LastModified resp with
                      | Some t => (None, setFS m (Chtimes (fs m) localPath t))
                      | None => (None, m)
                      end
              end
          end
      end
  end.

(** [DownloadFile]: with change detection, the file is probed first and
    left alone when it is up to date. *)
Definition DownloadFile (w : World) (config : Target.t) (url localPath : string)
    (m : Machine) : option Error * Machine :=
  if Target.CheckChanges config then
    match CheckFileInfo w url m with
    | (inl e, m) => (Some (ErrWrap "failed to check remote file info" e), m)
    | (inr remoteInfo, m) =>
        match NeedsUpdate (fs m) localPath remoteInfo with
        | inl e => (Some (ErrWrap "failed to check if file needs update" e), m)
        | inr false => (None, m)
        | inr true => transfer w config url localPath m
        end
    end
  else transfer w config url localPath m.

End HTTP.

(** ** [pkg/mirror]: the crawler *)

Module Mirror.
Import GoStrings Filepath OS Config HTTP.

(** [MirrorStats]: the statistics of one run. *)
Record MirrorStats := mkStats {
  StartTime : Z;
EndTime : Z;
Duration : Z;
Target_ : string;
FilesDownloaded : Z;
FilesSkipped : Z;
BytesDownloaded : Z;
Errors : Z
}.

(** What a run works on: the machine and the statistics record that is
    passed by reference through the walk. *)
Record State := mkState {
  mach : Machine;
  stats : MirrorStats
}.

Definition setMach (st : State) (m : Machine) : State :=
  {| mach := m; stats := stats st |}.

(** [stats.Errors++] *)
Definition incErrors (st : State) : State :=
  let s := stats st in
  {| mach := mach st;
     stats := {| StartTime := StartTime s; EndTime := EndTime s; Duration := Duration s;
                 Target_ := Target_ s;
                 FilesDownloaded := FilesDownloaded s;
                 FilesSkipped := FilesSkipped s;
                 BytesDownloaded := BytesDownloaded s;
                 Errors := wrap64 (Errors s + 1) |} |}.

(** [stats.FilesSkipped++] *)
Definition incSkipped (st : State) : State :=
  let s := stats st in
  {| mach := mach st;
     stats := {| StartTime := StartTime s; EndTime := EndTime s; Duration := Duration s;
                 Target_ := Target_ s;
                 FilesDownloaded := FilesDownloaded s;
                 FilesSkipped := wrap64 (FilesSkipped s + 1);
                 BytesDownloaded := BytesDownloaded s;
                 Errors := Errors s |} |}.

(** [stats.BytesDownloaded += n] *)
Definition addBytes (n : Z) (st : State) : State :=
  let s := stats st in
  {| mach := mach st;
     stats := {| StartTime := StartTime s; EndTime := EndTime s; Duration := Duration s;
                 Target_ := Target_ s;
                 FilesDownloaded := FilesDownloaded s;
                 FilesSkipped := FilesSkipped s;
                 BytesDownloaded := wrap64 (BytesDownloaded s + n);
                 Errors := Errors s |} |}.

(** [stats.FilesDownloaded++] *)
Definition incDownloaded (st : State) : State :=
  let s := stats st in
  {| mach := mach st;
     stats := {| StartTime := StartTime s; EndTime := EndTime s; Duration := Duration s;
                 Target_ := Target_ s;
                 FilesDownloaded := wrap64 (FilesDownloaded s + 1);
                 FilesSkipped := FilesSkipped s;
                 BytesDownloaded := BytesDownloaded s;
                 Errors := Errors s |} |}.

(** [m.logger.Warn] *)
Definition warn (msg : string) (err : option Error) (st : State) : State :=
  setMach st (emit (EvWarn msg err) (mach st)).

Definition note (e : Event) (st : State) : State :=
  setMach st (emit e (mach st)).

(** *** Link extraction *)

(** The double quote. *)
Definition dquote : ascii := "034"%char.

Definition isQuote (c : ascii) : bool := Ascii.eqb c dquote || Ascii.eqb c "'"%char.

Fixpoint dropBytes (n : nat) (s : string) : string :=
  match n, s with
  | S k, String _ s' => dropBytes k s'
  | _, _ => s
  end.

(** A match of the link pattern, [href=] a quote, one or more bytes
    that are not quotes, a quote, at the start of [s]: the bytes between
    the quotes. *)
Definition matchHref (s : string) : option string :=
  if HasPrefix s "href=" then
    match dropBytes 5 s with
    | String q r =>
        if isQuote q then
          let link := takeWhile (fun c => negb (isQuote c)) r in
          match link, dropBytes (String.length link) r with
          | String _ _, String _ _ => Some link
          | _, _ => None
          end
        else None
    | "" => None
    end
  else None.

(** [linkPattern.FindAllStringSubmatch(content, -1)], the first group of
    each match: the text is searched from left to right and the search
    goes on behind a match.  [skip] counts the bytes of the last match
    that are still ahead. *)
Fixpoint findAllHrefs (skip : nat) (content : string) : list string :=
  match content with
  | "" => nil
  | String _ rest =>
      match skip with
      | S k => findAllHrefs k rest
      | O =>
          match matchHref content with
          | Some link => link :: findAllHrefs (String.length link + 6) rest
          | None => findAllHrefs 0 rest
          end
      end
  end.

(** The body of the loop of [parseDirectoryListing]: [links] with [link]
    appended unless one of the four tests skips it. *)
Definition keepLink (links : list string) (link : string) : list string :=
  if HasPrefix link "http://" || HasPrefix link "https://" ||
     HasPrefix link "mailto:" || HasPrefix link "ftp://" ||
     HasPrefix link "javascript:" || HasPrefix link "data:" ||
     HasPrefix link "vbscript:" ||
     HasPrefix link "#" || String.eqb link "/" || String.eqb link "./"
  then links
  else if Contains link ".." ||
          HasPrefix link "../" ||
          Contains link "/.." ||
          HasSuffix link "/.." ||
          String.eqb link ".."
  then links
  else if Contains (ToLower link) "parent" ||
          Contains (ToLower link) "back" ||
          Contains link "?" || Contains link "&"
  then links
  else if String.eqb link "" || String.eqb (TrimSpace link) ""
  then links
  else links ++ [link].

(** [parseDirectoryListing]: the links of a listing; [None] when the
    body cannot be read. *)
Definition parseDirectoryListing (resp : Response.t) : option (list string) :=
  if Response.BodyErr resp then None
  else Some (fold_left keepLink (findAllHrefs 0 (Response.Body resp)) nil).

(** [isValidFilename]: is the name safe for mirroring? *)
Definition isValidFilename (filename : string) : bool :=
  if String.eqb filename "" || String.eqb (TrimSpace filename) "" then false
  else if Contains filename ".." ||
          Contains filename "/" ||
          Contains filename "\"
  then false
  else true.

(** *** Downloading one file *)

(** [fetchDirectoryListing]: a GET request for the listing. *)
Definition fetchDirectoryListing (w : World) (url : string) (m : Machine)
    : (Error + Response.t) * Machine :=
  match urlPath w url with
  | None => (inl ErrParse, m)
  | Some _ => Do w "GET" url m
  end.

(** The check for changes at the start of [downloadFile]: [true] when
    the file is up to date and is skipped.  A probe or a stat that fails
    does not stop the download. *)
Definition upToDate (w : World) (target : Target.t) (url localPath : string)
    (m : Machine) : bool * Machine :=
  if Target.CheckChanges target then
    match CheckFileInfo w url m with
    | (inl _, m) => (false, m)
    | (inr remoteInfo, m) =>
        match NeedsUpdate (fs m) localPath remoteInfo with
        | inl _ => (false, m)
        | inr needsUpdate => (negb needsUpdate, m)
        end
    end
  else (false, m).

(** [downloadFile]: downloads a single file and keeps the statistics. *)
Definition downloadFile (w : World) (target : Target.t) (url localPath : string)
    (st : State) : option Error * State :=
  match upToDate w target url localPath (mach st) with
  | (true, m) => (None, incSkipped (setMach st m))
  | (false, m) =>
      match DownloadFile w target url localPath m with
      | (Some err, m) => (Some err, incErrors (setMach st m))
      | (None, m) =>
          let st := setMach st m in
          match Stat (fs m) localPath with
          | StatOK stat => (None, incDownloaded (addBytes (Size stat) st))
          | _ => (None, incDownloaded st)
          end
      end
  end.

(** [downloadFile] as [mirrorURL] calls it: a failure is logged and
    otherwise ignored. *)
Definition downloadLogged (w : World) (target : Target.t) (o : Origin)
    (url localPath : string) (st : State) : State :=
  match downloadFile w target url localPath (note (EvDownload o url localPath) st) with
  | (Some err, st) => warn "Failed to download file" (Some err) st
  | (None, st) => st
  end.

(** *** The recursive walk *)

(** The depth limit is reached ([-1] means unlimited). *)
Definition depthReached (target : Target.t) (depth : Z) : bool :=
  (0 <=? Target.MaxDepth target) && (Target.MaxDepth target <=? depth).

(** The local file name of an HTML page without links. *)
Definition emptyListingFilename (path : string) : string :=
  let filename := Base path in
  if String.eqb filename "" || String.eqb filename "." then "index.html"
  else filename.

(** The local file name of a resource that is not HTML. *)
Definition directFilename (path : string) : string :=
  let filename := Base path in
  if String.eqb filename "" || String.eqb filename "." || String.eqb filename "/"
  then "index.html"
  else filename.

(** The result of a walk: [None] when the recursion budget of the model
    is used up, the returned error and the state otherwise. *)
Definition Outcome : Type := option (option Error * State).

Section Walk.
Variable w : World.
Variable target : Target.t.

(** [mirrorURL] one level down. *)
Variable recurse : string -> string -> Z -> State -> Outcome.

(** One round of the loop over the links: the state the next round
    starts in. *)
Definition processLink (currentURL localDir : string) (depth : Z)
    (link : string) (st : State) : option State :=
  match resolveReference w currentURL link with
  | None => Some st
  | Some absoluteURL =>
      if Contains link ".." || Contains link "Parent Directory" then Some st
      else if HasSuffix link "/" then
        let dirName := TrimSuffix link "/" in
        if negb (isValidFilename dirName)
        then Some (warn "Skipping invalid directory name" None st)
        else
          let subDir := Join [localDir; dirName] in
          if negb (HasPrefix subDir localDir)
          then Some (incErrors (warn "Skipping directory outside bounds" None st))
          else
            let st := note (EvMkdirAll subDir) st in
            match MkdirAll (clock (mach st)) (fs (mach st)) subDir with
            | None => Some (incErrors st)
            | Some fs' =>
                match recurse absoluteURL subDir (wrap64 (depth + 1))
                        (setMach st (setFS (mach st) fs')) with
                | None => None
                | Some (Some err, st) =>
                    Some (warn "Failed to mirror subdirectory" (Some err) st)
                | Some (None, st) => Some st
                end
            end
      else
        let filename := Base link in
        if negb (isValidFilename filename)
        then Some (warn "Skipping invalid filename" None st)
        else
          let localPath := Join [localDir; filename] in
          if negb (HasPrefix localPath localDir)
          then Some (incErrors (warn "Skipping file outside bounds" None st))
          else Some (downloadLogged w target ForLink absoluteURL localPath st)
  end.

Fixpoint processLinks (currentURL localDir : string) (depth : Z)
    (links : list string) (st : State) : option State :=
  match links with
  | nil => Some st
  | link :: links' =>
      match processLink currentURL localDir depth link st with
      | None => None
      | Some st' => processLinks currentURL localDir depth links' st'
      end
  end.

(** What [mirrorURL] does with the response to its request: the links
    of an HTML listing are processed; an HTML page without links and a
    resource of another type are downloaded as a single file. *)
Definition handleResponse (currentURL localDir : string) (depth : Z)
    (path : string) (resp : Response.t) (st : State) : Outcome :=
  if Contains (Response.ContentType resp) "text/html" then
    match parseDirectoryListing resp with
    | None =>
        Some (None, incErrors (warn "Failed to parse directory listing" None st))
    | Some nil =>
        let localPath := Join [localDir; emptyListingFilename path] in
        Some (None, downloadLogged w target ForEmptyListing currentURL localPath st)
    | Some links =>
        match processLinks currentURL localDir depth links st with
        | None => None
        | Some st => Some (None, st)
        end
    end
  else
    let localPath := Join [localDir; directFilename path] in
    Some (None, downloadLogged w target ForDirectFile currentURL localPath st).

(** The wait between requests, below the root. *)
Definition pace (depth : Z) (st : State) : State :=
  if (0 <? depth) && (0 <? Target.WaitBetweenRequests target)
  then setMach st (Sleep (GetWaitDuration target) (mach st))
  else st.

(** The body of [mirrorURL]. *)
Definition mirrorURLBody (currentURL localDir : string) (depth : Z) (st : State)
    : Outcome :=
  if depthReached target depth then Some (None, st)
  else if ctxDone w (mach st) then Some (Some ErrContext, st)
  else
    let st := pace depth st in
    match urlPath w currentURL with
    | None => Some (Some (ErrWrap "failed to parse URL" ErrParse), incErrors st)
    | Some path =>
        match fetchDirectoryListing w currentURL (mach st) with
        | (inl err, m) =>
            Some (Some (ErrWrap "failed to fetch directory listing" err),
                  incErrors (setMach st m))
        | (inr resp, m) =>
            handleResponse currentURL localDir depth path resp (setMach st m)
        end
    end.

End Walk.

(** [mirrorURL]: recursively mirrors a URL and its contents.  [fuel]
    bounds the depth of the recursion of the model. *)
Fixpoint mirrorURL (fuel : nat) (w : World) (target : Target.t)
    (currentURL localDir : string) (depth : Z) (st : State) : Outcome :=
  match fuel with
  | O => None
  | S n => mirrorURLBody w target (mirrorURL n w target) currentURL localDir depth st
  end.

(** [time.Time.Sub]: the difference, kept within the range of a
    [Duration]. *)
Definition Sub (t u : Z) : Z :=
  Z.max (- 2 ^ 63) (Z.min (2 ^ 63 - 1) (t - u)).

(** [MirrorTarget]: mirrors a single target.  The statistics, which the
    program logs, are returned with the error. *)
Definition MirrorTarget (fuel : nat) (w : World) (cfg : Config) (target : Target.t)
    (m : Machine) : Outcome :=
  let targetDir := Join [MirrorSection.DataPath (Mirror cfg); Target.Name target] in
  let stats0 :=
    {| StartTime := clock m; EndTime := 0; Duration := 0;
       Target_ := Target.Name target;
       FilesDownloaded := 0; FilesSkipped := 0; BytesDownloaded := 0; Errors := 0 |} in
  let m := emit (EvMkdirAll targetDir) m in
  match MkdirAll (clock m) (fs m) targetDir with
  | None =>
      Some (Some (ErrWrap "failed to create target directory" (ErrFS "mkdir" targetDir)),
            {| mach := m; stats := stats0 |})
  | Some fs' =>
      match mirrorURL fuel w target (Target.URL target) targetDir 0
              {| mach := setFS m fs'; stats := stats0 |} with
      | None => None
      | Some (err, st) =>
          let s := stats st in
          let now := clock (mach st) in
          Some (err,
                {| mach := mach st;
                   stats := {| StartTime := StartTime s; EndTime := now;
                               Duration := Sub now (StartTime s);
                               Target_ := Target_ s;
                               FilesDownloaded := FilesDownloaded s;
                               FilesSkipped := FilesSkipped s;
                               BytesDownloaded := BytesDownloaded s;
                               Errors := Errors s |} |})
      end
  end.

End Mirror.


(** ** [cmd/updater]: the program *)

Module Updater.
Import GoStrings Filepath OS Config HTTP Mirror.

(** The timeout of the context of [main]: 30 minutes, in nanoseconds. *)
Definition timeout : Z := 30 * 60 * 1000000000.

(** The context [main] makes: done at [now] plus the timeout. *)
Definition withTimeout (w : World) (now : Z) : World :=
  {| urlPath := urlPath w; resolveReference := resolveReference w;
     serve := serve w; deadline := Some (now + timeout) |}.

(** The loop of [main] over the targets: each target is mirrored, and
    the error of one that fails is added to [errors]. *)
Fixpoint mirrorTargets (fuel : nat) (w : World) (cfg : Config)
    (targets : list Target.t) (m : Machine) (errors : list Error)
    : option (list Error * Machine) :=
  match targets with
  | nil => Some (errors, m)
  | target :: targets' =>
      match MirrorTarget fuel w cfg target m with
      | None => None
      | Some (err, st) =>
          let errors :=
            match err with
            | Some e => (errors ++ [ErrWrap ("target " ++ Target.Name target) e])%list
            | None => errors
            end in
          mirrorTargets fuel w cfg targets' (mach st) errors
      end
  end.

(** The environment after [os.Setenv("CONFIG_FILE", *configFile)], which
    [main] calls when the flag [-config] is given. *)
Definition withConfigFlag (env : string -> string) (configFile : string)
    : string -> string :=
  if String.eqb configFile "" then env
  else fun key => if String.eqb key "CONFIG_FILE" then configFile else env key.

(** [main]: the exit status of the program and the machine it leaves;
    [None] when the recursion budget of the model is used up. *)
Definition main (fuel : nat) (w : World) (env : string -> string)
    (readConfig : string -> option ConfigFile) (configFile : string) (m : Machine)
    : option (Z * Machine) :=
  match LoadConfig (withConfigFlag env configFile) readConfig with
  | None => Some (1, m)
  | Some cfg =>
      match Targets cfg with
      | nil => Some (1, m)
      | _ =>
          match mirrorTargets fuel (withTimeout w (clock m)) cfg (Targets cfg) m nil with
          | None => None
          | Some (nil, m') => Some (0, m')
          | Some (_, m') => Some (1, m')
          end
      end
  end.

End Updater.

(** ** The rules of the specification *)

Module Spec.
Import GoStrings Mirror.

(** Rule a: an absolute scheme, a fragment-only reference, or exactly
    [/] or [./]. *)
Definition absoluteOrSelf (link : string) : bool :=
  existsb (HasPrefix link)
    ["http://"; "https://"; "ftp://"; "mailto:"; "javascript:"; "data:"; "vbscript:"; "#"]
  || String.eqb link "/" || String.eqb link "./".

(** Rule b: a parent-traversal pattern; each of them contains [..]. *)
Definition parentTraversal (link : string) : bool := Contains link "..".

(** Rule c: [parent] or [back] in any case, or a query component. *)
Definition nonContent (link : string) : bool :=
  Contains (ToLower link) "parent" || Contains (ToLower link) "back" ||
  Contains link "?" || Contains link "&".

(** Rule d: empty or whitespace only. *)
Definition blank (link : string) : bool :=
  String.eqb link "" || String.eqb (TrimSpace link) "".

(** The local path a link of a listing kept in [localDir] is stored
    under: a link that ends with [/] is a subdirectory, any other a
    file. *)
Definition localPathOf (localDir link : string) : string :=
  if HasSuffix link "/" then Filepath.Join [localDir; TrimSuffix link "/"]
  else Filepath.Join [localDir; Filepath.Base link].

(** The filesystem operations of the crawler that the containment
    invariant is about, the making of a subdirectory for a subdirectory
    link and the download for a file link, lie inside [root]: the path
    has [root] as a prefix. *)
Definition writesInside (root : string) (e : Event) : Prop :=
  match e with
  | EvMkdirAll p => HasPrefix p root = true
  | EvDownload ForLink _ p => HasPrefix p root = true
  | _ => True
  end.

(** An event that is no filesystem operation of the crawler. *)
Definition quietEvent (e : Event) : Prop :=
  match e with
  | EvRequest _ _ | EvWarn _ _ => True
  | _ => False
  end.

(** From [m] to [m'] the trace grows by events that satisfy [P]. *)
Definition grows (P : Event -> Prop) (m m' : OS.Machine) : Prop :=
  exists new, OS.trace m' = (new ++ OS.trace m)%list /\ Forall P new.

(** A node that is a directory. *)
Definition isDirectory (n : OS.Node) : Prop := exists t, n = OS.Directory t.

(** What the probe of [url] reports while the context is not done:
    the file information of the answer to the HEAD request when its
    status is 200. *)
Definition probe (w : HTTP.World) (url : string) : option HTTP.FileInfo.t :=
  match HTTP.urlPath w url with
  | None => None
  | Some _ =>
      match HTTP.serve w "HEAD" url with
      | Some resp =>
          if HTTP.Response.StatusCode resp =? 200 then Some (HTTP.infoOf url resp)
          else None
      | None => None
      end
  end.

(** The disk [F] has what an operation of the crawler asks for: the
    local file of a download whose probe succeeds is not in need of an
    update, and a directory to make is there (or cannot be made). *)
Definition settled (w : HTTP.World) (F : OS.FS) (e : Event) : Prop :=
  match e with
  | EvDownload _ url path =>
      match probe w url with
      | Some info => HTTP.NeedsUpdate F path info <> inr true
      | None => True
      end
  | EvMkdirAll dir =>
      (exists fi, OS.Stat F dir = OS.StatOK fi /\ OS.IsDir fi = true) \/
      (forall now, OS.MkdirAll now F dir = None)
  | _ => True
  end.

(** The download of the event is skipped on the disk [F]: the probe
    succeeds and the local file is up to date. *)
Definition skipped (w : HTTP.World) (F : OS.FS) (e : Event) : bool :=
  match e with
  | EvDownload _ url path =>
      match probe w url with
      | Some info =>
          match HTTP.NeedsUpdate F path info with
          | inr false => true
          | _ => false
          end
      | None => false
      end
  | _ => false
  end.

Definition countSkipped (w : HTTP.World) (F : OS.FS) (events : list Event) : nat :=
  List.length (List.filter (skipped w F) events).

(** A counter after [n] increments. *)
Definition bump (n : nat) (x : Z) : Z := Nat.iter n (fun x => wrap64 (x + 1)) x.

(** A step from [st] to [st'] that, on a disk [F] that is settled for
    the events of the step, writes nothing and downloads nothing, and
    counts the downloads it skips. *)
Definition noop (w : HTTP.World) (F : OS.FS) (st st' : State) : Prop :=
  exists new,
    OS.trace (mach st') = (new ++ OS.trace (mach st))%list /\
    (Forall (settled w F) new -> OS.fs (mach st) = F ->
     OS.fs (mach st') = F /\
     FilesDownloaded (stats st') = FilesDownloaded (stats st) /\
     BytesDownloaded (stats st') = BytesDownloaded (stats st) /\
     FilesSkipped (stats st') = bump (countSkipped w F new) (FilesSkipped (stats st))).

(** A link survives when no rule excludes it. *)
Definition survives (link : string) : bool :=
  negb (absoluteOrSelf link || parentTraversal link || nonContent link || blank link).

(** Two nodes of the same kind: both directories or both regular files. *)
Definition sameKind (n n' : OS.Node) : Prop :=
  match n, n' with
  | OS.Directory _, OS.Directory _ => True
  | OS.Regular _ _, OS.Regular _ _ => True
  | _, _ => False
  end.

(** Every entry of the disk [f] is an entry of [f'], of the same kind. *)
Definition keeps (f f' : OS.FS) : Prop :=
  forall p n, f !! p = Some n -> exists n', f' !! p = Some n' /\ sameKind n n'.

(** A directory path in the form [filepath.Clean] gives it, other than
    the current directory [.]. *)
Definition cleanDir (d : string) : Prop := Filepath.Clean d = d /\ d <> ".".

(** The warning of the containment check of [mirrorURL]. *)
Definition boundsWarning (e : Event) : bool :=
  match e with
  | EvWarn msg None =>
      String.eqb msg "Skipping directory outside bounds" ||
      String.eqb msg "Skipping file outside bounds"
  | _ => false
  end.

(** The stack of elements [filepath.Clean] has built at the end of its
    scan of [path], and the path it writes for a stack. *)
Definition stackOf (rooted : bool) (path : string) : list string :=
  fold_left (Filepath.cleanStep rooted) (Filepath.splitPath "" path) nil.

Definition render (rooted : bool) (out : list string) : string :=
  if rooted then "/" ++ Filepath.joinElems out
  else match out with nil => "." | _ => Filepath.joinElems out end.

(** An element of a clean path, and the stacks [filepath.Clean] builds
    (last element first): [..] elements stay at the bottom, and a rooted
    path has none. *)
Definition plain (e : string) : Prop :=
  e <> "" /\ e <> "." /\ e <> ".." /\ Contains e "/" = false.

Definition cleanStack (rooted : bool) (out : list string) : Prop :=
  exists k n, out = (k ++ repeat ".." n)%list /\ Forall plain k /\
              (rooted = true -> n = 0%nat).

(** An event other than the warning of the containment check. *)
Definition inBounds (e : Event) : Prop := boundsWarning e = false.

(** A request on the wire. *)
Definition isRequest (e : Event) : Prop :=
  match e with
  | EvRequest _ _ => True
  | _ => False
  end.

(** The decimal numeral of a natural number: the digits are written from
    the last one, as [strconv.FormatInt] writes them. *)
Definition digitChar (d : Z) : ascii := ascii_of_N (48 + Z.to_N d).

Fixpoint decimalFrom (fuel : nat) (n : Z) (acc : string) : string :=
  match fuel with
  | O => acc
  | S fuel' =>
      let acc' := String (digitChar (n mod 10)) acc in
      if n <? 10 then acc' else decimalFrom fuel' (n / 10) acc'
  end.

Definition decimal (n : Z) : string := decimalFrom 19 n "".

(** Every byte of [s] satisfies [p]. *)
Fixpoint allBytes (p : ascii -> bool) (s : string) : bool :=
  match s with
  | "" => true
  | String c s' => p c && allBytes p s'
  end.

Definition isDigit (c : ascii) : bool :=
  let n := N_of_ascii c in ((48 <=? n) && (n <=? 57))%N.

(** An ASCII letter or digit. *)
Definition isAlnum (c : ascii) : bool :=
  let n := N_of_ascii c in
  (((48 <=? n) && (n <=? 57)) || ((65 <=? n) && (n <=? 90)) || ((97 <=? n) && (n <=? 122)))%N.

(** *** The rules of link extraction, without the functions of the code *)

(** An ASCII byte, and a lower-case ASCII letter. *)
Definition isASCII (c : ascii) : bool := (N_of_ascii c <? 128)%N.

Definition isLower (c : ascii) : bool :=
  let n := N_of_ascii c in ((97 <=? n) && (n <=? 122))%N.

(** The upper-case letter of a lower-case ASCII letter. *)
Definition upperByte (c : ascii) : ascii := ascii_of_N (N_of_ascii c - 32).

(** U+212A KELVIN SIGN and U+0130 LATIN CAPITAL LETTER I WITH DOT ABOVE,
    the two runes outside ASCII whose lower case is an ASCII letter. *)
Definition kelvinSign : string := bytes [226; 132; 170]%N.

Definition dottedI : string := bytes [196; 176]%N.

(** The ways to write the lower-case letter [x] in either case. *)
Definition caseVariants (x : ascii) : list string :=
  [String x ""; String (upperByte x) ""]
  ++ (if Ascii.eqb x "k" then [kelvinSign] else nil)
  ++ (if Ascii.eqb x "i" then [dottedI] else nil).

(** [w] spells [word], a word of lower-case letters, in any case. *)
Fixpoint AnyCase (word w : string) : Prop :=
  match word with
  | "" => w = ""
  | String x word' =>
      exists v w', In v (caseVariants x) /\ w = v ++ w' /\ AnyCase word' w'
  end.

(** Rule a. *)
Definition AbsoluteOrSelf (link : string) : Prop :=
  (exists scheme rest,
      In scheme ["http://"; "https://"; "ftp://"; "mailto:"; "javascript:";
                 "data:"; "vbscript:"; "#"] /\
      link = scheme ++ rest) \/
  link = "/" \/ link = "./".

(** Rule b. *)
Definition ParentTraversal (link : string) : Prop :=
  exists a b, link = a ++ ".." ++ b.

(** Rule c. *)
Definition NonContent (link : string) : Prop :=
  (exists a w b, link = a ++ w ++ b /\ (AnyCase "parent" w \/ AnyCase "back" w)) \/
  (exists a b, link = a ++ "?" ++ b) \/
  (exists a b, link = a ++ "&" ++ b).

(** Rule d. *)
Definition Blank (link : string) : Prop := WhitespaceOnly link.

Definition Survives (link : string) : Prop :=
  ~ (AbsoluteOrSelf link \/ ParentTraversal link \/ NonContent link \/ Blank link).

(** A quote of either kind, and a text without quotes. *)
Definition quote (c : ascii) : Prop := c = "034"%char \/ c = "'"%char.

Definition quoteFree (s : string) : Prop :=
  forall a c b, s = a ++ String c b -> ~ quote c.

(** The link pattern matches at the start of [s], with [link] between
    the quotes and [rest] behind the match. *)
Definition MatchAt (s link rest : string) : Prop :=
  exists q q', quote q /\ quote q' /\ link <> "" /\ quoteFree link /\
               s = "href=" ++ String q (link ++ String q' rest).

(** The hrefs of a text: the groups of the successive matches of the
    link pattern, each match the leftmost one behind the match before
    it. *)
Inductive Hrefs : string -> list string -> Prop :=
| hrefs_end : Hrefs "" nil
| hrefs_match (s link rest : string) (links : list string) :
    MatchAt s link rest -> Hrefs rest links -> Hrefs s (link :: links)
| hrefs_skip (c : ascii) (s : string) (links : list string) :
    (forall link rest, ~ MatchAt (String c s) link rest) ->
    Hrefs s links -> Hrefs (String c s) links.

End Spec.

(** ** Scenarios: small remote trees to run the crawler on *)

Module Scenario.
Import GoStrings Filepath OS Config HTTP Mirror.

(** The path of [http://host/path] (no query, no fragment, no escapes):
    what follows the host. *)
Definition pathOf (u : string) : option string :=
  if HasPrefix u "http://" then
    Some (dropWhile (fun c => negb (IsPathSeparator c)) (dropBytes 7 u))
  else None.

(** The reference [link], a relative path without dot segments, resolved
    against a base that ends with a separator. *)
Definition resolve (base link : string) : option string := Some (base ++ link).

(** A server given by the table of its resources. *)
Fixpoint lookupTable (table : list (string * Response.t)) (u : string)
    : option Response.t :=
  match table with
  | nil => None
  | (k, r) :: table' => if String.eqb k u then Some r else lookupTable table' u
  end.

Definition notFound : Response.t :=
  {| Response.StatusCode := 404; Response.ContentType := "text/plain";
     Response.ContentLength := None; Response.LastModified := None;
     Response.ETag := ""; Response.Body := ""; Response.BodyErr := false |}.

(** A page of type [text/html]. *)
Definition page (body : string) : Response.t :=
  {| Response.StatusCode := 200; Response.ContentType := "text/html";
     Response.ContentLength := Some (Z.of_nat (String.length body));
     Response.LastModified := None;
     Response.ETag := ""; Response.Body := body; Response.BodyErr := false |}.

(** A file of type [text/plain], last modified at [t]. *)
Definition file (t : Z) (body : string) : Response.t :=
  {| Response.StatusCode := 200; Response.ContentType := "text/plain";
     Response.ContentLength := Some (Z.of_nat (String.length body));
     Response.LastModified := Some t;
     Response.ETag := ""; Response.Body := body; Response.BodyErr := false |}.

(** The server answers GET and HEAD from the same table and with 404 for
    what the table lacks. *)
Definition world (table : list (string * Response.t)) (deadline : option Z) : World :=
  {| urlPath := pathOf;
     resolveReference := resolve;
     serve := fun _ u => Some (default notFound (lookupTable table u));
     deadline := deadline |}.

Definition config : Config :=
  {| Defaults_ := GetDefaults; Targets := nil;
     Mirror := {| MirrorSection.DataPath := "/data"; MirrorSection.LogLevel := "info" |} |}.

Definition target (url : string) (maxDepth : Z) (checkChanges : bool) : Target.t :=
  {| Target.Name := "t"; Target.URL := url;
     Target.UserAgent := "Test Agent"; Target.RateLimit := "";
     Target.Retries := 0; Target.MaxDepth := maxDepth; Target.Timeout := 5;
     Target.WaitBetweenRequests := 0;
     Target.Timestamping := false; Target.NoClobber := false;
     Target.ContinueDownload := false; Target.CheckChanges := checkChanges |}.

(** What is seen of a run: the error, the counters (downloaded, skipped,
    bytes, errors), the events in their order, and the disk. *)
Definition observe (o : Outcome)
    : option (option Error * (Z * Z * Z * Z) * list Event * list (string * Node)) :=
  match o with
  | None => None
  | Some (err, st) =>
      Some (err,
            (FilesDownloaded (stats st), FilesSkipped (stats st),
             BytesDownloaded (stats st), Errors (stats st)),
            rev (trace (mach st)),
            map_to_list (fs (mach st)))
  end.

(** A machine with an empty disk at time [now]. *)
Definition boot (now : Z) : Machine := {| fs := ∅; clock := now; trace := nil |}.

(** A listing with an anchor for each link. *)
Fixpoint anchors (links : list string) : string :=
  match links with
  | nil => ""
  | l :: links' => "<a href='" ++ l ++ "'>" ++ l ++ "</a> " ++ anchors links'
  end.

Definition listing (links : list string) : string :=
  "<html><body><pre>" ++ anchors links ++ "</pre></body></html>".

(** The candidate links of the example of the specification. *)
Definition candidates : list string :=
  ["file1.txt"; "subdir/"; "../"; "?order=name"; "mailto:a@b.com"; "javascript:void(0)"].

(** A listing with quotes of both kinds, a link in upper case, a link
    with the Kelvin sign for the [k] of [back], and a blank link. *)
Definition mixedListing : string :=
  "<a href=" ++ String dquote ("Docs/" ++ String dquote ">Docs</a>")
  ++ "<a href='PARENT.html'>up</a>"
  ++ "<A HREF='ignored.txt'>the pattern is in lower case</A>"
  ++ "<a href=" ++ String dquote ("bac" ++ Spec.kelvinSign ++ ".txt" ++ String dquote ">b</a>")
  ++ "<a href=' '>blank</a>"
  ++ "<a href='a b.txt'>kept</a>"
  ++ "<a href=" ++ String dquote "Read Me.TXT'>quotes need not match</a>".

(** The chain root, level1, level2, level3, file. *)
Definition chain : list (string * Response.t) :=
  [ ("http://h/", page "<html><body><a href='level1/'>level1/</a></body></html>");
    ("http://h/level1/", page "<html><body><a href='level2/'>level2/</a></body></html>");
    ("http://h/level1/level2/", page "<html><body><a href='level3/'>level3/</a></body></html>");
    ("http://h/level1/level2/level3/",
      page "<html><body><a href='deep.txt'>deep.txt</a></body></html>");
    ("http://h/level1/level2/level3/deep.txt", file 1000 "Should not be downloaded") ].

Definition isDirectoryAt (f : FS) (path : string) : bool :=
  match f !! path with Some (Directory _) => true | _ => false end.

Definition isAbsentAt (f : FS) (path : string) : bool :=
  match f !! path with None => true | _ => false end.

(** What the run over the chain is expected to leave. *)
Definition chainOutcome (o : Outcome) : bool :=
  match o with
  | Some (None, st) =>
      isDirectoryAt (fs (mach st)) "/data/t/level1" &&
      isDirectoryAt (fs (mach st)) "/data/t/level1/level2" &&
      isAbsentAt (fs (mach st)) "/data/t/level1/level2/level3" &&
      isAbsentAt (fs (mach st)) "/data/t/level1/level2/level3/deep.txt" &&
      (Errors (stats st) =? 0) && (FilesDownloaded (stats st) =? 0)
  | _ => false
  end.

(** A resource of type [text/plain] at a directory path. *)
Definition plainAtDirectoryPath : list (string * Response.t) :=
  [ ("http://h/files/", file 1000 "data") ].

(** A page of type [text/html] without a link, at the URL without a path
    and at the root. *)
Definition emptyPageNoPath : list (string * Response.t) :=
  [ ("http://h", page "<html><body>nothing here</body></html>") ].

Definition emptyPageAtRoot : list (string * Response.t) :=
  [ ("http://h/", page "<html><body>nothing here</body></html>") ].

(** A resource of type [text/plain] at the root. *)
Definition plainAtRoot : list (string * Response.t) :=
  [ ("http://h/", file 1000 "data") ].

(** A listing with a file name that name validation rejects (it has a
    backslash) and one that it accepts. *)
Definition rejectedName : list (string * Response.t) :=
  [ ("http://h/", page (listing ["a\b.txt"; "good.txt"]));
    ("http://h/good.txt", file 1000 "good") ].

(** A root with the subdirectories [a/] and [b/]. *)
Definition twoSubdirs : list (string * Response.t) :=
  [ ("http://h/", page (listing ["a/"; "b/"]));
    ("http://h/a/", page (listing ["x.txt"]));
    ("http://h/b/", page (listing ["y.txt"]));
    ("http://h/a/x.txt", file 1000 "x");
    ("http://h/b/y.txt", file 1000 "y") ].

(** Two file links with the same last element. *)
Definition sameBasename : list (string * Response.t) :=
  [ ("http://h/", page (listing ["a/x.txt"; "b/x.txt"]));
    ("http://h/a/x.txt", file 1000 "A");
    ("http://h/b/x.txt", file 1000 "BB") ].

(** The run, and the run again on the disk the first run leaves. *)
Definition twice (fuel : nat) (w : World) (cfg : Config) (t : Target.t) (m : Machine)
    : Outcome :=
  match MirrorTarget fuel w cfg t m with
  | Some (_, st) =>
      MirrorTarget fuel w cfg t
        {| fs := fs (mach st); clock := clock (mach st); trace := nil |}
  | None => None
  end.

(** The machine a second run starts on: the disk and the clock the first
    run leaves, and a fresh trace. *)
Definition rerunMachine (first : Outcome) : Machine :=
  match first with
  | Some (_, st) => {| fs := fs (mach st); clock := clock (mach st); trace := nil |}
  | None => boot 0
  end.

(** A configuration file that sets the [maxDepth] of the defaults to
    [0] and has one target without [maxDepth]. *)
Definition zeroDepthFile : ConfigFile :=
  {| fileUserAgent := None; fileRateLimit := None; fileRetries := None;
     fileMaxDepth := Some 0;
     fileTimeout := None; fileWaitBetweenRequests := None;
     fileTimestamping := None; fileNoClobber := None;
     fileContinueDownload := None; fileCheckChanges := None;
     fileTargets :=
       Some [ {| Target.Name := "t"; Target.URL := "http://h/";
                 Target.UserAgent := ""; Target.RateLimit := "";
                 Target.Retries := 0; Target.MaxDepth := 0; Target.Timeout := 0;
                 Target.WaitBetweenRequests := 0;
                 Target.Timestamping := false; Target.NoClobber := false;
                 Target.ContinueDownload := false; Target.CheckChanges := false |} ];
     fileDataPath := None; fileLogLevel := None |}.

(** The environment in which only [CONFIG_FILE] is set. *)
Definition envWithConfigFile (name : string) : string -> string :=
  fun key => if String.eqb key "CONFIG_FILE" then name else "".

(** A target without change detection whose rate limit is [rate]. *)
Definition throttled (rate : string) : Target.t :=
  {| Target.Name := "t"; Target.URL := "http://h/";
     Target.UserAgent := "Test Agent"; Target.RateLimit := rate;
     Target.Retries := 0; Target.MaxDepth := 5; Target.Timeout := 5;
     Target.WaitBetweenRequests := 0;
     Target.Timestamping := false; Target.NoClobber := false;
     Target.ContinueDownload := false; Target.CheckChanges := false |}.

End Scenario.

(* ===================================================================== *)
(** * Part II: properties                                                  *)
(* ===================================================================== *)

#[local] Arguments String.append !_ _ / : simpl nomatch.

(** ** Byte strings *)

Section StringFacts.
Import GoStrings.

Lemma HasPrefix_spec (s p : string) :
  HasPrefix s p = true <-> exists r, s = p ++ r.
Proof.
  revert s. induction p as [|c p IH]; intros s; simpl.
  - split; [intros _; exists s; reflexivity | reflexivity].
  - destruct s as [|d s].
    + split; [discriminate | intros [r Hr]; discriminate].
    + rewrite andb_true_iff, Ascii.eqb_eq, IH. split.
      * intros [-> [r ->]]. exists r. reflexivity.
      * intros [r Hr]. injection Hr as -> ->. split; [reflexivity | eauto].
Qed.

Lemma HasPrefix_refl (s : string) : HasPrefix s s = true.
Proof.
  apply HasPrefix_spec. exists "". induction s as [|c s IH]; simpl; congruence.
Qed.

Lemma append_assoc (a b c : string) : (a ++ b) ++ c = a ++ (b ++ c).
Proof. induction a as [|x a IH]; simpl; congruence. Qed.

Lemma append_nil_r (a : string) : a ++ "" = a.
Proof. induction a as [|x a IH]; simpl; congruence. Qed.

(** The prefix order is transitive: what starts with [b] starts with
    every prefix of [b]. *)
Lemma HasPrefix_trans (a b c : string) :
  HasPrefix b a = true -> HasPrefix c b = true -> HasPrefix c a = true.
Proof.
  rewrite !HasPrefix_spec. intros [r ->] [r' ->].
  exists (r ++ r'). apply append_assoc.
Qed.

Lemma Contains_spec (s sub : string) :
  Contains s sub = true <-> exists a b, s = a ++ sub ++ b.
Proof.
  induction s as [|c s IH]; simpl.
  - rewrite orb_false_r, HasPrefix_spec. split.
    + intros [r Hr]. exists "", r. exact Hr.
    + intros [a [b Hab]]. destruct a; [exists b; exact Hab | discriminate].
  - rewrite orb_true_iff, HasPrefix_spec, IH. split.
    + intros [[r Hr] | [a [b Hab]]].
      * exists "", r. exact Hr.
      * exists (String c a), b. simpl. congruence.
    + intros [a [b Hab]]. destruct a as [|x a]; simpl in Hab.
      * left. exists b. exact Hab.
      * right. injection Hab as -> ->. eauto.
Qed.

Lemma Contains_app_l (a s sub : string) :
  Contains s sub = true -> Contains (a ++ s) sub = true.
Proof.
  rewrite !Contains_spec. intros [x [y ->]].
  exists (a ++ x), y. symmetry. apply append_assoc.
Qed.

Lemma HasPrefix_Contains (s p sub : string) :
  HasPrefix s p = true -> Contains p sub = true -> Contains s sub = true.
Proof.
  rewrite HasPrefix_spec, !Contains_spec. intros [r ->] [a [b ->]].
  exists a, (b ++ r). rewrite !append_assoc. reflexivity.
Qed.

Lemma HasSuffix_spec (s suf : string) :
  HasSuffix s suf = true <-> exists a, s = a ++ suf.
Proof.
  induction s as [|c s IH]; cbn [HasSuffix].
  - rewrite orb_false_r. split.
    + intros H. exists "". destruct suf; [reflexivity | discriminate].
    + intros [a Ha]. destruct a; simpl in Ha; [subst; reflexivity | discriminate].
  - rewrite orb_true_iff, IH, String.eqb_eq. split.
    + intros [<- | [a ->]]; [exists ""; reflexivity | exists (String c a); reflexivity].
    + intros [a Ha]. destruct a as [|x a]; simpl in Ha.
      * left. exact Ha.
      * right. injection Ha as -> ->. eauto.
Qed.

Lemma HasSuffix_Contains (s suf sub : string) :
  HasSuffix s suf = true -> Contains suf sub = true -> Contains s sub = true.
Proof.
  rewrite HasSuffix_spec. intros [a ->]. apply Contains_app_l.
Qed.

Lemma rev_app_spec (a b : string) : String.rev_app a b = String.rev a ++ b.
Proof.
  unfold String.rev. revert b. induction a as [|c a IH]; intros b; simpl.
  - reflexivity.
  - rewrite (IH (String c b)), (IH (String c "")), append_assoc. reflexivity.
Qed.

Lemma rev_cons (c : ascii) (a : string) :
  String.rev (String c a) = String.rev a ++ String c "".
Proof. unfold String.rev at 1. simpl. apply rev_app_spec. Qed.

Lemma rev_append (a b : string) :
  String.rev (a ++ b) = String.rev b ++ String.rev a.
Proof.
  induction a as [|c a IH]; simpl.
  - symmetry. apply append_nil_r.
  - rewrite !rev_cons, IH. apply append_assoc.
Qed.

Lemma rev_involutive (a : string) : String.rev (String.rev a) = a.
Proof.
  induction a as [|c a IH]; [reflexivity|].
  rewrite rev_cons, rev_append, IH. reflexivity.
Qed.

Lemma rev_empty (a : string) : String.rev a = "" -> a = "".
Proof. intros H. rewrite <- (rev_involutive a), H. reflexivity. Qed.

Lemma length_append (a b : string) :
  String.length (a ++ b) = (String.length a + String.length b)%nat.
Proof. induction a as [|c a IH]; simpl; congruence. Qed.

(** *** Trimming whitespace *)

Section Trim.
Variable runes : list string.
Hypothesis runes_nonempty : forall r, In r runes -> r <> "".

Lemma trimLeftRunes_skip (r s : string) :
  trimLeftRunes runes (String.length r) (r ++ s) = trimLeftRunes runes 0 s.
Proof.
  induction r as [|c r IH]; simpl.
  - destruct s; reflexivity.
  - exact IH.
Qed.

Lemma trimLeftRunes_none (s : string) :
  List.find (HasPrefix s) runes = None -> trimLeftRunes runes 0 s = s.
Proof.
  intros H. destruct s as [|c s]; [reflexivity|].
  simpl. unfold spacePrefixLen. rewrite H. reflexivity.
Qed.

Lemma trimLeftRunes_some (s r : string) :
  List.find (HasPrefix s) runes = Some r ->
  exists t, s = r ++ t /\ trimLeftRunes runes 0 s = trimLeftRunes runes 0 t /\
            (String.length t < String.length s)%nat.
Proof.
  intros H. destruct (find_some _ _ H) as [Hin Hpre].
  apply HasPrefix_spec in Hpre as [t ->]. exists t.
  pose proof (runes_nonempty r Hin) as Hne.
  destruct r as [|c r]; [congruence|].
  split; [reflexivity|]. split.
  - cbn [String.append trimLeftRunes]. unfold spacePrefixLen.
    change (String c (r ++ t)) with (String c r ++ t). rewrite H.
    cbn [String.length]. apply trimLeftRunes_skip.
  - rewrite length_append. simpl. lia.
Qed.

(** What is left starts with no rune. *)
Lemma trimLeftRunes_done (s : string) :
  List.find (HasPrefix (trimLeftRunes runes 0 s)) runes = None \/
  trimLeftRunes runes 0 s = "".
Proof.
  remember (String.length s) as n eqn:Hn. revert s Hn.
  induction n as [n IH] using lt_wf_ind. intros s Hn.
  destruct (List.find (HasPrefix s) runes) as [r|] eqn:Hf.
  - destruct (trimLeftRunes_some s r Hf) as [t [_ [-> Hlt]]].
    apply (IH (String.length t)); [lia | reflexivity].
  - rewrite (trimLeftRunes_none s Hf). left. exact Hf.
Qed.

Lemma trimLeftRunes_empty_RunesOnly (s : string) :
  trimLeftRunes runes 0 s = "" -> RunesOnly runes s.
Proof.
  remember (String.length s) as n eqn:Hn. revert s Hn.
  induction n as [n IH] using lt_wf_ind. intros s Hn Ht.
  destruct (List.find (HasPrefix s) runes) as [r|] eqn:Hf.
  - destruct (trimLeftRunes_some s r Hf) as [t [-> [Heq Hlt]]].
    constructor.
    + apply (find_some _ _ Hf).
    + apply (IH (String.length t)); [lia | reflexivity | congruence].
  - rewrite (trimLeftRunes_none s Hf) in Ht. subst s. constructor.
Qed.

(** No rune is a proper prefix of another. *)
Hypothesis runes_prefix_free :
  forall r r', In r runes -> In r' runes -> HasPrefix r r' = true -> r = r'.

Lemma prefixes_comparable (a b s : string) :
  HasPrefix s a = true -> HasPrefix s b = true ->
  HasPrefix a b = true \/ HasPrefix b a = true.
Proof.
  revert b s. induction a as [|x a IH]; intros b s Ha Hb.
  - right. reflexivity.
  - destruct b as [|y b]; [left; reflexivity|].
    destruct s as [|z s]; [discriminate|]. simpl in *.
    apply andb_true_iff in Ha as [Hx Ha], Hb as [Hy Hb].
    apply Ascii.eqb_eq in Hx, Hy. subst x y.
    rewrite Ascii.eqb_refl. simpl. eapply IH; eassumption.
Qed.

Lemma RunesOnly_trimLeftRunes_empty (s : string) :
  RunesOnly runes s -> trimLeftRunes runes 0 s = "".
Proof.
  induction 1 as [|r s Hin Hs IH]; [reflexivity|].
  destruct (List.find (HasPrefix (r ++ s)) runes) as [r'|] eqn:Hf.
  - destruct (find_some _ _ Hf) as [Hin' Hpre'].
    assert (Hpre : HasPrefix (r ++ s) r = true)
      by (apply HasPrefix_spec; eauto).
    assert (r' = r) as ->.
    { destruct (prefixes_comparable _ _ _ Hpre Hpre'); [symmetry|]; eauto. }
    destruct (trimLeftRunes_some _ _ Hf) as [t [Heq [-> _]]].
    assert (s = t) as <-.
    { clear -Heq. induction r as [|c r IHr]; simpl in Heq; [exact Heq|].
      injection Heq as Heq. auto. }
    exact IH.
  - exfalso. pose proof (find_none _ _ Hf r Hin) as Hno.
    assert (HasPrefix (r ++ s) r = true) by (apply HasPrefix_spec; eauto).
    congruence.
Qed.

End Trim.

End StringFacts.

Section TrimSpaceFacts.
Import GoStrings.

Lemma forallb_nonempty (runes : list string) :
  forallb (fun r => negb (String.eqb r "")) runes = true ->
  forall r, In r runes -> r <> "".
Proof.
  intros H r Hin ->. rewrite forallb_forall in H.
  specialize (H "" Hin). discriminate.
Qed.

Lemma forallb_prefix_free (runes : list string) :
  forallb (fun r => forallb (fun r' => implb (HasPrefix r r') (String.eqb r r')) runes)
    runes = true ->
  forall r r', In r runes -> In r' runes -> HasPrefix r r' = true -> r = r'.
Proof.
  intros H r r' Hr Hr' Hp. rewrite forallb_forall in H.
  specialize (H r Hr). rewrite forallb_forall in H. specialize (H r' Hr').
  rewrite Hp in H. apply String.eqb_eq. exact H.
Qed.

Lemma spaceRunes_nonempty : forall r, In r spaceRunes -> r <> "".
Proof. apply forallb_nonempty. vm_compute. reflexivity. Qed.

Lemma spaceRunes_prefix_free :
  forall r r', In r spaceRunes -> In r' spaceRunes -> HasPrefix r r' = true -> r = r'.
Proof. apply forallb_prefix_free. vm_compute. reflexivity. Qed.

Lemma revRunes_nonempty : forall r, In r (map String.rev spaceRunes) -> r <> "".
Proof. apply forallb_nonempty. vm_compute. reflexivity. Qed.

(** A non-empty string made of reversed runes ends, read backwards, with
    a rune. *)
Lemma RunesOnly_rev_prefix (runes : list string) (u : string) :
  RunesOnly (map String.rev runes) u -> u <> "" ->
  exists r, In r runes /\ HasPrefix (String.rev u) r = true.
Proof.
  induction 1 as [|r' v Hin Hv IH]; [congruence|]. intros _.
  apply in_map_iff in Hin as [r [<- Hin]].
  rewrite rev_append, rev_involutive.
  destruct v as [|c v].
  - exists r. split; [exact Hin|]. apply HasPrefix_refl.
  - destruct IH as [r0 [Hin0 Hp0]]; [discriminate|].
    exists r0. split; [exact Hin0|].
    apply HasPrefix_spec in Hp0 as [t Ht]. apply HasPrefix_spec.
    exists (t ++ r). rewrite Ht. apply append_assoc.
Qed.

(** [TrimSpace] leaves nothing exactly of the strings of whitespace. *)
Lemma TrimSpace_empty_iff (s : string) :
  TrimSpace s = "" <-> WhitespaceOnly s.
Proof.
  unfold TrimSpace, WhitespaceOnly. split.
  - intros H. apply rev_empty in H.
    apply (trimLeftRunes_empty_RunesOnly _ revRunes_nonempty) in H.
    apply (trimLeftRunes_empty_RunesOnly _ spaceRunes_nonempty).
    destruct (trimLeftRunes_done spaceRunes spaceRunes_nonempty s) as [Hnone|Hdone];
      [|exact Hdone].
    destruct (String.rev (trimLeftRunes spaceRunes 0 s)) as [|c u] eqn:Hrev.
    + apply rev_empty in Hrev. exact Hrev.
    + exfalso. apply RunesOnly_rev_prefix in H as [r [Hin Hp]]; [|discriminate].
      rewrite <- Hrev, rev_involutive in Hp.
      pose proof (find_none _ _ Hnone r Hin). congruence.
  - intros H.
    rewrite (RunesOnly_trimLeftRunes_empty _ spaceRunes_nonempty
               spaceRunes_prefix_free s H).
    reflexivity.
Qed.

End TrimSpaceFacts.

(** ** Name validation *)

Section NameValidation.
Import GoStrings Mirror.

(** C9.  Name validation rejects a candidate name if and only if the name
    is empty or made of whitespace only, or contains [..], [/] or [\];
    every other name is accepted. *)
Theorem isValidFilename_rejects_iff (filename : string) :
  isValidFilename filename = false <->
  filename = "" \/ WhitespaceOnly filename \/
  (exists a b, filename = a ++ ".." ++ b) \/
  (exists a b, filename = a ++ "/" ++ b) \/
  (exists a b, filename = a ++ "\" ++ b).
Proof.
  unfold isValidFilename.
  rewrite <- TrimSpace_empty_iff, <- !Contains_spec.
  destruct (String.eqb_spec filename "") as [->|Hne]; simpl.
  { split; [left; reflexivity | reflexivity]. }
  destruct (String.eqb_spec (TrimSpace filename) "") as [Ht|Ht]; simpl.
  { split; [right; left; exact Ht | reflexivity]. }
  destruct (Contains filename "..") eqn:H1; simpl.
  { split; [intros _; right; right; left; reflexivity | reflexivity]. }
  destruct (Contains filename "/") eqn:H2; simpl.
  { split; [intros _; right; right; right; left; reflexivity | reflexivity]. }
  destruct (Contains filename "\") eqn:H3; simpl.
  { split; [intros _; do 4 right; reflexivity | reflexivity]. }
  split; [discriminate|].
  intros [?|[?|[?|[?|?]]]]; congruence.
Qed.

Example isValidFilename_examples :
  map isValidFilename
    ["file.txt"; "dir"; "."; "a b"; ""; "   "; ".."; "a..b"; "a/b"; "a\b"]
  = [true; true; true; true; false; false; false; false; false; false].
Proof. reflexivity. Qed.

End NameValidation.

(** ** Link extraction *)

Section LinkExtraction.
Import GoStrings HTTP Mirror Spec.

(** The four tests of the loop are the four rules. *)
Lemma keepLink_survives (links : list string) (link : string) :
  keepLink links link = if survives link then (links ++ [link])%list else links.
Proof.
  unfold keepLink, survives, absoluteOrSelf, parentTraversal, nonContent, blank.
  cbn [existsb].
  destruct (HasPrefix link "http://"); [reflexivity|].
  destruct (HasPrefix link "https://"); [reflexivity|].
  destruct (HasPrefix link "mailto:"); [rewrite ?orb_true_r; reflexivity|].
  destruct (HasPrefix link "ftp://"); [reflexivity|].
  destruct (HasPrefix link "javascript:"); [reflexivity|].
  destruct (HasPrefix link "data:"); [reflexivity|].
  destruct (HasPrefix link "vbscript:"); [reflexivity|].
  destruct (HasPrefix link "#"); [reflexivity|].
  destruct (String.eqb link "/"); [reflexivity|].
  destruct (String.eqb link "./"); [reflexivity|].
  cbn [orb].
  destruct (Contains link "..") eqn:Hdd; [reflexivity|].
  assert (HasPrefix link "../" = false) as ->.
  { destruct (HasPrefix link "../") eqn:E; [|reflexivity].
    rewrite (HasPrefix_Contains link "../" ".." E) in Hdd by reflexivity. discriminate. }
  assert (Contains link "/.." = false) as ->.
  { destruct (Contains link "/..") eqn:E; [|reflexivity].
    apply Contains_spec in E as [a [b ->]].
    assert (Contains (a ++ "/.." ++ b) ".." = true) as H; [|congruence].
    apply Contains_spec. exists (a ++ "/"), b. rewrite append_assoc. reflexivity. }
  assert (HasSuffix link "/.." = false) as ->.
  { destruct (HasSuffix link "/..") eqn:E; [|reflexivity].
    rewrite (HasSuffix_Contains link "/.." ".." E) in Hdd by reflexivity. discriminate. }
  assert (String.eqb link ".." = false) as ->.
  { destruct (String.eqb_spec link ".."); [subst; discriminate | reflexivity]. }
  cbn [orb].
  destruct (Contains (ToLower link) "parent" || Contains (ToLower link) "back" ||
            Contains link "?" || Contains link "&"); [reflexivity|].
  cbn [orb].
  destruct (String.eqb link "" || String.eqb (TrimSpace link) ""); reflexivity.
Qed.

Lemma fold_keepLink (candidates acc : list string) :
  fold_left keepLink candidates acc = (acc ++ List.filter survives candidates)%list.
Proof.
  revert acc. induction candidates as [|link l IH]; intros acc; simpl.
  - symmetry. apply app_nil_r.
  - rewrite IH, keepLink_survives.
    destruct (survives link); [|reflexivity].
    rewrite <- app_assoc. reflexivity.
Qed.

End LinkExtraction.

(** ** Change detection *)

Section ChangeDetection.
Import GoStrings OS HTTP.

(** C3 (amended).  [NeedsUpdate] returns true when the local file is
    absent; otherwise it returns true when the remote last-modified time
    is set and strictly after the local modification time; otherwise it
    returns true when the remote size is positive and differs from the
    local size; otherwise it returns false.  A remote size of [0] is not
    compared.  A stat failure other than not-found yields an error. *)
Theorem NeedsUpdate_decides (fs : FS) (localPath : string) (remoteInfo : FileInfo.t) :
  match Stat fs localPath with
  | StatNotExist => NeedsUpdate fs localPath remoteInfo = inr true
  | StatError => exists e, NeedsUpdate fs localPath remoteInfo = inl e
  | StatOK stat =>
      exists b, NeedsUpdate fs localPath remoteInfo = inr b /\
        (b = true <->
         (FileInfo.LastModified remoteInfo <> 0 /\
          ModTime stat < FileInfo.LastModified remoteInfo) \/
         (0 < FileInfo.Size remoteInfo /\ Size stat <> FileInfo.Size remoteInfo))
  end.
Proof.
  unfold NeedsUpdate, IsZero.
  destruct (Stat fs localPath) as [stat| |]; [|reflexivity|eauto].
  destruct (Z.eqb_spec (FileInfo.LastModified remoteInfo) 0) as [Hz|Hz];
    destruct (Z.ltb_spec (ModTime stat) (FileInfo.LastModified remoteInfo)) as [Hlt|Hlt];
    destruct (Z.ltb_spec 0 (FileInfo.Size remoteInfo)) as [Hs|Hs];
    destruct (Z.eqb_spec (Size stat) (FileInfo.Size remoteInfo)) as [He|He];
    simpl; eexists; (split; [reflexivity|]);
    split; try discriminate; try tauto; try lia; intros _; auto.
Qed.

(** C3 as stated fails: the remote reports size [0] and is not newer,
    the local file has five bytes, and [NeedsUpdate] returns false. *)
Lemma NeedsUpdate_size_zero_not_compared :
  let fs : FS :=
    <["/data/t/f.txt" := Regular "hello" 100]>
      (<["/data/t" := Directory 10]> (<["/data" := Directory 10]> ∅)) in
  let remoteInfo :=
    {| FileInfo.URL := "http://h/f.txt"; FileInfo.LastModified := 50;
       FileInfo.Size := 0; FileInfo.ETag := ""; FileInfo.ContentType := "text/plain" |} in
  Stat fs "/data/t/f.txt" = StatOK {| Size := 5; ModTime := 100; IsDir := false |} /\
  FileInfo.Size remoteInfo <> 5 /\
  NeedsUpdate fs "/data/t/f.txt" remoteInfo = inr false.
Proof. vm_compute. repeat split; congruence. Qed.

End ChangeDetection.

(** ** The default file name *)


(** ** The local filesystem *)

Section FilesystemFacts.
Import GoStrings Filepath OS Spec.

Lemma Mkdir_adds_dir (now : Z) (fs fs' : FS) (path : string) :
  Mkdir now fs path = Some fs' ->
  forall p n, fs' !! p = Some n -> fs !! p = Some n \/ isDirectory n.
Proof.
  unfold Mkdir. destruct (Stat fs path); try discriminate.
  destruct (_ && _); [|discriminate]. intros [= <-] p n.
  destruct (decide (path = p)) as [->|Hne].
  - rewrite lookup_insert_eq. intros [= <-]. right. eexists. reflexivity.
  - rewrite lookup_insert_ne by exact Hne. auto.
Qed.

(** [os.MkdirAll] adds directories and nothing else. *)
Lemma MkdirAllFrom_adds_dirs (fuel : nat) (now : Z) :
  forall (fs fs' : FS) (path : string),
    MkdirAllFrom fuel now fs path = Some fs' ->
    forall p n, fs' !! p = Some n -> fs !! p = Some n \/ isDirectory n.
Proof.
  induction fuel as [|fuel IH]; intros fs fs' path; simpl.
  - destruct (Stat fs path) as [fi| |]; try discriminate.
    destruct (IsDir fi); [|discriminate]. intros [= <-]. auto.
  - assert (Hslow :
      match (if String.eqb (parentOf path) "" then Some fs
             else MkdirAllFrom fuel now fs (parentOf path)) with
      | Some fs1 =>
          match Mkdir now fs1 path with
          | Some fs2 => Some fs2
          | None => match Stat fs1 path with
                    | StatOK fi => if IsDir fi then Some fs1 else None
                    | _ => None
                    end
          end
      | None => None
      end = Some fs' ->
      forall p n, fs' !! p = Some n -> fs !! p = Some n \/ isDirectory n).
    { destruct (String.eqb (parentOf path) "").
      - destruct (Mkdir now fs path) as [fs2|] eqn:Hm.
        + intros [= <-]. eapply Mkdir_adds_dir; eassumption.
        + destruct (Stat fs path) as [fi| |]; try discriminate.
          destruct (IsDir fi); [|discriminate]. intros [= <-]. auto.
      - destruct (MkdirAllFrom fuel now fs (parentOf path)) as [fs1|] eqn:Hp;
          [|discriminate].
        destruct (Mkdir now fs1 path) as [fs2|] eqn:Hm.
        + intros [= <-] p n Hl.
          destruct (Mkdir_adds_dir _ _ _ _ Hm p n Hl) as [H1|H1]; [|auto].
          eapply IH; eassumption.
        + destruct (Stat fs1 path) as [fi| |]; try discriminate.
          destruct (IsDir fi); [|discriminate]. intros [= <-].
          eapply IH; eassumption. }
    destruct (Stat fs path) as [fi| |]; [|exact Hslow|exact Hslow].
    destruct (IsDir fi); [|discriminate]. intros [= <-]. auto.
Qed.

End FilesystemFacts.

(** ** A target with depth zero *)

Section ZeroDepth.
Import GoStrings Filepath OS Config HTTP Mirror Spec.

Lemma applyDefaults_MaxDepth (t : Target.t) (d : Defaults.t) :
  Defaults.MaxDepth d <> 0 -> Target.MaxDepth (applyDefaults t d) <> 0.
Proof.
  unfold applyDefaults. simpl.
  destruct (Z.eqb_spec (Target.MaxDepth t) 0); auto.
Qed.

(** C10 (amended).  For a target whose MaxDepth is [0] when it is passed
    to [MirrorTarget], the walk returns at once without an error: no
    request is sent, not even for the root, no file is written, and what
    the run leaves is the target directory.  Configuration loading
    overwrites a zero MaxDepth of a target by the MaxDepth of the loaded
    defaults, so that the state is reached through it only when the
    configuration file sets the defaults' [maxDepth] to [0]; without a
    configuration file the default is [5]. *)
Theorem zero_depth_target :
  (forall (fuel : nat) (w : World) (cfg : Config) (target : Target.t) (m : Machine),
      Target.MaxDepth target = 0 ->
      let targetDir := Join [MirrorSection.DataPath (Mirror cfg); Target.Name target] in
      (forall st, mirrorURL (S fuel) w target (Target.URL target) targetDir 0 st
                  = Some (None, st)) /\
      forall fs', MkdirAll (clock m) (fs m) targetDir = Some fs' ->
        exists st,
          MirrorTarget (S fuel) w cfg target m = Some (None, st) /\
          fs (mach st) = fs' /\
          trace (mach st) = EvMkdirAll targetDir :: trace m /\
          clock (mach st) = clock m /\
          FilesDownloaded (stats st) = 0 /\ FilesSkipped (stats st) = 0 /\
          BytesDownloaded (stats st) = 0 /\ Errors (stats st) = 0 /\
          forall p n, fs' !! p = Some n -> fs m !! p = Some n \/ isDirectory n) /\
  (forall env readConfig cfg t,
      LoadConfig env readConfig = Some cfg ->
      In t (Targets cfg) ->
      Defaults.MaxDepth (Defaults_ cfg) <> 0 ->
      Target.MaxDepth t <> 0) /\
  (forall env readConfig cfg,
      env "CONFIG_FILE" = "" ->
      LoadConfig env readConfig = Some cfg ->
      Defaults.MaxDepth (Defaults_ cfg) = 5).
Proof.
  split; [|split].
  - intros fuel w cfg target m Hz targetDir.
    assert (Hwalk : forall st,
               mirrorURL (S fuel) w target (Target.URL target) targetDir 0 st
               = Some (None, st)).
    { intros st. simpl. unfold mirrorURLBody, depthReached. rewrite Hz. reflexivity. }
    split; [exact Hwalk|].
    intros fs' Hmk. unfold MirrorTarget. fold targetDir.
    cbn [emit fs clock trace]. rewrite Hmk, Hwalk.
    eexists. split; [reflexivity|]. cbn. repeat split.
    intros p n. unfold MkdirAll in Hmk. eapply MkdirAllFrom_adds_dirs. exact Hmk.
  - intros env readConfig cfg t Hload Hin Hd.
    unfold LoadConfig in Hload.
    destruct (if String.eqb (env "CONFIG_FILE") "" then _ else _) as [c|];
      [|discriminate].
    injection Hload as <-. cbn in Hin, Hd.
    apply in_map_iff in Hin as [t0 [<- _]].
    apply applyDefaults_MaxDepth. exact Hd.
  - intros env readConfig cfg Henv Hload.
    unfold LoadConfig in Hload. rewrite Henv in Hload. cbn in Hload.
    injection Hload as <-. unfold loadFromEnv.
    destruct (String.eqb (env "MIRROR_URL") ""); reflexivity.
Qed.

Lemma zero_depth_target_witness :
  (exists st,
      MirrorTarget 1 (Scenario.world Scenario.chain None) Scenario.config
        (Scenario.target "http://h/" 0 true) (Scenario.boot 5000) = Some (None, st) /\
      trace (mach st) = [EvMkdirAll "/data/t"] /\
      Errors (stats st) = 0) /\
  match LoadConfig (fun key => if String.eqb key "MIRROR_URL" then "http://h/" else "")
          (fun _ => None) with
  | Some cfg => forall t, In t (Targets cfg) -> Target.MaxDepth t <> 0
  | None => False
  end.
Proof.
  destruct zero_depth_target as (Hrun & Hcfg & Hdef).
  split.
  - destruct (Hrun 0%nat (Scenario.world Scenario.chain None) Scenario.config
                (Scenario.target "http://h/" 0 true) (Scenario.boot 5000) eq_refl)
      as [_ Hmt].
    destruct (MkdirAll (clock (Scenario.boot 5000)) (fs (Scenario.boot 5000))
                (Join [MirrorSection.DataPath (Mirror Scenario.config);
                       Target.Name (Scenario.target "http://h/" 0 true)]))
      as [fs1|] eqn:Hmk; [|vm_compute in Hmk; discriminate].
    destruct (Hmt fs1 eq_refl) as (st & Hst & _ & Htr & _ & _ & _ & _ & He & _).
    exists st. split; [exact Hst|]. split; [exact Htr | exact He].
  - destruct (LoadConfig _ _) as [cfg|] eqn:E; [|vm_compute in E; discriminate].
    intros t Hin. apply (Hcfg _ _ cfg t E Hin).
    rewrite (Hdef _ _ cfg eq_refl E). lia.
Defined.

(** C10 as stated fails in its remark on configuration loading: a
    configuration file that sets the [maxDepth] of the defaults to [0]
    yields a target whose MaxDepth is [0]. *)
Lemma config_file_reaches_zero_depth :
  option_map (fun cfg => map Target.MaxDepth (Targets cfg))
    (LoadConfig (Scenario.envWithConfigFile "config.json")
       (fun _ => Some Scenario.zeroDepthFile))
  = Some [0].
Proof. vm_compute. reflexivity. Qed.

End ZeroDepth.

(** ** Security rejections *)

Section SecurityRejections.
Import GoStrings Filepath OS Config HTTP Mirror.

(** C7 (amended).  Every security rejection during the walk is
    non-fatal: the link is skipped and the loop goes on with the next
    link.  A failed path-containment check increments the error counter
    of the run; a failed name validation of a subdirectory or file name is
    logged and leaves the error counter as it is.  Neither writes to the
    disk. *)
Theorem security_rejection_skips (w : World) (target : Target.t)
    (recurse : string -> string -> Z -> State -> Outcome)
    (currentURL localDir : string) (depth : Z) (link absoluteURL : string)
    (st : State) :
  resolveReference w currentURL link = Some absoluteURL ->
  Contains link ".." = false ->
  Contains link "Parent Directory" = false ->
  let name := if HasSuffix link "/" then TrimSuffix link "/" else Base link in
  (isValidFilename name = false \/
   HasPrefix (Join [localDir; name]) localDir = false) ->
  exists st',
    processLink w target recurse currentURL localDir depth link st = Some st' /\
    (forall rest,
        processLinks w target recurse currentURL localDir depth (link :: rest) st =
        processLinks w target recurse currentURL localDir depth rest st') /\
    fs (mach st') = fs (mach st) /\
    (exists msg, trace (mach st') = EvWarn msg None :: trace (mach st)) /\
    Errors (stats st') =
      if isValidFilename name then wrap64 (Errors (stats st) + 1)
      else Errors (stats st).
Proof.
  intros Hres Hdd Hpd name Hrej.
  assert (Hstep : forall st',
             processLink w target recurse currentURL localDir depth link st = Some st' ->
             forall rest,
               processLinks w target recurse currentURL localDir depth (link :: rest) st =
               processLinks w target recurse currentURL localDir depth rest st').
  { intros st' H rest. simpl. rewrite H. reflexivity. }
  unfold processLink in *. rewrite Hres, Hdd, Hpd in *. cbn [orb] in *.
  subst name. destruct (HasSuffix link "/").
  - destruct (isValidFilename (TrimSuffix link "/")) eqn:Hv; cbn [negb] in *.
    + destruct Hrej as [Hrej|Hrej]; [discriminate|]. rewrite Hrej in *. cbn [negb] in *.
      eexists. split; [reflexivity|]. split; [apply Hstep; reflexivity|].
      cbn. eauto.
    + eexists. split; [reflexivity|]. split; [apply Hstep; reflexivity|].
      cbn. eauto.
  - destruct (isValidFilename (Base link)) eqn:Hv; cbn [negb] in *.
    + destruct Hrej as [Hrej|Hrej]; [discriminate|]. rewrite Hrej in *. cbn [negb] in *.
      eexists. split; [reflexivity|]. split; [apply Hstep; reflexivity|].
      cbn. eauto.
    + eexists. split; [reflexivity|]. split; [apply Hstep; reflexivity|].
      cbn. eauto.
Qed.

Lemma security_rejection_skips_witness :
  let w := Scenario.world Scenario.rejectedName None in
  let t := Scenario.target "http://h/" 5 false in
  let st := {| mach := Scenario.boot 0; stats := mkStats 0 0 0 "t" 0 0 0 0 |} in
  exists st',
    processLink w t (mirrorURL 1 w t) "http://h/" "/data/t" 0 "a\b.txt" st = Some st' /\
    fs (mach st') = fs (mach st) /\
    Errors (stats st') = 0.
Proof.
  intros w t st.
  destruct (security_rejection_skips w t (mirrorURL 1 w t) "http://h/" "/data/t" 0
              "a\b.txt" "http://h/a\b.txt" st eq_refl eq_refl eq_refl
              (or_introl eq_refl))
    as (st' & H1 & _ & H2 & _ & H3).
  exists st'. split; [exact H1|]. split; [exact H2 | exact H3].
Defined.

(** C7 as stated fails: the name [a\b.txt] fails name validation; the
    link is skipped with a warning and the error counter of the run is
    [0] at its end. *)
Lemma rejected_name_not_counted :
  isValidFilename (Base "a\b.txt") = false /\
  Scenario.observe
    (MirrorTarget 3 (Scenario.world Scenario.rejectedName None) Scenario.config
       (Scenario.target "http://h/" 5 false) (Scenario.boot 5000))
  = Some (None, (1, 0, 4, 0),
          [EvMkdirAll "/data/t"; EvRequest "GET" "http://h/";
           EvWarn "Skipping invalid filename" None;
           EvDownload ForLink "http://h/good.txt" "/data/t/good.txt";
           EvRequest "GET" "http://h/good.txt"],
          [("/data/t/good.txt", Regular "good" 1000);
           ("/data/t", Directory 5000); ("/data", Directory 5000)]).
Proof. vm_compute. split; reflexivity. Qed.

End SecurityRejections.

(** ** The depth limit *)

Section DepthLimit.
Import GoStrings Filepath OS Config HTTP Mirror.

Lemma depthReached_iff (target : Target.t) (depth : Z) :
  depthReached target depth = true <->
  0 <= Target.MaxDepth target /\ Target.MaxDepth target <= depth.
Proof. unfold depthReached. rewrite andb_true_iff, !Z.leb_le. reflexivity. Qed.

(** C6.  Every target with max depth 2 that crawls the chain root,
    level1, level2, level3, file creates the local directories [level1]
    and [level2], and creates neither the directory [level3] nor the file
    under it.  Reaching the depth bound stops the recursion silently: the
    call returns no error and leaves the state, the error counter with it,
    as it is.  With a max depth of [-1] the depth bound never stops the
    recursion. *)
Theorem depth_limit :
  (forall (userAgent rateLimit : string) (retries timeout wait : Z)
          (timestamping noClobber continueDownload checkChanges : bool)
          (now : Z) (fuel : nat),
      let target :=
        {| Target.Name := "t"; Target.URL := "http://h/";
           Target.UserAgent := userAgent; Target.RateLimit := rateLimit;
           Target.Retries := retries; Target.MaxDepth := 2;
           Target.Timeout := timeout; Target.WaitBetweenRequests := wait;
           Target.Timestamping := timestamping; Target.NoClobber := noClobber;
           Target.ContinueDownload := continueDownload;
           Target.CheckChanges := checkChanges |} in
      exists st,
        MirrorTarget (3 + fuel) (Scenario.world Scenario.chain None) Scenario.config
          target (Scenario.boot now) = Some (None, st) /\
        (exists t1, fs (mach st) !! "/data/t/level1" = Some (Directory t1)) /\
        (exists t2, fs (mach st) !! "/data/t/level1/level2" = Some (Directory t2)) /\
        fs (mach st) !! "/data/t/level1/level2/level3" = None /\
        fs (mach st) !! "/data/t/level1/level2/level3/deep.txt" = None /\
        Errors (stats st) = 0 /\
        FilesDownloaded (stats st) = 0) /\
  (forall (fuel : nat) (w : World) (target : Target.t) (currentURL localDir : string)
          (depth : Z) (st : State),
      0 <= Target.MaxDepth target -> Target.MaxDepth target <= depth ->
      mirrorURL (S fuel) w target currentURL localDir depth st = Some (None, st)) /\
  (forall (target : Target.t) (depth : Z),
      Target.MaxDepth target = -1 -> depthReached target depth = false).
Proof.
  split; [|split].
  - intros userAgent rateLimit retries timeout wait
      timestamping noClobber continueDownload checkChanges now fuel target.
    assert (Hrun : Scenario.chainOutcome
                     (MirrorTarget (3 + fuel) (Scenario.world Scenario.chain None)
                        Scenario.config target (Scenario.boot now)) = true).
    { subst target. destruct wait as [|p|p]; vm_compute; reflexivity. }
    destruct (MirrorTarget _ _ _ _ _) as [[[e|] st]|]; try discriminate.
    unfold Scenario.chainOutcome, Scenario.isDirectoryAt, Scenario.isAbsentAt in Hrun.
    exists st. split; [reflexivity|].
    destruct (fs (mach st) !! "/data/t/level1") as [[t1|]|]; try discriminate.
    destruct (fs (mach st) !! "/data/t/level1/level2") as [[t2|]|]; try discriminate.
    destruct (fs (mach st) !! "/data/t/level1/level2/level3"); try discriminate.
    destruct (fs (mach st) !! "/data/t/level1/level2/level3/deep.txt");
      try discriminate.
    cbn [andb] in Hrun. apply andb_true_iff in Hrun as [He Hd].
    apply Z.eqb_eq in He, Hd. eauto 10.
  - intros fuel w target currentURL localDir depth st H0 Hd.
    simpl. unfold mirrorURLBody.
    rewrite (proj2 (depthReached_iff target depth) (conj H0 Hd)). reflexivity.
  - intros target depth H. unfold depthReached. rewrite H. reflexivity.
Qed.

Lemma depth_limit_witness :
  (exists st,
      MirrorTarget 3 (Scenario.world Scenario.chain None) Scenario.config
        (Scenario.target "http://h/" 2 false) (Scenario.boot 5000) = Some (None, st) /\
      fs (mach st) !! "/data/t/level1/level2/level3" = None) /\
  (forall st,
      mirrorURL 1 (Scenario.world Scenario.chain None)
        (Scenario.target "http://h/" 2 false)
        "http://h/level1/level2/" "/data/t/level1/level2" 2 st = Some (None, st)) /\
  depthReached (Scenario.target "http://h/" (-1) false) 1000 = false.
Proof.
  destruct depth_limit as (Hchain & Hstop & Hunl).
  split; [|split].
  - destruct (Hchain "Test Agent" "" 0 5 0 false false false false 5000 0%nat)
      as (st & Hrun & _ & _ & H3 & _).
    exists st. split; [exact Hrun | exact H3].
  - intros st. apply Hstop; simpl; lia.
  - apply Hunl. reflexivity.
Defined.

End DepthLimit.

(** ** Cancellation *)

Section Cancellation.
Import GoStrings Filepath OS Config HTTP Mirror.

(** What a call of the walk does with a cancellation: a call that finds
    the context done when it checks it (the depth bound not having returned
    first) returns the cancellation error at once, and a call whose own
    request fails, as it does when the signal fires during it, returns an
    error that wraps the failure.  A call whose own request succeeded
    returns no error, whatever the calls one level down return: their
    errors, the cancellation error included, are logged by the parent
    level, which goes on with the next link. *)
Theorem cancellation_reported_by_the_call_that_sees_it
    (fuel : nat) (w : World) (target : Target.t)
    (currentURL localDir : string) (depth : Z) (st : State) :
  depthReached target depth = false ->
  (ctxDone w (mach st) = true ->
   mirrorURL (S fuel) w target currentURL localDir depth st = Some (Some ErrContext, st)) /\
  (ctxDone w (mach st) = false ->
   forall path err m,
     urlPath w currentURL = Some path ->
     fetchDirectoryListing w currentURL (mach (pace target depth st)) = (inl err, m) ->
     mirrorURL (S fuel) w target currentURL localDir depth st =
     Some (Some (ErrWrap "failed to fetch directory listing" err),
           incErrors (setMach (pace target depth st) m))) /\
  (ctxDone w (mach st) = false ->
   forall path resp m,
     urlPath w currentURL = Some path ->
     fetchDirectoryListing w currentURL (mach (pace target depth st)) = (inr resp, m) ->
     forall r st',
       mirrorURL (S fuel) w target currentURL localDir depth st = Some (r, st') ->
       r = None) /\
  (forall recurse link absoluteURL fs' err st'',
     resolveReference w currentURL link = Some absoluteURL ->
     Contains link ".." || Contains link "Parent Directory" = false ->
     HasSuffix link "/" = true ->
     isValidFilename (TrimSuffix link "/") = true ->
     HasPrefix (Join [localDir; TrimSuffix link "/"]) localDir = true ->
     MkdirAll (clock (mach st)) (fs (mach st)) (Join [localDir; TrimSuffix link "/"])
     = Some fs' ->
     recurse absoluteURL (Join [localDir; TrimSuffix link "/"]) (wrap64 (depth + 1))
       (setMach (note (EvMkdirAll (Join [localDir; TrimSuffix link "/"])) st)
          (setFS (mach (note (EvMkdirAll (Join [localDir; TrimSuffix link "/"])) st)) fs'))
     = Some (Some err, st'') ->
     processLink w target recurse currentURL localDir depth link st =
     Some (warn "Failed to mirror subdirectory" (Some err) st'')).
Proof.
  intros Hdepth. cbn [mirrorURL]. unfold mirrorURLBody. rewrite Hdepth.
  split; [|split; [|split]].
  - intros ->. reflexivity.
  - intros -> path err m -> ->. reflexivity.
  - intros -> path resp m -> -> r st'.
    unfold handleResponse.
    destruct (Contains _ "text/html").
    + destruct (parseDirectoryListing resp) as [[|l ls]|].
      * intros [= <- _]. reflexivity.
      * destruct (processLinks _ _ _ _ _ _ _ _); [|discriminate].
        intros [= <- _]. reflexivity.
      * intros [= <- _]. reflexivity.
    + intros [= <- _]. reflexivity.
  - intros recurse link absoluteURL fs' err st'' Hres Hskip Hdir Hvalid Hin Hmk Hrec.
    unfold processLink. rewrite Hres, Hskip, Hdir, Hvalid, Hin. cbn [negb].
    cbn [note setMach mach emit clock fs] in *. rewrite Hmk, Hrec. reflexivity.
Qed.

Lemma cancellation_witness :
  let w := Scenario.world Scenario.twoSubdirs (Some 5000) in
  let t := Scenario.target "http://h/" 5 false in
  let st := {| mach := Scenario.boot 5000; stats := mkStats 0 0 0 "t" 0 0 0 0 |} in
  mirrorURL 1 w t "http://h/" "/data/t" 0 st = Some (Some ErrContext, st).
Proof.
  intros w t st.
  apply (cancellation_reported_by_the_call_that_sees_it 0 w t "http://h/" "/data/t" 0 st
           eq_refl).
  reflexivity.
Defined.

(** C4.  The code does not unwind the walk.  A context that is done
    when the root call checks it, or whose deadline passes during the
    request of the root call, ends the run with the cancellation error,
    bare or wrapped.  But when the signal fires below the root, here while
    the listing of [a/] is requested, the call for [a/] returns an error
    that wraps the cancellation error and the call for [b/] returns the
    cancellation error itself, the root level logs both, and the run
    returns no error. *)
Theorem cancellation_below_the_root_is_swallowed :
  Scenario.observe
    (MirrorTarget 5 (Scenario.world Scenario.twoSubdirs (Some 5000)) Scenario.config
       (Scenario.target "http://h/" 5 false) (Scenario.boot 5000))
  = Some (Some ErrContext, (0, 0, 0, 0),
          [EvMkdirAll "/data/t"],
          [("/data/t", Directory 5000); ("/data", Directory 5000)]) /\
  Scenario.observe
    (MirrorTarget 5 (Scenario.world Scenario.twoSubdirs (Some 5001)) Scenario.config
       (Scenario.target "http://h/" 5 false) (Scenario.boot 5000))
  = Some (Some (ErrWrap "failed to fetch directory listing" (ErrWrap "GET" ErrContext)),
          (0, 0, 0, 1),
          [EvMkdirAll "/data/t"; EvRequest "GET" "http://h/"],
          [("/data/t", Directory 5000); ("/data", Directory 5000)]) /\
  Scenario.observe
    (MirrorTarget 5 (Scenario.world Scenario.twoSubdirs (Some 5002)) Scenario.config
       (Scenario.target "http://h/" 5 false) (Scenario.boot 5000))
  = Some (None, (0, 0, 0, 1),
          [EvMkdirAll "/data/t"; EvRequest "GET" "http://h/";
           EvMkdirAll "/data/t/a"; EvRequest "GET" "http://h/a/";
           EvWarn "Failed to mirror subdirectory"
             (Some (ErrWrap "failed to fetch directory listing"
                      (ErrWrap "GET" ErrContext)));
           EvMkdirAll "/data/t/b";
           EvWarn "Failed to mirror subdirectory" (Some ErrContext)],
          [("/data/t/a", Directory 5001); ("/data/t/b", Directory 5002);
           ("/data/t", Directory 5000); ("/data", Directory 5000)]).
Proof. vm_compute. repeat split. Qed.

End Cancellation.

(** ** The trace of a run *)

Section TraceFacts.
Import GoStrings Filepath OS Config HTTP Mirror Spec.

Lemma grows_refl (P : Event -> Prop) (m : Machine) : grows P m m.
Proof. exists nil. split; [reflexivity | constructor]. Qed.

Lemma grows_same (P : Event -> Prop) (m m' : Machine) :
  trace m' = trace m -> grows P m m'.
Proof. intros H. exists nil. split; [exact H | constructor]. Qed.

Lemma grows_trans (P : Event -> Prop) (m1 m2 m3 : Machine) :
  grows P m1 m2 -> grows P m2 m3 -> grows P m1 m3.
Proof.
  intros [n1 [H1 F1]] [n2 [H2 F2]]. exists (n2 ++ n1)%list. split.
  - rewrite H2, H1. apply app_assoc.
  - apply Forall_app. split; assumption.
Qed.

Lemma grows_weaken (P Q : Event -> Prop) (m m' : Machine) :
  (forall e, P e -> Q e) -> grows P m m' -> grows Q m m'.
Proof.
  intros HPQ [n [H F]]. exists n. split; [exact H|].
  eapply Forall_impl; eassumption.
Qed.

Lemma grows_emit (P : Event -> Prop) (e : Event) (m m' : Machine) :
  trace m' = e :: trace m -> P e -> grows P m m'.
Proof.
  intros H He. exists [e]. split; [exact H|]. constructor; [exact He | constructor].
Qed.

Lemma Do_grows (w : World) (method url : string) (m m' : Machine) r :
  Do w method url m = (r, m') -> grows quietEvent m m'.
Proof.
  unfold Do. destruct (ctxDone w m).
  - intros [= _ <-]. apply grows_refl.
  - assert (grows quietEvent m (advance 1 (emit (EvRequest method url) m)))
      by (eapply grows_emit; [reflexivity | exact I]).
    destruct (ctxDone w _); [intros [= _ <-]; assumption|].
    destruct (serve w method url); intros [= _ <-]; assumption.
Qed.

Lemma CheckFileInfo_grows (w : World) (url : string) (m m' : Machine) r :
  CheckFileInfo w url m = (r, m') -> grows quietEvent m m'.
Proof.
  unfold CheckFileInfo. destruct (urlPath w url).
  - destruct (Do w "HEAD" url m) as [[e|resp] m1] eqn:HDo;
      apply Do_grows in HDo.
    + intros [= _ <-]. exact HDo.
    + destruct (negb _); intros [= _ <-]; exact HDo.
  - intros [= _ <-]. apply grows_refl.
Qed.

Lemma transfer_grows (w : World) (config : Target.t) (url localPath : string)
    (m m' : Machine) r :
  transfer w config url localPath m = (r, m') -> grows quietEvent m m'.
Proof.
  unfold transfer.
  destruct (MkdirAll _ _ _) as [fs1|]; [|intros [= _ <-]; apply grows_refl].
  cbn [setFS fs clock trace].
  destruct (Create _ _ _) as [fs2|]; [|intros [= _ <-]; apply grows_same; reflexivity].
  destruct (urlPath w url); [|intros [= _ <-]; apply grows_same; reflexivity].
  destruct (Do w "GET" url _) as [[e|resp] m1] eqn:HDo; apply Do_grows in HDo.
  - intros [= _ <-]. exact HDo.
  - destruct (negb _); [intros [= _ <-]; exact HDo|].
    destruct (negb _); [intros [= _ <-]; exact HDo|].
    destruct (Response.BodyErr resp); [intros [= _ <-]; exact HDo|].
    destruct (Response.LastModified resp); intros [= _ <-]; exact HDo.
Qed.

Lemma DownloadFile_grows (w : World) (config : Target.t) (url localPath : string)
    (m m' : Machine) r :
  DownloadFile w config url localPath m = (r, m') -> grows quietEvent m m'.
Proof.
  unfold DownloadFile. destruct (Target.CheckChanges config);
    [|apply transfer_grows].
  destruct (CheckFileInfo w url m) as [[e|info] m1] eqn:HC;
    apply CheckFileInfo_grows in HC.
  - intros [= _ <-]. exact HC.
  - destruct (NeedsUpdate _ _ _) as [e|[|]].
    + intros [= _ <-]. exact HC.
    + intros Ht. apply transfer_grows in Ht. eapply grows_trans; eassumption.
    + intros [= _ <-]. exact HC.
Qed.

Lemma upToDate_grows (w : World) (target : Target.t) (url localPath : string)
    (m m' : Machine) b :
  upToDate w target url localPath m = (b, m') -> grows quietEvent m m'.
Proof.
  unfold upToDate. destruct (Target.CheckChanges target);
    [|intros [= _ <-]; apply grows_refl].
  destruct (CheckFileInfo w url m) as [[e|info] m1] eqn:HC;
    apply CheckFileInfo_grows in HC.
  - intros [= _ <-]. exact HC.
  - destruct (NeedsUpdate _ _ _); intros [= _ <-]; exact HC.
Qed.

Lemma downloadFile_grows (w : World) (target : Target.t) (url localPath : string)
    (st st' : State) r :
  downloadFile w target url localPath st = (r, st') ->
  grows quietEvent (mach st) (mach st').
Proof.
  unfold downloadFile.
  destruct (upToDate _ _ _ _ _) as [[|] m1] eqn:HU; apply upToDate_grows in HU.
  - intros [= _ <-]. exact HU.
  - destruct (DownloadFile _ _ _ _ _) as [[e|] m2] eqn:HD;
      apply DownloadFile_grows in HD.
    + intros [= _ <-]. eapply grows_trans; eassumption.
    + destruct (Stat _ _); intros [= _ <-]; eapply grows_trans; eassumption.
Qed.

Lemma downloadLogged_grows (P : Event -> Prop) (w : World) (target : Target.t)
    (o : Origin) (url localPath : string) (st : State) :
  (forall e, quietEvent e -> P e) ->
  P (EvDownload o url localPath) ->
  grows P (mach st) (mach (downloadLogged w target o url localPath st)).
Proof.
  intros Hq Hd. unfold downloadLogged.
  destruct (downloadFile _ _ _ _ _) as [[e|] st1] eqn:HD;
    apply downloadFile_grows in HD; apply (grows_weaken _ P _ _ Hq) in HD.
  - apply grows_trans with (mach (note (EvDownload o url localPath) st)).
    + eapply grows_emit; [reflexivity | exact Hd].
    + apply grows_trans with (mach st1); [exact HD|].
      eapply grows_emit; [reflexivity | apply Hq; exact I].
  - apply grows_trans with (mach (note (EvDownload o url localPath) st)).
    + eapply grows_emit; [reflexivity | exact Hd].
    + exact HD.
Qed.

Lemma quiet_writesInside (root : string) (e : Event) :
  quietEvent e -> writesInside root e.
Proof. destruct e; simpl; tauto. Qed.

Lemma writesInside_up (root dir : string) (e : Event) :
  HasPrefix dir root = true -> writesInside dir e -> writesInside root e.
Proof.
  intros Hp. destruct e as [| p | o u p |]; simpl; auto.
  - apply HasPrefix_trans. exact Hp.
  - destruct o; auto. apply HasPrefix_trans. exact Hp.
Qed.

End TraceFacts.

(** ** Path containment *)

Section Containment.
Import GoStrings Filepath OS Config HTTP Mirror Spec.

Variable w : World.
Variable target : Target.t.

Lemma pace_trace (depth : Z) (st : State) :
  trace (mach (pace target depth st)) = trace (mach st).
Proof. unfold pace. destruct (_ && _); reflexivity. Qed.

Lemma pace_fs (depth : Z) (st : State) :
  fs (mach (pace target depth st)) = fs (mach st).
Proof. unfold pace. destruct (_ && _); reflexivity. Qed.

Lemma pace_stats (depth : Z) (st : State) :
  stats (pace target depth st) = stats st.
Proof. unfold pace. destruct (_ && _); reflexivity. Qed.

Section Level.
Variable recurse : string -> string -> Z -> State -> Outcome.
Hypothesis recurse_grows :
  forall url dir depth st r st',
    recurse url dir depth st = Some (r, st') ->
    grows (writesInside dir) (mach st) (mach st').

Lemma processLink_grows (currentURL localDir : string) (depth : Z)
    (link : string) (st st' : State) :
  processLink w target recurse currentURL localDir depth link st = Some st' ->
  grows (writesInside localDir) (mach st) (mach st').
Proof.
  unfold processLink.
  destruct (resolveReference w currentURL link) as [absoluteURL|];
    [|intros [= <-]; apply grows_refl].
  destruct (_ || _); [intros [= <-]; apply grows_refl|].
  destruct (HasSuffix link "/").
  - destruct (negb (isValidFilename _)).
    { intros [= <-]. eapply grows_emit; [reflexivity | exact I]. }
    destruct (HasPrefix _ localDir) eqn:Hin; cbn [negb].
    2:{ intros [= <-]. eapply grows_emit; [reflexivity | exact I]. }
    cbn [note setMach mach emit clock fs].
    assert (Hmk : grows (writesInside localDir) (mach st)
                    (emit (EvMkdirAll (Join [localDir; TrimSuffix link "/"])) (mach st)))
      by (eapply grows_emit; [reflexivity | exact Hin]).
    destruct (MkdirAll _ _ _) as [fs'|]; [|intros [= <-]; exact Hmk].
    destruct (recurse _ _ _ _) as [[r st1]|] eqn:Hrec; [|discriminate].
    apply recurse_grows in Hrec.
    apply (grows_weaken _ (writesInside localDir)) in Hrec;
      [|intros e; apply writesInside_up; exact Hin].
    assert (Hst1 : grows (writesInside localDir) (mach st) (mach st1))
      by (eapply grows_trans; [exact Hmk | exact Hrec]).
    destruct r; intros [= <-]; [|exact Hst1].
    eapply grows_trans; [exact Hst1|]. eapply grows_emit; [reflexivity | exact I].
  - destruct (negb (isValidFilename _)).
    { intros [= <-]. eapply grows_emit; [reflexivity | exact I]. }
    destruct (HasPrefix _ localDir) eqn:Hin; cbn [negb].
    2:{ intros [= <-]. eapply grows_emit; [reflexivity | exact I]. }
    intros [= <-]. apply downloadLogged_grows.
    + apply quiet_writesInside.
    + exact Hin.
Qed.

Lemma processLinks_grows (currentURL localDir : string) (depth : Z)
    (links : list string) :
  forall st st',
    processLinks w target recurse currentURL localDir depth links st = Some st' ->
    grows (writesInside localDir) (mach st) (mach st').
Proof.
  induction links as [|link links IH]; intros st st'; simpl.
  - intros [= <-]. apply grows_refl.
  - destruct (processLink _ _ _ _ _ _ _ _) as [st1|] eqn:H1; [|discriminate].
    intros H2. eapply grows_trans.
    + eapply processLink_grows. exact H1.
    + apply IH. exact H2.
Qed.

Lemma handleResponse_grows (currentURL localDir : string) (depth : Z)
    (path : string) (resp : Response.t) (st st' : State) r :
  handleResponse w target recurse currentURL localDir depth path resp st
  = Some (r, st') ->
  grows (writesInside localDir) (mach st) (mach st').
Proof.
  unfold handleResponse. destruct (Contains _ "text/html").
  - destruct (parseDirectoryListing resp) as [[|l ls]|].
    + intros [= _ <-]. apply downloadLogged_grows;
        [apply quiet_writesInside | exact I].
    + destruct (processLinks _ _ _ _ _ _ _ _) as [st1|] eqn:H1; [|discriminate].
      intros [= _ <-]. eapply processLinks_grows. exact H1.
    + intros [= _ <-]. eapply grows_emit; [reflexivity | exact I].
  - intros [= _ <-]. apply downloadLogged_grows;
      [apply quiet_writesInside | exact I].
Qed.

Lemma mirrorURLBody_grows (currentURL localDir : string) (depth : Z)
    (st st' : State) r :
  mirrorURLBody w target recurse currentURL localDir depth st = Some (r, st') ->
  grows (writesInside localDir) (mach st) (mach st').
Proof.
  unfold mirrorURLBody.
  destruct (depthReached target depth); [intros [= _ <-]; apply grows_refl|].
  destruct (ctxDone w (mach st)); [intros [= _ <-]; apply grows_refl|].
  assert (Hp : grows (writesInside localDir) (mach st) (mach (pace target depth st)))
    by (apply grows_same, pace_trace).
  destruct (urlPath w currentURL) as [path|] eqn:Hpath; [|intros [= _ <-]; exact Hp].
  unfold fetchDirectoryListing. rewrite Hpath.
  destruct (Do w "GET" currentURL _) as [[e|resp] m] eqn:HDo;
    apply Do_grows in HDo;
    apply (grows_weaken _ (writesInside localDir) _ _
             (quiet_writesInside localDir)) in HDo.
  - intros [= _ <-]. eapply grows_trans; eassumption.
  - intros H. apply handleResponse_grows in H.
    eapply grows_trans; [exact Hp|]. eapply grows_trans; [exact HDo | exact H].
Qed.

End Level.

(** The crawler's filesystem operations for the links of a walk from
    [localDir] lie inside [localDir]. *)
Lemma mirrorURL_grows (fuel : nat) :
  forall currentURL localDir depth st r st',
    mirrorURL fuel w target currentURL localDir depth st = Some (r, st') ->
    grows (writesInside localDir) (mach st) (mach st').
Proof.
  induction fuel as [|fuel IH]; intros currentURL localDir depth st r st';
    [discriminate|].
  cbn [mirrorURL]. apply mirrorURLBody_grows. exact IH.
Qed.

End Containment.

Section ContainmentTheorem.
Import GoStrings Filepath OS Config HTTP Mirror Spec.

(** X1.  In every crawl run, the filesystem operations of the crawler
    for the links of the listings, the creation of the directory of a
    subdirectory link and the creation of the file of a file link, have
    targets inside the local root directory of the target.  A link whose
    local path would fall outside the root is skipped without a write, and
    the skip is not fatal: the loop goes on with the links that follow. *)
Theorem writes_stay_inside_root :
  (forall (fuel : nat) (w : World) (cfg : Config) (target : Target.t) (m : Machine)
          r st',
      MirrorTarget fuel w cfg target m = Some (r, st') ->
      grows (writesInside
               (Join [MirrorSection.DataPath (Mirror cfg); Target.Name target]))
        m (mach st')) /\
  (forall (w : World) (target : Target.t)
          (recurse : string -> string -> Z -> State -> Outcome)
          (currentURL localDir root : string) (depth : Z) (link : string) (st : State),
      HasPrefix localDir root = true ->
      HasPrefix (localPathOf localDir link) root = false ->
      exists st',
        processLink w target recurse currentURL localDir depth link st = Some st' /\
        (forall rest,
            processLinks w target recurse currentURL localDir depth (link :: rest) st =
            processLinks w target recurse currentURL localDir depth rest st') /\
        fs (mach st') = fs (mach st) /\
        grows quietEvent (mach st) (mach st')).
Proof.
  split.
  - intros fuel w cfg target m r st'. unfold MirrorTarget.
    set (targetDir := Join [MirrorSection.DataPath (Mirror cfg); Target.Name target]).
    cbn [emit fs clock trace].
    assert (Hmk : grows (writesInside targetDir) m (emit (EvMkdirAll targetDir) m)).
    { eapply grows_emit; [reflexivity|]. apply HasPrefix_refl. }
    destruct (MkdirAll _ _ _) as [fs'|]; [|intros [= _ <-]; exact Hmk].
    destruct (mirrorURL _ _ _ _ _ _ _) as [[e st]|] eqn:Hwalk; [|discriminate].
    intros [= _ <-]. cbn [mach].
    apply mirrorURL_grows in Hwalk. eapply grows_trans; [exact Hmk | exact Hwalk].
  - intros w target recurse currentURL localDir root depth link st Hroot Hout.
    assert (Hstep : forall st',
               processLink w target recurse currentURL localDir depth link st = Some st' ->
               forall rest,
                 processLinks w target recurse currentURL localDir depth (link :: rest) st =
                 processLinks w target recurse currentURL localDir depth rest st').
    { intros st' H rest. simpl. rewrite H. reflexivity. }
    assert (Hlocal : HasPrefix (localPathOf localDir link) localDir = false).
    { destruct (HasPrefix (localPathOf localDir link) localDir) eqn:E; [|reflexivity].
      rewrite (HasPrefix_trans _ _ _ Hroot E) in Hout. discriminate. }
    unfold localPathOf in Hlocal. unfold processLink in *.
    destruct (resolveReference w currentURL link) as [absoluteURL|].
    2:{ exists st. repeat split; [apply Hstep; reflexivity | apply grows_refl]. }
    destruct (_ || _).
    { exists st. repeat split; [apply Hstep; reflexivity | apply grows_refl]. }
    destruct (HasSuffix link "/").
    + destruct (negb (isValidFilename _)).
      * eexists. split; [reflexivity|]. split; [apply Hstep; reflexivity|].
        split; [reflexivity|]. eapply grows_emit; [reflexivity | exact I].
      * rewrite Hlocal in *. cbn [negb] in *.
        eexists. split; [reflexivity|]. split; [apply Hstep; reflexivity|].
        split; [reflexivity|]. eapply grows_emit; [reflexivity | exact I].
    + destruct (negb (isValidFilename _)).
      * eexists. split; [reflexivity|]. split; [apply Hstep; reflexivity|].
        split; [reflexivity|]. eapply grows_emit; [reflexivity | exact I].
      * rewrite Hlocal in *. cbn [negb] in *.
        eexists. split; [reflexivity|]. split; [apply Hstep; reflexivity|].
        split; [reflexivity|]. eapply grows_emit; [reflexivity | exact I].
Qed.

Lemma writes_stay_inside_root_witness :
  (exists r st,
      MirrorTarget 5 (Scenario.world Scenario.twoSubdirs None) Scenario.config
        (Scenario.target "http://h/" 5 false) (Scenario.boot 5000) = Some (r, st) /\
      grows (writesInside "/data/t") (Scenario.boot 5000) (mach st)) /\
  (let w := Scenario.world Scenario.twoSubdirs None in
   let t := Scenario.target "http://h/" 5 false in
   let st := {| mach := Scenario.boot 0; stats := mkStats 0 0 0 "t" 0 0 0 0 |} in
   exists st',
     processLink w t (mirrorURL 1 w t) "http://h/" "/data/t" 0 "../" st = Some st' /\
     fs (mach st') = fs (mach st)).
Proof.
  destruct writes_stay_inside_root as [Hrun Hskip]. split.
  - pose proof (Hrun 5%nat (Scenario.world Scenario.twoSubdirs None) Scenario.config
                  (Scenario.target "http://h/" 5 false) (Scenario.boot 5000)) as H.
    destruct (MirrorTarget 5 _ _ _ _) as [[r st]|] eqn:E;
      [|vm_compute in E; discriminate].
    exists r, st. split; [reflexivity|]. exact (H r st eq_refl).
  - intros w t st.
    destruct (Hskip w t (mirrorURL 1 w t) "http://h/" "/data/t" "/data/t" 0 "../" st
                eq_refl eq_refl) as (st' & H1 & _ & H2 & _).
    exists st'. split; [exact H1 | exact H2].
Defined.

End ContainmentTheorem.

(** ** A run over a mirror that is up to date *)

Section SettledRun.
Import GoStrings Filepath OS Config HTTP Mirror Spec.

Variable w : World.
Variable target : Target.t.
Variable F : FS.
Hypothesis never_done : deadline w = None.
Hypothesis check_changes : Target.CheckChanges target = true.

Lemma ctxDone_never (m : Machine) : ctxDone w m = false.
Proof. unfold ctxDone. rewrite never_done. reflexivity. Qed.

Lemma Do_fs (method url : string) (m m' : Machine) r :
  Do w method url m = (r, m') -> fs m' = fs m.
Proof.
  unfold Do. destruct (ctxDone w m); [intros [= _ <-]; reflexivity|].
  destruct (ctxDone w _); [intros [= _ <-]; reflexivity|].
  destruct (serve w method url); intros [= _ <-]; reflexivity.
Qed.

(** Without a deadline the probe gives what the server says. *)
Lemma CheckFileInfo_probe (url : string) (m m' : Machine) r :
  CheckFileInfo w url m = (r, m') ->
  fs m' = fs m /\
  (forall info, probe w url = Some info -> r = inr info) /\
  (probe w url = None -> exists e, r = inl e).
Proof.
  unfold CheckFileInfo, probe.
  destruct (urlPath w url).
  2:{ intros [= <- <-]. repeat split; [discriminate | eauto]. }
  unfold Do. rewrite !ctxDone_never.
  destruct (serve w "HEAD" url) as [resp|].
  - destruct (Response.StatusCode resp =? 200); cbn [negb];
      intros [= <- <-]; repeat split; try discriminate; try congruence; eauto.
  - intros [= <- <-]. repeat split; [discriminate | eauto].
Qed.

Lemma countSkipped_quiet (new : list Event) :
  Forall quietEvent new -> countSkipped w F new = 0%nat.
Proof.
  unfold countSkipped. induction 1 as [|e new He _ IH]; [reflexivity|].
  destruct e; simpl in *; try tauto; exact IH.
Qed.

Lemma countSkipped_app (a b : list Event) :
  countSkipped w F (a ++ b) = (countSkipped w F a + countSkipped w F b)%nat.
Proof. unfold countSkipped. rewrite List.filter_app, List.length_app. reflexivity. Qed.

Lemma bump_add (a b : nat) (x : Z) : bump (a + b) x = bump a (bump b x).
Proof. unfold bump. apply Nat.iter_add. Qed.

Lemma settled_quiet (e : Event) : quietEvent e -> settled w F e.
Proof. destruct e; simpl; tauto. Qed.

Lemma noop_refl (st : State) : noop w F st st.
Proof. exists nil. split; [reflexivity|]. intros _ H. auto. Qed.

Lemma noop_trans (st1 st2 st3 : State) :
  noop w F st1 st2 -> noop w F st2 st3 -> noop w F st1 st3.
Proof.
  intros [n1 [T1 H1]] [n2 [T2 H2]]. exists (n2 ++ n1)%list. split.
  - rewrite T2, T1. apply app_assoc.
  - intros Hs HF. apply Forall_app in Hs as [Hs2 Hs1].
    destruct (H1 Hs1 HF) as (F1 & D1 & B1 & S1).
    destruct (H2 Hs2 F1) as (F2 & D2 & B2 & S2).
    repeat split; try congruence.
    rewrite S2, S1, countSkipped_app, bump_add. reflexivity.
Qed.

(** A step that adds quiet events only and keeps the disk and the
    counters. *)
Lemma noop_quiet (st st' : State) :
  grows quietEvent (mach st) (mach st') ->
  fs (mach st') = fs (mach st) ->
  FilesDownloaded (stats st') = FilesDownloaded (stats st) ->
  BytesDownloaded (stats st') = BytesDownloaded (stats st) ->
  FilesSkipped (stats st') = FilesSkipped (stats st) ->
  noop w F st st'.
Proof.
  intros [new [T Q]] Hf Hd Hb Hs. exists new. split; [exact T|].
  intros _ HF. rewrite (countSkipped_quiet new Q). cbn.
  repeat split; congruence.
Qed.

(** The three ways [downloadFile] ends on a disk that is settled for the
    download: the file is skipped, or the download fails before anything
    is written. *)
Lemma downloadFile_settled (o : Origin) (url localPath : string) (st st' : State) r :
  downloadFile w target url localPath st = (r, st') ->
  fs (mach st) = F ->
  settled w F (EvDownload o url localPath) ->
  fs (mach st') = F /\
  FilesDownloaded (stats st') = FilesDownloaded (stats st) /\
  BytesDownloaded (stats st') = BytesDownloaded (stats st) /\
  FilesSkipped (stats st') =
    bump (countSkipped w F [EvDownload o url localPath]) (FilesSkipped (stats st)).
Proof.
  unfold downloadFile, upToDate, DownloadFile, settled, countSkipped.
  cbn [List.filter skipped]. rewrite check_changes.
  intros Hrun HF Hset.
  destruct (CheckFileInfo w url (mach st)) as [r1 m1] eqn:H1.
  apply CheckFileInfo_probe in H1 as (Hf1 & Hs1 & Hn1).
  assert (HF1 : fs m1 = F) by congruence.
  assert (Hsecond : forall r2 m2, CheckFileInfo w url m1 = (r2, m2) ->
            fs m2 = F /\
            (forall info, probe w url = Some info -> r2 = inr info) /\
            (probe w url = None -> exists e, r2 = inl e)).
  { intros r2 m2 H2. apply CheckFileInfo_probe in H2 as (Hf2 & Hs2 & Hn2).
    repeat split; [congruence | exact Hs2 | exact Hn2]. }
  destruct (probe w url) as [info|].
  - rewrite (Hs1 info eq_refl), HF1 in Hrun.
    destruct (NeedsUpdate F localPath info) as [e|[|]] eqn:HN.
    + cbn [negb] in Hrun.
      destruct (CheckFileInfo w url m1) as [r2 m2] eqn:H2.
      destruct (Hsecond r2 m2 eq_refl) as (HF2 & Hs2 & _).
      rewrite (Hs2 info eq_refl), HF2, HN in Hrun.
      injection Hrun as <- <-. cbn. repeat split; congruence.
    + congruence.
    + injection Hrun as <- <-. cbn. repeat split; congruence.
  - destruct (Hn1 eq_refl) as [e1 ->].
    destruct (CheckFileInfo w url m1) as [r2 m2] eqn:H2.
    destruct (Hsecond r2 m2 eq_refl) as (HF2 & _ & Hn2).
    destruct (Hn2 eq_refl) as [e2 ->].
    injection Hrun as <- <-. cbn. repeat split; congruence.
Qed.

Lemma downloadLogged_noop (o : Origin) (url localPath : string) (st : State) :
  noop w F st (downloadLogged w target o url localPath st).
Proof.
  unfold downloadLogged.
  destruct (downloadFile _ _ _ _ _) as [r st2] eqn:HD.
  destruct (downloadFile_grows _ _ _ _ _ _ _ HD) as [req [Treq Qreq]].
  cbn [note setMach mach emit trace] in Treq.
  assert (Hcond : forall quiet,
             Forall quietEvent quiet ->
             Forall (settled w F) (quiet ++ [EvDownload o url localPath]) ->
             fs (mach st) = F ->
             fs (mach st2) = F /\
             FilesDownloaded (stats st2) = FilesDownloaded (stats st) /\
             BytesDownloaded (stats st2) = BytesDownloaded (stats st) /\
             FilesSkipped (stats st2) =
               bump (countSkipped w F (quiet ++ [EvDownload o url localPath]))
                 (FilesSkipped (stats st))).
  { intros quiet Hq Hs HF. apply Forall_app in Hs as [_ Hs].
    apply Forall_inv in Hs.
    rewrite countSkipped_app, (countSkipped_quiet quiet Hq).
    exact (downloadFile_settled o url localPath _ st2 r HD HF Hs). }
  destruct r as [err|].
  - exists ((EvWarn "Failed to download file" (Some err) :: req)
            ++ [EvDownload o url localPath])%list.
    split.
    + cbn [warn setMach mach emit trace]. rewrite Treq, <- app_assoc. reflexivity.
    + intros Hs HF. cbn [warn setMach mach stats emit fs].
      apply Hcond; [|exact Hs | exact HF].
      constructor; [exact I | exact Qreq].
  - exists (req ++ [EvDownload o url localPath])%list. split.
    + rewrite Treq, <- app_assoc. reflexivity.
    + intros Hs HF. apply Hcond; assumption.
Qed.

Lemma noop_warn (msg : string) (err : option Error) (st : State) :
  noop w F st (warn msg err st).
Proof.
  apply noop_quiet; try reflexivity.
  eapply grows_emit; [reflexivity | exact I].
Qed.

Lemma noop_incErrors (st st' : State) :
  noop w F st st' -> noop w F st (incErrors st').
Proof.
  intros H. eapply noop_trans; [exact H|].
  apply noop_quiet; try reflexivity. apply grows_refl.
Qed.

Lemma MkdirAll_existing (now : Z) (f : FS) (path : string) fi :
  Stat f path = StatOK fi -> IsDir fi = true -> MkdirAll now f path = Some f.
Proof.
  intros HS HD. unfold MkdirAll. cbn [MkdirAllFrom]. rewrite HS, HD. reflexivity.
Qed.

Section Level.
Variable recurse : string -> string -> Z -> State -> Outcome.
Hypothesis recurse_noop :
  forall url dir depth st r st',
    recurse url dir depth st = Some (r, st') -> noop w F st st'.

Lemma processLink_noop (currentURL localDir : string) (depth : Z)
    (link : string) (st st' : State) :
  processLink w target recurse currentURL localDir depth link st = Some st' ->
  noop w F st st'.
Proof.
  unfold processLink.
  destruct (resolveReference w currentURL link) as [absoluteURL|];
    [|intros [= <-]; apply noop_refl].
  destruct (_ || _); [intros [= <-]; apply noop_refl|].
  destruct (HasSuffix link "/").
  - destruct (negb (isValidFilename _)); [intros [= <-]; apply noop_warn|].
    destruct (negb (HasPrefix _ localDir)).
    { intros [= <-]. apply noop_incErrors, noop_warn. }
    set (subDir := Join [localDir; TrimSuffix link "/"]).
    cbn [note setMach mach emit clock fs].
    destruct (MkdirAll _ _ _) as [fs'|] eqn:Hmk.
    + destruct (recurse _ _ _ _) as [[r st1]|] eqn:Hrec; [|discriminate].
      apply recurse_noop in Hrec as [new [T C]].
      cbn [setMach mach setFS emit trace fs stats] in T, C.
      assert (Hst1 : noop w F st st1).
      { exists (new ++ [EvMkdirAll subDir])%list. split.
        - rewrite T, <- app_assoc. reflexivity.
        - intros Hs HF. apply Forall_app in Hs as [Hs Hmkd].
          apply Forall_inv in Hmkd. cbn [settled] in Hmkd.
          assert (fs' = F) as ->.
          { rewrite HF in Hmk. destruct Hmkd as [[fi [HS HD]]|Hno].
            - rewrite (MkdirAll_existing _ _ _ _ HS HD) in Hmk. congruence.
            - rewrite Hno in Hmk. discriminate. }
          rewrite countSkipped_app, Nat.add_0_r.
          apply C; [exact Hs | reflexivity]. }
      destruct r; intros [= <-]; [|exact Hst1].
      eapply noop_trans; [exact Hst1 | apply noop_warn].
    + intros [= <-]. apply noop_incErrors.
      exists [EvMkdirAll subDir]. split; [reflexivity|].
      intros _ HF. cbn. repeat split. exact HF.
  - destruct (negb (isValidFilename _)); [intros [= <-]; apply noop_warn|].
    destruct (negb (HasPrefix _ localDir)).
    { intros [= <-]. apply noop_incErrors, noop_warn. }
    intros [= <-]. apply downloadLogged_noop.
Qed.

Lemma processLinks_noop (currentURL localDir : string) (depth : Z)
    (links : list string) :
  forall st st',
    processLinks w target recurse currentURL localDir depth links st = Some st' ->
    noop w F st st'.
Proof.
  induction links as [|link links IH]; intros st st'; simpl.
  - intros [= <-]. apply noop_refl.
  - destruct (processLink _ _ _ _ _ _ _ _) as [st1|] eqn:H1; [|discriminate].
    intros H2. eapply noop_trans; [eapply processLink_noop; exact H1 | apply IH; exact H2].
Qed.

Lemma mirrorURLBody_noop (currentURL localDir : string) (depth : Z)
    (st st' : State) r :
  mirrorURLBody w target recurse currentURL localDir depth st = Some (r, st') ->
  noop w F st st'.
Proof.
  unfold mirrorURLBody.
  destruct (depthReached target depth); [intros [= _ <-]; apply noop_refl|].
  destruct (ctxDone w (mach st)); [intros [= _ <-]; apply noop_refl|].
  assert (Hp : noop w F st (pace target depth st)).
  { apply noop_quiet.
    - apply grows_same, pace_trace.
    - apply pace_fs.
    - rewrite pace_stats. reflexivity.
    - rewrite pace_stats. reflexivity.
    - rewrite pace_stats. reflexivity. }
  destruct (urlPath w currentURL) as [path|] eqn:Hpath.
  2:{ intros [= _ <-]. apply noop_incErrors. exact Hp. }
  unfold fetchDirectoryListing. rewrite Hpath.
  destruct (Do w "GET" currentURL _) as [[e|resp] m] eqn:HDo.
  - intros [= _ <-]. apply noop_incErrors. eapply noop_trans; [exact Hp|].
    apply noop_quiet; try reflexivity.
    + eapply Do_grows. exact HDo.
    + eapply Do_fs. exact HDo.
  - intros H. eapply noop_trans; [exact Hp|].
    eapply noop_trans.
    + apply (noop_quiet _ (setMach (pace target depth st) m)); try reflexivity.
      * eapply Do_grows. exact HDo.
      * eapply Do_fs. exact HDo.
    + revert H. unfold handleResponse. destruct (Contains _ "text/html").
      * destruct (parseDirectoryListing resp) as [[|l ls]|].
        -- intros [= _ <-]. apply downloadLogged_noop.
        -- destruct (processLinks _ _ _ _ _ _ _ _) as [st1|] eqn:H1; [|discriminate].
           intros [= _ <-]. eapply processLinks_noop. exact H1.
        -- intros [= _ <-]. apply noop_incErrors, noop_warn.
      * intros [= _ <-]. apply downloadLogged_noop.
Qed.

End Level.

Lemma mirrorURL_noop (fuel : nat) :
  forall currentURL localDir depth st r st',
    mirrorURL fuel w target currentURL localDir depth st = Some (r, st') ->
    noop w F st st'.
Proof.
  induction fuel as [|fuel IH]; intros currentURL localDir depth st r st';
    [discriminate|].
  cbn [mirrorURL]. apply mirrorURLBody_noop. exact IH.
Qed.

End SettledRun.

Section SettledRunTheorem.
Import GoStrings Filepath OS Config HTTP Mirror Spec.

Lemma wrap64_idem (a b : Z) : wrap64 (wrap64 a + b) = wrap64 (a + b).
Proof.
  unfold wrap64. f_equal.
  replace ((a + 2 ^ 63) mod 2 ^ 64 - 2 ^ 63 + b + 2 ^ 63)
    with ((a + 2 ^ 63) mod 2 ^ 64 + b) by ring.
  rewrite Zplus_mod_idemp_l. f_equal. ring.
Qed.

Lemma bump_from_zero (n : nat) : bump n 0 = wrap64 (Z.of_nat n).
Proof.
  induction n as [|n IH]; [reflexivity|].
  change (bump (S n) 0) with (wrap64 (bump n 0 + 1)).
  rewrite IH, wrap64_idem. f_equal. lia.
Qed.

(** X2.  With change detection enabled and a context that is never done, a
    run on a disk that is settled for everything the run asks for (each
    local file whose probe succeeds is up to date, each directory is in
    place) downloads nothing and leaves the disk as it is; the files it
    handles whose probe succeeds are counted as skipped. *)
Theorem settled_run_downloads_nothing (fuel : nat) (w : World) (cfg : Config)
    (target : Target.t) (m : Machine) r st' :
  deadline w = None ->
  Target.CheckChanges target = true ->
  trace m = nil ->
  MirrorTarget fuel w cfg target m = Some (r, st') ->
  Forall (settled w (fs m)) (trace (mach st')) ->
  fs (mach st') = fs m /\
  FilesDownloaded (stats st') = 0 /\
  BytesDownloaded (stats st') = 0 /\
  FilesSkipped (stats st') =
    wrap64 (Z.of_nat (countSkipped w (fs m) (trace (mach st')))).
Proof.
  intros Hdl Hcc Htr. unfold MirrorTarget.
  set (targetDir := Join [MirrorSection.DataPath (Mirror cfg); Target.Name target]).
  cbn [emit fs clock trace].
  destruct (MkdirAll _ _ _) as [fs'|] eqn:Hmk.
  - destruct (mirrorURL _ _ _ _ _ _ _) as [[e st]|] eqn:Hwalk; [|discriminate].
    intros [= _ <-]. cbn [mach stats FilesDownloaded BytesDownloaded FilesSkipped].
    apply (mirrorURL_noop w target (fs m) Hdl Hcc) in Hwalk as [new [T C]].
    cbn [mach setFS emit fs trace stats FilesDownloaded BytesDownloaded FilesSkipped]
      in T, C.
    rewrite Htr in T. intros Hs. rewrite T in Hs |- *.
    apply Forall_app in Hs as [Hs Hmkd]. apply Forall_inv in Hmkd.
    assert (fs' = fs m) as ->.
    { cbn [settled] in Hmkd. destruct Hmkd as [[fi [HS HD]]|Hno].
      - rewrite (MkdirAll_existing _ _ _ _ HS HD) in Hmk. congruence.
      - rewrite Hno in Hmk. discriminate. }
    destruct (C Hs eq_refl) as (HF & HD & HB & HS).
    rewrite countSkipped_app, Nat.add_0_r, <- bump_from_zero.
    repeat split; assumption.
  - intros [= _ <-]. cbn. rewrite Htr. intros _. repeat split.
Qed.

Lemma settled_run_downloads_nothing_witness :
  let w := Scenario.world Scenario.twoSubdirs None in
  let t := Scenario.target "http://h/" 5 true in
  let m := Scenario.rerunMachine
             (MirrorTarget 5 w Scenario.config t (Scenario.boot 5000)) in
  exists r st',
    MirrorTarget 5 w Scenario.config t m = Some (r, st') /\
    fs (mach st') = fs m /\
    FilesDownloaded (stats st') = 0 /\
    FilesSkipped (stats st') = 2.
Proof.
  intros w t m.
  destruct (MirrorTarget 5 w Scenario.config t m) as [[r st']|] eqn:E;
    [|vm_compute in E; discriminate].
  assert (Htrace : trace (mach st') =
            [EvRequest "HEAD" "http://h/b/y.txt";
             EvDownload ForLink "http://h/b/y.txt" "/data/t/b/y.txt";
             EvRequest "GET" "http://h/b/";
             EvMkdirAll "/data/t/b";
             EvRequest "HEAD" "http://h/a/x.txt";
             EvDownload ForLink "http://h/a/x.txt" "/data/t/a/x.txt";
             EvRequest "GET" "http://h/a/";
             EvMkdirAll "/data/t/a";
             EvRequest "GET" "http://h/";
             EvMkdirAll "/data/t"]).
  { assert (E' := E). vm_compute in E'. injection E' as _ <-. reflexivity. }
  pose proof (settled_run_downloads_nothing 5 w Scenario.config t m r st'
                eq_refl eq_refl eq_refl E) as H.
  rewrite Htrace in H.
  destruct H as (H1 & H2 & _ & H4).
  - repeat (apply List.Forall_cons;
            [first [ exact I
                   | left; eexists; split; vm_compute; reflexivity
                   | vm_compute; congruence ]|]).
    apply List.Forall_nil.
  - exists r, st'. split; [reflexivity|].
    split; [exact H1|]. split; [exact H2|].
    rewrite H4. vm_compute. reflexivity.
Defined.

End SettledRunTheorem.

(** ** Files on the disk *)

Section FileFacts.
Import GoStrings Filepath OS Config HTTP Mirror Spec.

Lemma length_rev (s : string) : String.length (String.rev s) = String.length s.
Proof.
  induction s as [|c s IH]; [reflexivity|].
  rewrite rev_cons, length_append, IH. simpl. lia.
Qed.

Lemma dropWhile_length (f : ascii -> bool) (s : string) :
  (String.length (dropWhile f s) <= String.length s)%nat.
Proof.
  induction s as [|c s IH]; simpl; [lia|].
  destruct (f c); simpl; lia.
Qed.

Lemma parentOf_shorter (path : string) :
  parentOf path <> "" -> (String.length (parentOf path) < String.length path)%nat.
Proof.
  unfold parentOf.
  pose proof (dropWhile_length IsPathSeparator (String.rev path)) as H1.
  pose proof (dropWhile_length (fun c => negb (IsPathSeparator c))
                (dropWhile IsPathSeparator (String.rev path))) as H2.
  destruct (dropWhile (fun c => negb (IsPathSeparator c)) _) as [|c r].
  - intros H. exfalso. apply H. reflexivity.
  - intros _. rewrite length_rev. rewrite length_rev in H1. simpl in H2. lia.
Qed.

Lemma ancestors_shorter (fuel : nat) :
  forall path a, In a (ancestors fuel path) ->
                 (String.length a < String.length path)%nat.
Proof.
  induction fuel as [|fuel IH]; intros path a; simpl; [tauto|].
  destruct (String.eqb_spec (parentOf path) "") as [|Hne]; [intros []|].
  pose proof (parentOf_shorter path Hne) as Hlt.
  intros [<-|Hin]; [exact Hlt|].
  specialize (IH _ _ Hin). lia.
Qed.

Lemma existsb_agree {A : Type} (g h : A -> bool) (l : list A) :
  (forall a, In a l -> g a = h a) -> existsb g l = existsb h l.
Proof.
  induction l as [|x l IH]; intros H; simpl; [reflexivity|].
  rewrite (H x (or_introl eq_refl)), IH; [reflexivity|].
  intros a Ha. apply H. right. exact Ha.
Qed.

(** An entry written at [path] does not change what is above [path]. *)
Lemma fileAbove_insert (f : FS) (path : string) (n : Node) :
  existsb (fun a => isFileNode (lookup (<[path := n]> f) a))
    (ancestors (String.length path) path)
  = existsb (fun a => isFileNode (lookup f a)) (ancestors (String.length path) path).
Proof.
  apply existsb_agree. intros a Ha. apply ancestors_shorter in Ha.
  unfold lookup. destruct (_ || _); [reflexivity|].
  rewrite lookup_insert_ne; [reflexivity|]. intros ->. lia.
Qed.

Lemma Stat_error_iff (f : FS) (path : string) :
  Stat f path = StatError <->
  path <> "" /\
  existsb (fun a => isFileNode (lookup f a)) (ancestors (String.length path) path) = true.
Proof.
  unfold Stat. destruct (String.eqb_spec path "") as [->|Hne].
  - split; [discriminate | intros [H _]; congruence].
  - destruct (existsb _ _).
    + split; auto.
    + destruct (lookup f path) as [[?|? ?]|]; split;
        try discriminate; intros [_ H]; discriminate.
Qed.

(** The file written at [path] is what [Stat] sees there. *)
Lemma Stat_insert_regular (f : FS) (path content : string) (t : Z) :
  path <> "" -> path <> "/" -> path <> "." ->
  Stat f path <> StatError ->
  Stat (<[path := Regular content t]> f) path
  = StatOK {| Size := Z.of_nat (String.length content); ModTime := t; IsDir := false |}.
Proof.
  intros Hne Hroot Hdot Hok.
  assert (Habove : existsb (fun a => isFileNode (lookup f a))
                     (ancestors (String.length path) path) = false).
  { destruct (existsb _ _) eqn:E; [|reflexivity].
    exfalso. apply Hok. apply Stat_error_iff. auto. }
  unfold Stat. rewrite fileAbove_insert, Habove.
  destruct (String.eqb_spec path ""); [congruence|].
  unfold lookup.
  destruct (String.eqb_spec path "/"); [congruence|].
  destruct (String.eqb_spec path "."); [congruence|].
  cbn [orb]. rewrite lookup_insert_eq. reflexivity.
Qed.

Lemma Stat_insert_not_error (f : FS) (path : string) (n : Node) :
  Stat f path <> StatError -> Stat (<[path := n]> f) path <> StatError.
Proof.
  intros H H'. apply H. apply Stat_error_iff in H' as [Hne Hex].
  rewrite fileAbove_insert in Hex. apply Stat_error_iff. auto.
Qed.

(** What a successful [os.Create] has found and done. *)
Lemma Create_spec (now : Z) (f f' : FS) (path : string) :
  Create now f path = Some f' ->
  f' = <[path := Regular "" now]> f /\
  path <> "" /\ path <> "/" /\ path <> "." /\
  Stat f path <> StatError /\
  (f !! path = None \/ exists c t, f !! path = Some (Regular c t)).
Proof.
  unfold Create. destruct (Stat f path) as [fi| |] eqn:HS; [| |discriminate].
  - destruct (IsDir fi) eqn:HD; [discriminate|]. intros [= <-].
    unfold Stat in HS.
    destruct (String.eqb_spec path ""); [discriminate|].
    destruct (existsb _ _); [discriminate|].
    unfold lookup in HS.
    destruct (String.eqb_spec path "/").
    { cbn in HS. injection HS as <-. discriminate. }
    destruct (String.eqb_spec path ".").
    { cbn in HS. injection HS as <-. discriminate. }
    cbn [orb] in HS.
    destruct (f !! path) as [[t|c t]|]; [| |discriminate].
    + injection HS as <-. discriminate.
    + repeat split; auto; try discriminate. right. eauto.
  - destruct (String.eqb_spec path "") as [|Hne]; [discriminate|].
    cbn [negb andb]. destruct (parentIsDir f path); [|discriminate].
    intros [= <-].
    unfold Stat in HS.
    destruct (String.eqb_spec path ""); [congruence|].
    destruct (existsb _ _); [discriminate|].
    unfold lookup in HS.
    destruct (String.eqb_spec path "/"); [discriminate|].
    destruct (String.eqb_spec path "."); [discriminate|].
    cbn [orb] in HS.
    destruct (f !! path) as [[t|c t]|]; [discriminate|discriminate|].
    repeat split; auto; discriminate.
Qed.

Lemma Do_served (w : World) (method url : string) (m m' : Machine) resp :
  Do w method url m = (inr resp, m') ->
  serve w method url = Some resp /\ fs m' = fs m /\ clock m' = clock m + 1.
Proof.
  unfold Do. destruct (ctxDone w m); [discriminate|].
  destruct (ctxDone w _); [discriminate|].
  destruct (serve w method url); [|discriminate].
  intros [= <- <-]. auto.
Qed.

Lemma Do_keeps_fs (w : World) (method url : string) (m m' : Machine) r :
  Do w method url m = (r, m') -> fs m' = fs m.
Proof.
  unfold Do. destruct (ctxDone w m); [intros [= _ <-]; reflexivity|].
  destruct (ctxDone w _); [intros [= _ <-]; reflexivity|].
  destruct (serve w method url); intros [= _ <-]; reflexivity.
Qed.

Lemma CheckFileInfo_keeps_fs (w : World) (url : string) (m m' : Machine) r :
  CheckFileInfo w url m = (r, m') -> fs m' = fs m.
Proof.
  unfold CheckFileInfo. destruct (urlPath w url); [|intros [= _ <-]; reflexivity].
  destruct (Do w "HEAD" url m) as [[e|resp] m1] eqn:HDo; apply Do_keeps_fs in HDo.
  - intros [= _ <-]. exact HDo.
  - destruct (negb _); intros [= _ <-]; exact HDo.
Qed.

Lemma CheckFileInfo_ok_probe (w : World) (url : string) (m m' : Machine) info :
  CheckFileInfo w url m = (inr info, m') -> probe w url = Some info.
Proof.
  unfold CheckFileInfo, probe. destruct (urlPath w url); [|discriminate].
  destruct (Do w "HEAD" url m) as [[e|resp] m1] eqn:HDo; [discriminate|].
  apply Do_served in HDo as [-> _].
  destruct (Response.StatusCode resp =? 200); cbn [negb]; [|discriminate].
  intros [= <- _]. reflexivity.
Qed.

(** What a transfer that succeeds leaves at [localPath]: the body of the
    response, with the Last-Modified time of the response when it has one. *)
Lemma transfer_done (w : World) (config : Target.t) (url localPath : string)
    (m m' : Machine) :
  transfer w config url localPath m = (None, m') ->
  exists body t,
    serve w "GET" url = Some body /\
    (forall t', Response.LastModified body = Some t' -> t = t') /\
    fs m' !! localPath = Some (Regular (Response.Body body) t) /\
    Stat (fs m') localPath
    = StatOK {| Size := Z.of_nat (String.length (Response.Body body));
                ModTime := t; IsDir := false |}.
Proof.
  unfold transfer.
  destruct (MkdirAll _ _ _) as [fs1|]; [|discriminate].
  cbn [setFS fs clock trace].
  destruct (Create _ _ _) as [fs2|] eqn:HC; [|discriminate].
  apply Create_spec in HC as (-> & Hne & Hroot & Hdot & Hok & _).
  destruct (urlPath w url); [|discriminate].
  destruct (Do w "GET" url _) as [[e|resp] m1] eqn:HDo; [discriminate|].
  apply Do_served in HDo as (Hserve & Hfs & _). cbn [fs] in Hfs.
  destruct (negb _); [discriminate|].
  destruct (negb _); [discriminate|].
  unfold Write. cbn [setFS fs clock trace]. rewrite Hfs.
  destruct (Response.BodyErr resp); [discriminate|].
  destruct (Response.LastModified resp) as [t|] eqn:HLM.
  - intros [= <-]. exists resp, t. split; [exact Hserve|].
    split; [intros t' Ht'; congruence|]. cbn [setFS fs].
    unfold Chtimes. rewrite lookup_insert_eq. split.
    + apply lookup_insert_eq.
    + apply Stat_insert_regular; auto.
      do 2 apply Stat_insert_not_error. exact Hok.
  - intros [= <-]. exists resp, (clock m1). split; [exact Hserve|].
    split; [intros t' Ht'; congruence|]. cbn [fs]. split.
    + apply lookup_insert_eq.
    + apply Stat_insert_regular; auto.
      apply Stat_insert_not_error. exact Hok.
Qed.

(** X3.  A call of [downloadFile] that returns no error leaves the local
    file up to date with respect to the probe, provided the server reports
    for the file what it delivers: the Last-Modified time of the probe is
    that of the transfer, and the size of the probe, when it is positive, is
    the size of the body.  The file is then either the one that was there
    or holds the body of the response. *)
Theorem download_leaves_file_up_to_date (w : World) (target : Target.t)
    (url localPath : string) (st st' : State)
    (info : FileInfo.t) (body : Response.t) :
  probe w url = Some info ->
  serve w "GET" url = Some body ->
  FileInfo.LastModified info = default 0 (Response.LastModified body) ->
  (0 < FileInfo.Size info ->
   FileInfo.Size info = Z.of_nat (String.length (Response.Body body))) ->
  downloadFile w target url localPath st = (None, st') ->
  NeedsUpdate (fs (mach st')) localPath info = inr false /\
  (fs (mach st') = fs (mach st) \/
   exists t, fs (mach st') !! localPath = Some (Regular (Response.Body body) t)).
Proof.
  intros Hprobe Hget HLM Hsize.
  assert (Htransfer : forall m m',
             transfer w target url localPath m = (None, m') ->
             NeedsUpdate (fs m') localPath info = inr false /\
             exists t, fs m' !! localPath = Some (Regular (Response.Body body) t)).
  { intros m m' Ht. apply transfer_done in Ht as (body' & t & Hs & Ht & Hl & HS).
    assert (body' = body) as -> by congruence.
    split; [|eauto]. unfold NeedsUpdate, IsZero. rewrite HS. cbn [ModTime Size].
    rewrite HLM.
    assert (negb (default 0 (Response.LastModified body) =? 0)
            && (t <? default 0 (Response.LastModified body)) = false) as ->.
    { destruct (Response.LastModified body) as [t'|]; cbn [default].
      - rewrite (Ht t' eq_refl), Z.ltb_irrefl. apply andb_false_r.
      - reflexivity. }
    destruct (Z.ltb_spec 0 (FileInfo.Size info)) as [Hpos|]; [|reflexivity].
    rewrite (Hsize Hpos), Z.eqb_refl. reflexivity. }
  assert (Hclient : forall m m',
             DownloadFile w target url localPath m = (None, m') ->
             NeedsUpdate (fs m') localPath info = inr false /\
             (fs m' = fs m \/
              exists t, fs m' !! localPath = Some (Regular (Response.Body body) t))).
  { intros m m'. unfold DownloadFile. destruct (Target.CheckChanges target).
    - destruct (CheckFileInfo w url m) as [[e|info'] m1] eqn:HC; [discriminate|].
      pose proof (CheckFileInfo_keeps_fs _ _ _ _ _ HC) as Hfs.
      apply CheckFileInfo_ok_probe in HC.
      assert (info' = info) as -> by congruence.
      destruct (NeedsUpdate (fs m1) localPath info) as [e|[|]] eqn:HN; [discriminate| |].
      + intros Ht. destruct (Htransfer _ _ Ht). auto.
      + intros [= <-]. auto.
    - intros Ht. destruct (Htransfer _ _ Ht). auto. }
  unfold downloadFile.
  destruct (upToDate w target url localPath (mach st)) as [[|] m1] eqn:HU.
  - intros [= <-]. cbn [incSkipped setMach mach].
    unfold upToDate in HU. destruct (Target.CheckChanges target); [|discriminate].
    destruct (CheckFileInfo w url (mach st)) as [[e|info'] m0] eqn:HC; [discriminate|].
    pose proof (CheckFileInfo_keeps_fs _ _ _ _ _ HC) as Hfs.
    apply CheckFileInfo_ok_probe in HC.
    assert (info' = info) as -> by congruence.
    destruct (NeedsUpdate (fs m0) localPath info) as [e|[|]] eqn:HN; try discriminate.
    injection HU as <-. auto.
  - assert (Hfs1 : fs m1 = fs (mach st)).
    { unfold upToDate in HU. destruct (Target.CheckChanges target).
      - destruct (CheckFileInfo w url (mach st)) as [[e|info'] m0] eqn:HC;
          apply CheckFileInfo_keeps_fs in HC.
        + congruence.
        + destruct (NeedsUpdate _ _ _); congruence.
      - congruence. }
    destruct (DownloadFile w target url localPath m1) as [[e|] m2] eqn:HD;
      [discriminate|].
    destruct (Hclient _ _ HD) as [HN Hcase]. rewrite Hfs1 in Hcase.
    destruct (Stat (fs m2) localPath); intros [= <-];
      cbn [incDownloaded addBytes setMach mach]; auto.
Qed.

Lemma download_leaves_file_up_to_date_witness :
  let w := Scenario.world Scenario.twoSubdirs None in
  let t := Scenario.target "http://h/" 5 true in
  let st := {| mach := Scenario.boot 5000; stats := mkStats 0 0 0 "t" 0 0 0 0 |} in
  exists st',
    downloadFile w t "http://h/a/x.txt" "/data/t/a/x.txt" st = (None, st') /\
    NeedsUpdate (fs (mach st')) "/data/t/a/x.txt"
      (infoOf "http://h/a/x.txt" (Scenario.file 1000 "x")) = inr false.
Proof.
  intros w t st.
  destruct (downloadFile w t "http://h/a/x.txt" "/data/t/a/x.txt" st) as [r st'] eqn:E.
  assert (r = None) as -> by (vm_compute in E; congruence).
  exists st'. split; [reflexivity|].
  apply (download_leaves_file_up_to_date w t "http://h/a/x.txt" "/data/t/a/x.txt" st st'
           (infoOf "http://h/a/x.txt" (Scenario.file 1000 "x")) (Scenario.file 1000 "x")
           eq_refl eq_refl eq_refl (fun _ => eq_refl) E).
Defined.

End FileFacts.

(** ** Failures of a download *)

Section DownloadFailures.
Import GoStrings Filepath OS Config HTTP Mirror Spec.

Lemma Do_requests (w : World) (method url : string) (m m' : Machine) r :
  Do w method url m = (r, m') -> grows (eq (EvRequest method url)) m m'.
Proof.
  unfold Do. destruct (ctxDone w m); [intros [= _ <-]; apply grows_refl|].
  assert (Hg : grows (eq (EvRequest method url)) m
                 (advance 1 (emit (EvRequest method url) m))).
  { exists [EvRequest method url]. split; [reflexivity|]. repeat constructor. }
  destruct (ctxDone w _); [intros [= _ <-]; exact Hg|].
  destruct (serve w method url); intros [= _ <-]; exact Hg.
Qed.

Lemma CheckFileInfo_fails (w : World) (url : string) (m : Machine) :
  probe w url = None ->
  exists e m', CheckFileInfo w url m = (inl e, m') /\ fs m' = fs m /\
               grows (eq (EvRequest "HEAD" url)) m m'.
Proof.
  unfold probe, CheckFileInfo. intros Hp.
  destruct (urlPath w url); [|eexists _, _; split; [reflexivity|]; split;
                               [reflexivity | apply grows_refl]].
  destruct (Do w "HEAD" url m) as [[e|resp] m1] eqn:HDo.
  - eexists _, _. split; [reflexivity|]. split.
    + eapply Do_keeps_fs; eassumption.
    + eapply Do_requests; eassumption.
  - pose proof (Do_requests _ _ _ _ _ _ HDo) as Hg.
    apply Do_served in HDo as (Hs & Hfs & _). rewrite Hs in Hp.
    destruct (Response.StatusCode resp =? 200); [discriminate|].
    eexists _, _. split; [reflexivity|]. auto.
Qed.

(** X4.  With change detection enabled, a file whose probe fails (the
    server does not answer the HEAD request with status 200, or the URL
    does not parse) is not downloaded: [downloadFile] returns an error and
    counts it, sends nothing but HEAD requests for the URL and leaves the
    disk and the other counters as they are. *)
Theorem failed_probe_prevents_download (w : World) (target : Target.t)
    (url localPath : string) (st : State) :
  Target.CheckChanges target = true ->
  probe w url = None ->
  exists e st',
    downloadFile w target url localPath st = (Some e, st') /\
    fs (mach st') = fs (mach st) /\
    grows (eq (EvRequest "HEAD" url)) (mach st) (mach st') /\
    Errors (stats st') = wrap64 (Errors (stats st) + 1) /\
    FilesDownloaded (stats st') = FilesDownloaded (stats st) /\
    FilesSkipped (stats st') = FilesSkipped (stats st) /\
    BytesDownloaded (stats st') = BytesDownloaded (stats st).
Proof.
  intros HCC Hp. unfold downloadFile, upToDate, DownloadFile. rewrite HCC.
  destruct (CheckFileInfo_fails w url (mach st) Hp) as (e1 & m1 & -> & Hfs1 & Hg1).
  destruct (CheckFileInfo_fails w url m1 Hp) as (e2 & m2 & -> & Hfs2 & Hg2).
  eexists _, _. split; [reflexivity|]. cbn [incErrors setMach mach stats Errors
    FilesDownloaded FilesSkipped BytesDownloaded].
  split; [congruence|]. split; [|auto].
  eapply grows_trans; eassumption.
Qed.

Lemma failed_probe_prevents_download_witness :
  let w := Scenario.world Scenario.twoSubdirs None in
  let st := {| mach := Scenario.boot 5000; stats := mkStats 0 0 0 "t" 0 0 0 0 |} in
  exists e st',
    downloadFile w (Scenario.target "http://h/" 5 true) "http://h/missing" "/data/t/missing" st
    = (Some e, st') /\
    fs (mach st') = fs (mach st) /\ Errors (stats st') = 1.
Proof.
  intros w st.
  destruct (failed_probe_prevents_download w (Scenario.target "http://h/" 5 true)
              "http://h/missing" "/data/t/missing" st eq_refl eq_refl)
    as (e & st' & H & Hfs & _ & HE & _).
  exists e, st'. split; [exact H|]. split; [exact Hfs|]. exact HE.
Defined.

(** X5.  [DownloadFile] creates the local file before it sends the GET
    request.  Without change detection, when the request brings no
    response with status 200 (no answer, another status, or a context that
    is done), the call returns an error and a regular file that was at
    [localPath] is left empty. *)
Theorem failed_get_leaves_file_empty (w : World) (config : Target.t)
    (url localPath : string) (m : Machine) (fi d : FileStat) :
  Target.CheckChanges config = false ->
  Stat (fs m) localPath = StatOK fi -> IsDir fi = false ->
  Stat (fs m) (Dir localPath) = StatOK d -> IsDir d = true ->
  (forall resp, serve w "GET" url = Some resp -> Response.StatusCode resp <> 200) ->
  exists e m',
    DownloadFile w config url localPath m = (Some e, m') /\
    fs m' = <[localPath := Regular "" (clock m)]> (fs m).
Proof.
  intros HCC HS HD HSd HDd Hget. unfold DownloadFile, transfer. rewrite HCC.
  rewrite (MkdirAll_existing _ _ _ _ HSd HDd).
  cbn [setFS fs clock trace]. unfold Create. rewrite HS, HD.
  cbn [setFS fs clock trace].
  destruct (urlPath w url); [|eexists _, _; split; reflexivity].
  destruct (Do w "GET" url _) as [[e|resp] m1] eqn:HDo.
  - apply Do_keeps_fs in HDo. eexists _, _. split; [reflexivity|]. exact HDo.
  - apply Do_served in HDo as (Hs & Hfs & _).
    destruct (Z.eqb_spec (Response.StatusCode resp) 200) as [Heq|_].
    + destruct (Hget _ Hs Heq).
    + eexists _, _. split; [reflexivity|]. exact Hfs.
Qed.

Lemma failed_get_leaves_file_empty_witness :
  let w := Scenario.world Scenario.twoSubdirs None in
  let disk : FS := <["/data/t/missing" := Regular "old" 7]>
                     (<["/data/t" := Directory 1]> (<["/data" := Directory 1]> ∅)) in
  let m := setFS (Scenario.boot 5000) disk in
  exists e m',
    DownloadFile w (Scenario.target "http://h/" 5 false) "http://h/missing" "/data/t/missing" m
    = (Some e, m') /\
    fs m' !! "/data/t/missing" = Some (Regular "" 5000).
Proof.
  intros w disk m.
  assert (HS : Stat (fs m) "/data/t/missing"
               = StatOK {| Size := 3; ModTime := 7; IsDir := false |})
    by (vm_compute; reflexivity).
  assert (HSd : Stat (fs m) (Dir "/data/t/missing")
                = StatOK {| Size := dirSize; ModTime := 1; IsDir := true |})
    by (vm_compute; reflexivity).
  destruct (failed_get_leaves_file_empty w (Scenario.target "http://h/" 5 false)
              "http://h/missing" "/data/t/missing" m _ _
              eq_refl HS eq_refl HSd eq_refl)
    as (e & m' & H & Hfs).
  - intros resp Hr. vm_compute in Hr. injection Hr as <-. vm_compute. discriminate.
  - exists e, m'. split; [exact H|]. rewrite Hfs. apply lookup_insert_eq.
Defined.

End DownloadFailures.

(** ** What a run leaves of the disk it finds *)

Section Survival.
Import GoStrings Filepath OS Config HTTP Mirror Spec.

Lemma sameKind_refl (n : Node) : sameKind n n.
Proof. destruct n; exact I. Qed.

Lemma sameKind_trans (a b c : Node) : sameKind a b -> sameKind b c -> sameKind a c.
Proof. destruct a, b, c; simpl; tauto. Qed.

Lemma keeps_refl (f : FS) : keeps f f.
Proof. intros p n H. exists n. split; [exact H | apply sameKind_refl]. Qed.

Lemma keeps_same (f f' : FS) : f' = f -> keeps f f'.
Proof. intros ->. apply keeps_refl. Qed.

Lemma keeps_trans (f g h : FS) : keeps f g -> keeps g h -> keeps f h.
Proof.
  intros H1 H2 p n Hp. destruct (H1 p n Hp) as (n1 & Hp1 & Hk1).
  destruct (H2 p n1 Hp1) as (n2 & Hp2 & Hk2).
  exists n2. split; [exact Hp2 | eapply sameKind_trans; eassumption].
Qed.

Lemma keeps_insert (f : FS) (path : string) (n' : Node) :
  (forall n, f !! path = Some n -> sameKind n n') -> keeps f (<[path := n']> f).
Proof.
  intros H p n Hp. destruct (decide (path = p)) as [->|Hne].
  - exists n'. split; [apply lookup_insert_eq | exact (H n Hp)].
  - exists n. rewrite lookup_insert_ne by exact Hne.
    split; [exact Hp | apply sameKind_refl].
Qed.

Lemma Stat_absent (f : FS) (path : string) :
  Stat f path = StatNotExist -> path <> "" -> f !! path = None.
Proof.
  unfold Stat. destruct (String.eqb_spec path ""); [congruence|].
  destruct (existsb _ _); [discriminate|].
  unfold lookup. destruct (_ || _); [discriminate|].
  destruct (f !! path) as [[?|? ?]|]; [discriminate|discriminate|reflexivity].
Qed.

Lemma Mkdir_keeps (now : Z) (f f' : FS) (path : string) :
  Mkdir now f path = Some f' -> keeps f f'.
Proof.
  unfold Mkdir. destruct (Stat f path) eqn:HS; try discriminate.
  destruct (String.eqb_spec path "") as [|Hpath]; [discriminate|]. cbn [negb andb].
  destruct (parentIsDir f path); [|discriminate]. intros [= <-].
  apply keeps_insert. intros n Hn.
  rewrite (Stat_absent _ _ HS) in Hn by assumption. discriminate.
Qed.

Lemma MkdirAllFrom_keeps (fuel : nat) (now : Z) :
  forall (f f' : FS) (path : string),
    MkdirAllFrom fuel now f path = Some f' -> keeps f f'.
Proof.
  induction fuel as [|fuel IH]; intros f f' path; simpl.
  - destruct (Stat f path) as [fi| |]; try discriminate.
    destruct (IsDir fi); [|discriminate]. intros [= <-]. apply keeps_refl.
  - assert (Hslow :
      match (if String.eqb (parentOf path) "" then Some f
             else MkdirAllFrom fuel now f (parentOf path)) with
      | Some fs1 =>
          match Mkdir now fs1 path with
          | Some fs2 => Some fs2
          | None => match Stat fs1 path with
                    | StatOK fi => if IsDir fi then Some fs1 else None
                    | _ => None
                    end
          end
      | None => None
      end = Some f' -> keeps f f').
    { assert (Hlast : forall fs1,
                 keeps f fs1 ->
                 match Mkdir now fs1 path with
                 | Some fs2 => Some fs2
                 | None => match Stat fs1 path with
                           | StatOK fi => if IsDir fi then Some fs1 else None
                           | _ => None
                           end
                 end = Some f' -> keeps f f').
      { intros fs1 H1. destruct (Mkdir now fs1 path) as [fs2|] eqn:Hm.
        - intros [= <-]. eapply keeps_trans; [exact H1|].
          eapply Mkdir_keeps; eassumption.
        - destruct (Stat fs1 path) as [fi| |]; try discriminate.
          destruct (IsDir fi); [|discriminate]. intros [= <-]. exact H1. }
      destruct (String.eqb (parentOf path) "").
      - apply Hlast, keeps_refl.
      - destruct (MkdirAllFrom fuel now f (parentOf path)) as [fs1|] eqn:Hp;
          [|discriminate].
        apply Hlast. eapply IH; eassumption. }
    destruct (Stat f path) as [fi| |]; [|exact Hslow|exact Hslow].
    destruct (IsDir fi); [|discriminate]. intros [= <-]. apply keeps_refl.
Qed.

Lemma MkdirAll_keeps (now : Z) (f f' : FS) (path : string) :
  MkdirAll now f path = Some f' -> keeps f f'.
Proof. apply MkdirAllFrom_keeps. Qed.

Lemma Create_keeps (now : Z) (f f' : FS) (path : string) :
  Create now f path = Some f' ->
  keeps f f' /\ exists c t, f' !! path = Some (Regular c t).
Proof.
  intros H. apply Create_spec in H as (-> & _ & _ & _ & _ & Hold). split.
  - apply keeps_insert. intros n Hn.
    destruct Hold as [Hnone|(c & t & Hreg)]; [congruence|].
    rewrite Hreg in Hn. injection Hn as <-. exact I.
  - eexists _, _. apply lookup_insert_eq.
Qed.

Lemma transfer_keeps (w : World) (config : Target.t) (url localPath : string)
    (m m' : Machine) r :
  transfer w config url localPath m = (r, m') -> keeps (fs m) (fs m').
Proof.
  unfold transfer.
  destruct (MkdirAll _ _ _) as [fs1|] eqn:Hmk; [|intros [= _ <-]; apply keeps_refl].
  apply MkdirAll_keeps in Hmk.
  cbn [setFS fs clock trace].
  destruct (Create _ _ _) as [fs2|] eqn:HC; [|intros [= _ <-]; exact Hmk].
  apply Create_keeps in HC as (HC & c & t & Hfile).
  assert (H2 : keeps (fs m) fs2) by (eapply keeps_trans; eassumption).
  destruct (urlPath w url); [|intros [= _ <-]; exact H2].
  destruct (Do w "GET" url _) as [[e|resp] m1] eqn:HDo;
    apply Do_keeps_fs in HDo; cbn [setFS fs] in HDo.
  { intros [= _ <-]. rewrite HDo. exact H2. }
  destruct (negb _); [intros [= _ <-]; rewrite HDo; exact H2|].
  destruct (negb _); [intros [= _ <-]; rewrite HDo; exact H2|].
  assert (H3 : keeps (fs m) (Write (clock m1) (fs m1) localPath (Response.Body resp))).
  { eapply keeps_trans; [exact H2|]. rewrite HDo. apply keeps_insert.
    intros n Hn. rewrite Hfile in Hn. injection Hn as <-. exact I. }
  cbn [setFS fs clock trace].
  destruct (Response.BodyErr resp); [intros [= _ <-]; exact H3|].
  destruct (Response.LastModified resp) as [t'|]; intros [= _ <-]; [|exact H3].
  cbn [fs setFS]. eapply keeps_trans; [exact H3|].
  unfold Chtimes.
  destruct (Write _ _ _ _ !! localPath) as [[dt|c' ft]|] eqn:Hl; [| |apply keeps_refl];
    apply keeps_insert; intros n Hn; rewrite Hl in Hn; injection Hn as <-; exact I.
Qed.

Lemma DownloadFile_keeps (w : World) (config : Target.t) (url localPath : string)
    (m m' : Machine) r :
  DownloadFile w config url localPath m = (r, m') -> keeps (fs m) (fs m').
Proof.
  unfold DownloadFile. destruct (Target.CheckChanges config); [|apply transfer_keeps].
  destruct (CheckFileInfo w url m) as [[e|info] m1] eqn:HC;
    apply CheckFileInfo_keeps_fs in HC.
  - intros [= _ <-]. apply keeps_same, HC.
  - destruct (NeedsUpdate _ _ _) as [e|[|]].
    + intros [= _ <-]. apply keeps_same, HC.
    + intros H. rewrite <- HC. eapply transfer_keeps; eassumption.
    + intros [= _ <-]. apply keeps_same, HC.
Qed.

Lemma upToDate_keeps_fs (w : World) (target : Target.t) (url localPath : string)
    (m m' : Machine) b :
  upToDate w target url localPath m = (b, m') -> fs m' = fs m.
Proof.
  unfold upToDate. destruct (Target.CheckChanges target); [|congruence].
  destruct (CheckFileInfo w url m) as [[e|info] m0] eqn:HC;
    apply CheckFileInfo_keeps_fs in HC; [congruence|].
  destruct (NeedsUpdate _ _ _); congruence.
Qed.

Lemma downloadFile_keeps (w : World) (target : Target.t) (url localPath : string)
    (st st' : State) r :
  downloadFile w target url localPath st = (r, st') ->
  keeps (fs (mach st)) (fs (mach st')).
Proof.
  unfold downloadFile.
  destruct (upToDate w target url localPath (mach st)) as [[|] m1] eqn:HU;
    apply upToDate_keeps_fs in HU.
  - intros [= _ <-]. apply keeps_same, HU.
  - destruct (DownloadFile w target url localPath m1) as [[e|] m2] eqn:HD;
      apply DownloadFile_keeps in HD; rewrite HU in HD.
    + intros [= _ <-]. exact HD.
    + destruct (Stat (fs m2) localPath); intros [= _ <-]; exact HD.
Qed.

Lemma downloadLogged_keeps (w : World) (target : Target.t) (o : Origin)
    (url localPath : string) (st : State) :
  keeps (fs (mach st)) (fs (mach (downloadLogged w target o url localPath st))).
Proof.
  unfold downloadLogged.
  destruct (downloadFile _ _ _ _ _) as [[e|] st1] eqn:HD;
    apply downloadFile_keeps in HD; exact HD.
Qed.

Section Level.
Variable w : World.
Variable target : Target.t.
Variable recurse : string -> string -> Z -> State -> Outcome.
Hypothesis recurse_keeps :
  forall url dir depth st r st',
    recurse url dir depth st = Some (r, st') -> keeps (fs (mach st)) (fs (mach st')).

Lemma processLink_keeps (currentURL localDir : string) (depth : Z)
    (link : string) (st st' : State) :
  processLink w target recurse currentURL localDir depth link st = Some st' ->
  keeps (fs (mach st)) (fs (mach st')).
Proof.
  unfold processLink.
  destruct (resolveReference w currentURL link) as [absoluteURL|];
    [|intros [= <-]; apply keeps_refl].
  destruct (_ || _); [intros [= <-]; apply keeps_refl|].
  destruct (HasSuffix link "/").
  - destruct (negb (isValidFilename _)); [intros [= <-]; apply keeps_refl|].
    destruct (negb (HasPrefix _ localDir)); [intros [= <-]; apply keeps_refl|].
    cbn [note setMach mach emit clock fs].
    destruct (MkdirAll _ _ _) as [fs'|] eqn:Hmk; [|intros [= <-]; apply keeps_refl].
    apply MkdirAll_keeps in Hmk.
    destruct (recurse _ _ _ _) as [[r st1]|] eqn:Hrec; [|discriminate].
    apply recurse_keeps in Hrec. cbn [setMach mach setFS fs] in Hrec.
    destruct r; intros [= <-]; eapply keeps_trans; eassumption.
  - destruct (negb (isValidFilename _)); [intros [= <-]; apply keeps_refl|].
    destruct (negb (HasPrefix _ localDir)); [intros [= <-]; apply keeps_refl|].
    intros [= <-]. apply downloadLogged_keeps.
Qed.

Lemma processLinks_keeps (currentURL localDir : string) (depth : Z)
    (links : list string) :
  forall st st',
    processLinks w target recurse currentURL localDir depth links st = Some st' ->
    keeps (fs (mach st)) (fs (mach st')).
Proof.
  induction links as [|link links IH]; intros st st'; simpl.
  - intros [= <-]. apply keeps_refl.
  - destruct (processLink _ _ _ _ _ _ _ _) as [st1|] eqn:H1; [|discriminate].
    intros H2. eapply keeps_trans.
    + eapply processLink_keeps. exact H1.
    + apply IH. exact H2.
Qed.

Lemma handleResponse_keeps (currentURL localDir : string) (depth : Z)
    (path : string) (resp : Response.t) (st st' : State) r :
  handleResponse w target recurse currentURL localDir depth path resp st
  = Some (r, st') ->
  keeps (fs (mach st)) (fs (mach st')).
Proof.
  unfold handleResponse. destruct (Contains _ "text/html").
  - destruct (parseDirectoryListing resp) as [[|l ls]|].
    + intros [= _ <-]. apply downloadLogged_keeps.
    + destruct (processLinks _ _ _ _ _ _ _ _) as [st1|] eqn:H1; [|discriminate].
      intros [= _ <-]. eapply processLinks_keeps. exact H1.
    + intros [= _ <-]. apply keeps_refl.
  - intros [= _ <-]. apply downloadLogged_keeps.
Qed.

Lemma mirrorURLBody_keeps (currentURL localDir : string) (depth : Z)
    (st st' : State) r :
  mirrorURLBody w target recurse currentURL localDir depth st = Some (r, st') ->
  keeps (fs (mach st)) (fs (mach st')).
Proof.
  unfold mirrorURLBody.
  destruct (depthReached target depth); [intros [= _ <-]; apply keeps_refl|].
  destruct (ctxDone w (mach st)); [intros [= _ <-]; apply keeps_refl|].
  pose proof (pace_fs target depth st) as Hp.
  destruct (urlPath w currentURL) as [path|] eqn:Hpath;
    [|intros [= _ <-]; apply keeps_same, Hp].
  unfold fetchDirectoryListing. rewrite Hpath.
  destruct (Do w "GET" currentURL _) as [[e|resp] m] eqn:HDo;
    apply Do_keeps_fs in HDo; rewrite Hp in HDo.
  - intros [= _ <-]. apply keeps_same, HDo.
  - intros H. apply handleResponse_keeps in H. cbn [setMach mach] in H.
    rewrite HDo in H. exact H.
Qed.

End Level.

Lemma mirrorURL_keeps (w : World) (target : Target.t) (fuel : nat) :
  forall currentURL localDir depth st r st',
    mirrorURL fuel w target currentURL localDir depth st = Some (r, st') ->
    keeps (fs (mach st)) (fs (mach st')).
Proof.
  induction fuel as [|fuel IH]; intros currentURL localDir depth st r st';
    [discriminate|].
  cbn [mirrorURL]. apply mirrorURLBody_keeps. exact IH.
Qed.

(** X6.  A run removes nothing from the disk it finds and changes the kind
    of no entry: every directory is a directory after the run and every
    regular file is a regular file after it, whatever the server answers
    and however the run ends. *)
Theorem run_keeps_disk_entries (fuel : nat) (w : World) (cfg : Config)
    (target : Target.t) (m : Machine) r st' :
  MirrorTarget fuel w cfg target m = Some (r, st') ->
  keeps (fs m) (fs (mach st')).
Proof.
  unfold MirrorTarget. cbn [emit fs clock trace].
  destruct (MkdirAll _ _ _) as [fs'|] eqn:Hmk.
  - apply MkdirAll_keeps in Hmk.
    destruct (mirrorURL _ _ _ _ _ _ _) as [[e st1]|] eqn:Hrun; [|discriminate].
    apply mirrorURL_keeps in Hrun. cbn [mach setFS fs] in Hrun.
    intros [= _ <-]. cbn [mach]. eapply keeps_trans; eassumption.
  - intros [= _ <-]. apply keeps_refl.
Qed.

Lemma run_keeps_disk_entries_witness :
  let w := Scenario.world Scenario.twoSubdirs None in
  let disk : FS := <["/data/t/a/x.txt" := Regular "old" 7]>
                     (<["/data/t/keep.txt" := Regular "mine" 3]> ∅) in
  let m := setFS (Scenario.boot 5000) disk in
  exists r st',
    MirrorTarget 10 w Scenario.config (Scenario.target "http://h/" 5 true) m
    = Some (r, st') /\
    keeps disk (fs (mach st')).
Proof.
  intros w disk m.
  destruct (MirrorTarget 10 w Scenario.config (Scenario.target "http://h/" 5 true) m)
    as [[r st']|] eqn:E; [|vm_compute in E; discriminate].
  exists r, st'. split; [reflexivity|].
  exact (run_keeps_disk_entries 10 w Scenario.config _ m r st' E).
Defined.

End Survival.

(** ** Termination of a walk with a depth bound *)

Section Termination.
Import GoStrings Filepath OS Config HTTP Mirror Spec.

Variable w : World.
Variable target : Target.t.

Section Level.
Variable recurse : string -> string -> Z -> State -> Outcome.
Variable depth : Z.
Hypothesis recurse_returns :
  forall url dir st, exists r, recurse url dir (wrap64 (depth + 1)) st = Some r.

Lemma processLink_returns (currentURL localDir link : string) (st : State) :
  exists st', processLink w target recurse currentURL localDir depth link st = Some st'.
Proof.
  unfold processLink.
  destruct (resolveReference w currentURL link); [|eauto].
  destruct (_ || _); [eauto|].
  destruct (HasSuffix link "/").
  - destruct (negb (isValidFilename _)); [eauto|].
    destruct (negb (HasPrefix _ localDir)); [eauto|].
    destruct (MkdirAll _ _ _) as [fs'|]; [|eauto].
    destruct (recurse_returns s (Join [localDir; TrimSuffix link "/"])
                (setMach (note (EvMkdirAll (Join [localDir; TrimSuffix link "/"])) st)
                   (setFS (mach (note (EvMkdirAll
                                         (Join [localDir; TrimSuffix link "/"])) st)) fs')))
      as [[[e|] st1] ->]; eauto.
  - destruct (negb (isValidFilename _)); [eauto|].
    destruct (negb (HasPrefix _ localDir)); eauto.
Qed.

Lemma processLinks_returns (currentURL localDir : string) (links : list string) :
  forall st, exists st',
    processLinks w target recurse currentURL localDir depth links st = Some st'.
Proof.
  induction links as [|link links IH]; intros st; simpl; [eauto|].
  destruct (processLink_returns currentURL localDir link st) as [st1 ->].
  apply IH.
Qed.

Lemma handleResponse_returns (currentURL localDir path : string) (resp : Response.t)
    (st : State) :
  exists r, handleResponse w target recurse currentURL localDir depth path resp st = Some r.
Proof.
  unfold handleResponse.
  destruct (Contains _ "text/html"); [|eauto].
  destruct (parseDirectoryListing resp) as [[|l ls]|]; [eauto| |eauto].
  destruct (processLinks_returns currentURL localDir (l :: ls) st) as [st1 ->].
  eauto.
Qed.

End Level.

Lemma mirrorURLBody_returns (recurse : string -> string -> Z -> State -> Outcome)
    (depth : Z) (currentURL localDir : string) (st : State) :
  (depthReached target depth = false ->
   forall url dir st, exists r, recurse url dir (wrap64 (depth + 1)) st = Some r) ->
  exists r, mirrorURLBody w target recurse currentURL localDir depth st = Some r.
Proof.
  intros Hrec. unfold mirrorURLBody.
  destruct (depthReached target depth); [eauto|].
  destruct (ctxDone w (mach st)); [eauto|].
  destruct (urlPath w currentURL) as [path|]; [|eauto].
  destruct (fetchDirectoryListing _ _ _) as [[e|resp] m]; [eauto|].
  apply handleResponse_returns. apply Hrec. reflexivity.
Qed.

(** A recursion budget above what is left of the depth bound is enough. *)
Lemma mirrorURL_returns :
  0 <= Target.MaxDepth target < 2 ^ 63 ->
  forall (k : nat) (depth : Z),
    0 <= depth -> Target.MaxDepth target - depth <= Z.of_nat k ->
    forall currentURL localDir st,
    exists r, mirrorURL (S k) w target currentURL localDir depth st = Some r.
Proof.
  intros Hmax. induction k as [|k IH]; intros depth Hdepth Hk currentURL localDir st;
    cbn [mirrorURL]; apply mirrorURLBody_returns; intros Hd.
  - unfold depthReached in Hd. apply andb_false_iff in Hd as [Hd|Hd]; lia.
  - intros url dir st1.
    assert (Hlt : depth < Target.MaxDepth target).
    { unfold depthReached in Hd. apply andb_false_iff in Hd as [Hd|Hd]; lia. }
    assert (Hw : wrap64 (depth + 1) = depth + 1).
    { unfold wrap64. rewrite Z.mod_small; lia. }
    rewrite Hw. apply IH; lia.
Qed.

(** The result of a walk does not depend on the recursion budget, once
    the budget is enough. *)
Section Budget.
Variables recurse recurse' : string -> string -> Z -> State -> Outcome.
Hypothesis recurse_more :
  forall url dir depth st r, recurse url dir depth st = Some r ->
                             recurse' url dir depth st = Some r.

Lemma processLink_budget (currentURL localDir : string) (depth : Z) (link : string)
    (st st' : State) :
  processLink w target recurse currentURL localDir depth link st = Some st' ->
  processLink w target recurse' currentURL localDir depth link st = Some st'.
Proof.
  unfold processLink.
  destruct (resolveReference w currentURL link); [|auto].
  destruct (_ || _); [auto|].
  destruct (HasSuffix link "/"); [|auto].
  destruct (negb (isValidFilename _)); [auto|].
  destruct (negb (HasPrefix _ localDir)); [auto|].
  destruct (MkdirAll _ _ _) as [fs'|]; [|auto].
  destruct (recurse _ _ _ _) as [r|] eqn:Hr; [|discriminate].
  rewrite (recurse_more _ _ _ _ _ Hr). auto.
Qed.

Lemma processLinks_budget (currentURL localDir : string) (depth : Z)
    (links : list string) :
  forall st st',
    processLinks w target recurse currentURL localDir depth links st = Some st' ->
    processLinks w target recurse' currentURL localDir depth links st = Some st'.
Proof.
  induction links as [|link links IH]; intros st st'; simpl; [auto|].
  destruct (processLink w target recurse _ _ _ _ _) as [st1|] eqn:H1; [|discriminate].
  rewrite (processLink_budget _ _ _ _ _ _ H1). apply IH.
Qed.

Lemma mirrorURLBody_budget (currentURL localDir : string) (depth : Z) (st : State) r :
  mirrorURLBody w target recurse currentURL localDir depth st = Some r ->
  mirrorURLBody w target recurse' currentURL localDir depth st = Some r.
Proof.
  unfold mirrorURLBody.
  destruct (depthReached target depth); [auto|].
  destruct (ctxDone w (mach st)); [auto|].
  destruct (urlPath w currentURL) as [path|]; [|auto].
  destruct (fetchDirectoryListing _ _ _) as [[e|resp] m]; [auto|].
  unfold handleResponse.
  destruct (Contains _ "text/html"); [|auto].
  destruct (parseDirectoryListing resp) as [[|l ls]|]; [auto| |auto].
  destruct (processLinks w target recurse _ _ _ _ _) as [st1|] eqn:H1; [|discriminate].
  rewrite (processLinks_budget _ _ _ _ _ _ H1). auto.
Qed.

End Budget.

Lemma mirrorURL_budget (fuel : nat) :
  forall fuel' currentURL localDir depth st r,
    (fuel <= fuel')%nat ->
    mirrorURL fuel w target currentURL localDir depth st = Some r ->
    mirrorURL fuel' w target currentURL localDir depth st = Some r.
Proof.
  induction fuel as [|fuel IH]; intros fuel' currentURL localDir depth st r Hle;
    [discriminate|].
  destruct fuel' as [|fuel']; [lia|]. cbn [mirrorURL].
  apply mirrorURLBody_budget. intros url dir d st1 r1. apply IH. lia.
Qed.

End Termination.

Section TerminationTheorem.
Import GoStrings Filepath OS Config HTTP Mirror Spec.

(** X7.  With a depth bound that is not negative, a run in which every
    request returns comes to an end whatever the server answers, also when
    the listings link to each other without end: the recursion of
    [mirrorURL] is at most [MaxDepth] calls deep.  A recursion budget above
    [MaxDepth] gives the result of the run, and every such budget gives the
    same. *)
Theorem bounded_run_returns (w : World) (cfg : Config) (target : Target.t)
    (m : Machine) :
  0 <= Target.MaxDepth target < 2 ^ 63 ->
  exists r, forall fuel : nat,
      Target.MaxDepth target < Z.of_nat fuel ->
      MirrorTarget fuel w cfg target m = Some r.
Proof.
  intros Hmax.
  assert (Hrun : forall dir st, exists r, forall fuel : nat,
               Target.MaxDepth target < Z.of_nat fuel ->
               mirrorURL fuel w target (Target.URL target) dir 0 st = Some r).
  { intros dir st.
    destruct (mirrorURL_returns w target Hmax (Z.to_nat (Target.MaxDepth target)) 0
                ltac:(lia) ltac:(lia) (Target.URL target) dir st) as [r Hr].
    exists r. intros fuel Hfuel.
    eapply mirrorURL_budget; [|exact Hr]. lia. }
  unfold MirrorTarget. cbn [emit fs clock trace].
  destruct (MkdirAll _ _ _) as [fs'|]; [|eauto].
  match goal with
  | |- context [mirrorURL _ w target (Target.URL target) ?dir 0 ?st] =>
      destruct (Hrun dir st) as [[e st1] Hr]
  end.
  eexists. intros fuel Hfuel. rewrite (Hr fuel Hfuel). reflexivity.
Qed.

Lemma bounded_run_returns_witness :
  exists r, forall fuel : nat,
      2 < Z.of_nat fuel ->
      MirrorTarget fuel (Scenario.world Scenario.twoSubdirs None) Scenario.config
        (Scenario.target "http://h/" 2 true) (Scenario.boot 5000) = Some r.
Proof.
  apply (bounded_run_returns (Scenario.world Scenario.twoSubdirs None) Scenario.config
           (Scenario.target "http://h/" 2 true) (Scenario.boot 5000)).
  vm_compute. split; [discriminate | reflexivity].
Defined.

End TerminationTheorem.

(** ** Paths below a clean directory *)

Section PathFacts.
Import GoStrings Filepath OS Config HTTP Mirror Spec.

Lemma splitPath_app (a b : string) :
  forall cur, splitPath cur (a ++ String "/" b) = (splitPath cur a ++ splitPath "" b)%list.
Proof.
  induction a as [|c a IH]; intros cur; simpl; [reflexivity|].
  destruct (IsPathSeparator c); [rewrite IH; reflexivity | apply IH].
Qed.

Lemma Contains_cons_false (c : ascii) (s sub : string) :
  Contains (String c s) sub = false -> Contains s sub = false.
Proof. simpl. intros H. apply orb_false_iff in H as [_ H]. destruct s; exact H. Qed.

Lemma splitPath_simple (name : string) :
  Contains name "/" = false ->
  forall cur, splitPath cur name = [String.rev cur ++ name].
Proof.
  induction name as [|c name IH]; intros Hno cur; simpl.
  - rewrite append_nil_r. reflexivity.
  - assert (Hc : IsPathSeparator c = false).
    { simpl in Hno. apply orb_false_iff in Hno as [Hc _].
      unfold IsPathSeparator, Separator. destruct (Ascii.eqb c "/"); [discriminate|reflexivity]. }
    rewrite Hc, (IH (Contains_cons_false _ _ _ Hno)), rev_cons, append_assoc. reflexivity.
Qed.

Lemma joinElems_snoc (l : list string) (e : string) :
  l <> nil -> joinElems (l ++ [e]) = joinElems l ++ "/" ++ e.
Proof.
  induction l as [|x l IH]; intros Hl; [congruence|].
  destruct l as [|y l]; [reflexivity|].
  change (joinElems ((x :: y :: l) ++ [e])) with (x ++ "/" ++ joinElems ((y :: l) ++ [e])).
  rewrite IH by discriminate.
  change (joinElems (x :: y :: l)) with (x ++ "/" ++ joinElems (y :: l)).
  rewrite !append_assoc. reflexivity.
Qed.

(** What a valid name is not. *)
Lemma valid_name_simple (name : string) :
  isValidFilename name = true ->
  name <> "" /\ name <> ".." /\ Contains name "/" = false.
Proof.
  unfold isValidFilename.
  destruct (String.eqb_spec name "") as [|Hne]; [discriminate|]. cbn [orb].
  destruct (String.eqb (TrimSpace name) ""); [discriminate|].
  destruct (Contains name "..") eqn:Hdd; [discriminate|].
  destruct (Contains name "/") eqn:Hs; [discriminate|].
  intros _. split; [exact Hne|]. split; [|reflexivity].
  intros ->. discriminate.
Qed.

Lemma Clean_render (c : ascii) (d : string) :
  Clean (String c d)
  = render (IsPathSeparator c) (rev (stackOf (IsPathSeparator c) (String c d))).
Proof.
  unfold Clean, render, stackOf. destruct (IsPathSeparator c); reflexivity.
Qed.

(** One more element at the end of a path: one more step of the scan. *)
Lemma stackOf_child (rooted : bool) (d name : string) :
  Contains name "/" = false ->
  stackOf rooted (d ++ String "/" name) = cleanStep rooted (stackOf rooted d) name.
Proof.
  intros Hslash. unfold stackOf.
  rewrite splitPath_app, (splitPath_simple name Hslash ""), fold_left_app.
  reflexivity.
Qed.

Lemma cleanStep_name (rooted : bool) (out : list string) (name : string) :
  name <> "" -> name <> "." -> name <> ".." ->
  cleanStep rooted out name = name :: out.
Proof.
  intros H1 H2 H3. unfold cleanStep.
  destruct (String.eqb_spec name ""); [congruence|].
  destruct (String.eqb_spec name "."); [congruence|].
  destruct (String.eqb_spec name ".."); [congruence|].
  reflexivity.
Qed.

Lemma render_snoc (rooted : bool) (l : list string) (name : string) :
  l <> nil -> render rooted (l ++ [name]) = render rooted l ++ "/" ++ name.
Proof.
  intros Hl. unfold render. rewrite joinElems_snoc by exact Hl.
  destruct rooted.
  - rewrite append_assoc. reflexivity.
  - destruct l as [|x l]; [congruence|]. reflexivity.
Qed.

(** [filepath.Join] of a clean directory and a valid name: the directory
    itself for the name [.], the name below the directory otherwise.  The
    result starts with the directory and is clean. *)
Lemma Join_child (d name : string) :
  cleanDir d -> isValidFilename name = true ->
  HasPrefix (Join [d; name]) d = true /\ cleanDir (Join [d; name]).
Proof.
  intros [Hclean Hdot] Hvalid.
  destruct (valid_name_simple name Hvalid) as (Hne & Hdd & Hslash).
  destruct d as [|c d0]; [discriminate|].
  assert (HJ : Join [String c d0; name] = Clean (String c (d0 ++ String "/" name)))
    by reflexivity.
  rewrite HJ. clear HJ.
  assert (Hchild : Clean (String c (d0 ++ String "/" name))
                   = render (IsPathSeparator c)
                       (rev (cleanStep (IsPathSeparator c)
                               (stackOf (IsPathSeparator c) (String c d0)) name))).
  { rewrite Clean_render.
    change (String c (d0 ++ String "/" name)) with (String c d0 ++ String "/" name).
    rewrite (stackOf_child _ _ _ Hslash). reflexivity. }
  rewrite Clean_render in Hclean.
  set (S := stackOf (IsPathSeparator c) (String c d0)) in *.
  destruct (String.eqb_spec name ".") as [->|Hnd].
  { rewrite Hchild. unfold cleanStep. cbn [String.eqb Ascii.eqb Bool.eqb orb andb].
    rewrite Hclean. split; [apply HasPrefix_refl|].
    split; [|exact Hdot]. rewrite Clean_render. exact Hclean. }
  rewrite (cleanStep_name _ _ _ Hne Hnd Hdd) in Hchild. cbn [rev] in Hchild.
  destruct (rev S) as [|x l] eqn:HS.
  - (* the directory is the root *)
    destruct (IsPathSeparator c) eqn:Hroot; [|cbn in Hclean; congruence].
    cbn in Hclean. injection Hclean as <- <-.
    rewrite Hchild. cbn [app render joinElems].
    split; [reflexivity|]. split; [|destruct name; discriminate].
    change ("/" ++ name) with (String "/" name).
    rewrite Clean_render. change (IsPathSeparator "/") with true.
    unfold stackOf. cbn [splitPath]. change (IsPathSeparator "/") with true.
    cbn iota. rewrite (splitPath_simple name Hslash "").
    cbn [String.rev String.rev_app String.append fold_left].
    unfold cleanStep at 2. cbn [String.eqb orb].
    rewrite (cleanStep_name _ _ _ Hne Hnd Hdd). reflexivity.
  - rewrite render_snoc in Hchild by discriminate.
    rewrite Hclean in Hchild.
    split; [rewrite Hchild; apply HasPrefix_spec; eexists; reflexivity|].
    split.
    + rewrite Hchild at 2. rewrite Hchild. exact Hchild.
    + rewrite Hchild. cbn [String.append]. intros [= _ H]. destruct d0; discriminate.
Qed.

End PathFacts.

(** ** [filepath.Clean] is idempotent *)

Section CleanFacts.
Import GoStrings Filepath OS Config HTTP Mirror Spec.

Lemma Contains_sep_cons (c : ascii) (s : string) :
  Contains (String c s) "/" = IsPathSeparator c || Contains s "/".
Proof.
  cbn [Contains HasPrefix]. unfold IsPathSeparator, Separator.
  rewrite andb_true_r. destruct s; reflexivity.
Qed.

Lemma Contains_sep_app (a b : string) :
  Contains (a ++ b) "/" = Contains a "/" || Contains b "/".
Proof.
  induction a as [|c a IH]; [reflexivity|].
  cbn [String.append]. rewrite !Contains_sep_cons, IH, orb_assoc. reflexivity.
Qed.

Lemma Contains_sep_rev (a : string) : Contains (String.rev a) "/" = Contains a "/".
Proof.
  induction a as [|c a IH]; [reflexivity|].
  rewrite rev_cons, Contains_sep_app, !Contains_sep_cons, IH.
  cbn [Contains HasPrefix]. rewrite orb_false_r. apply orb_comm.
Qed.

(** The elements of a path hold no separator. *)
Lemma splitPath_no_sep (s : string) :
  forall cur, Contains cur "/" = false ->
              Forall (fun e => Contains e "/" = false) (splitPath cur s).
Proof.
  induction s as [|c s IH]; intros cur Hcur; cbn [splitPath].
  - constructor; [|constructor]. rewrite Contains_sep_rev. exact Hcur.
  - destruct (IsPathSeparator c) eqn:Hc.
    + constructor; [rewrite Contains_sep_rev; exact Hcur | apply IH; reflexivity].
    + apply IH. rewrite Contains_sep_cons, Hc, Hcur. reflexivity.
Qed.

Lemma cleanStack_nil (rooted : bool) : cleanStack rooted nil.
Proof. exists nil, 0%nat. split; [reflexivity|]. split; [constructor | reflexivity]. Qed.

Lemma cleanStep_cleanStack (rooted : bool) (out : list string) (e : string) :
  Contains e "/" = false -> cleanStack rooted out -> cleanStack rooted (cleanStep rooted out e).
Proof.
  intros He (k & n & -> & Hk & Hn). unfold cleanStep.
  destruct (String.eqb_spec e "") as [|H1]; [exists k, n; auto|].
  destruct (String.eqb_spec e ".") as [|H2]; [exists k, n; auto|]. cbn [orb].
  destruct (String.eqb_spec e "..") as [->|H3].
  - destruct k as [|top k].
    + destruct n as [|n]; cbn [app repeat].
      * destruct rooted; [apply cleanStack_nil|].
        exists nil, 1%nat. split; [reflexivity|]. split; [constructor | discriminate].
      * cbn [String.eqb Ascii.eqb Bool.eqb andb].
        exists nil, (S (S n)). split; [reflexivity|]. split; [constructor|].
        intros Hr. specialize (Hn Hr). discriminate.
    + cbn [app]. inversion Hk as [|? ? Htop Hk']; subst.
      destruct (String.eqb_spec top "..") as [->|_].
      * destruct Htop as (_ & _ & Hdd & _). congruence.
      * exists k, n. auto.
  - exists (e :: k), n. split; [reflexivity|]. split; [|exact Hn].
    constructor; [|exact Hk]. repeat split; assumption.
Qed.

Lemma fold_cleanStack (rooted : bool) (l : list string) :
  Forall (fun e => Contains e "/" = false) l ->
  forall out, cleanStack rooted out -> cleanStack rooted (fold_left (cleanStep rooted) l out).
Proof.
  induction 1 as [|e l He Hl IH]; intros out Hout; cbn [fold_left]; [exact Hout|].
  apply IH, cleanStep_cleanStack; assumption.
Qed.

Lemma stackOf_cleanStack (rooted : bool) (path : string) :
  cleanStack rooted (stackOf rooted path).
Proof.
  apply fold_cleanStack; [apply splitPath_no_sep; reflexivity | apply cleanStack_nil].
Qed.

(** The scan of the elements of a clean stack, bottom first, builds the
    stack again. *)
Lemma fold_dots (n : nat) :
  forall m, fold_left (cleanStep false) (repeat ".." n) (repeat ".." m)
            = repeat ".." (n + m).
Proof.
  induction n as [|n IH]; intros m; [reflexivity|].
  cbn [repeat fold_left].
  assert (Hstep : cleanStep false (repeat ".." m) ".." = repeat ".." (S m))
    by (destruct m; reflexivity).
  rewrite Hstep, IH. f_equal. lia.
Qed.

Lemma fold_plain (rooted : bool) (k : list string) :
  Forall plain k ->
  forall base, fold_left (cleanStep rooted) (rev k) base = (k ++ base)%list.
Proof.
  induction 1 as [|e k He Hk IH]; intros base; [reflexivity|].
  cbn [rev]. rewrite fold_left_app, IH. cbn [fold_left].
  destruct He as (H1 & H2 & H3 & _). apply cleanStep_name; assumption.
Qed.

Lemma rev_dots (n : nat) : rev (repeat ".." n) = repeat ".." n.
Proof.
  induction n as [|n IH]; [reflexivity|].
  cbn [repeat rev]. rewrite IH. symmetry. apply repeat_cons.
Qed.

Lemma fold_cleanStack_rev (rooted : bool) (out : list string) :
  cleanStack rooted out -> fold_left (cleanStep rooted) (rev out) nil = out.
Proof.
  intros (k & n & -> & Hk & Hn).
  rewrite List.rev_app_distr, rev_dots, fold_left_app.
  destruct rooted.
  - rewrite (Hn eq_refl). cbn [repeat fold_left]. apply fold_plain. exact Hk.
  - change (@nil string) with (repeat ".." 0) at 1.
    rewrite fold_dots, Nat.add_0_r. apply fold_plain. exact Hk.
Qed.

Lemma cleanStack_no_sep (rooted : bool) (out : list string) :
  cleanStack rooted out -> Forall (fun e => Contains e "/" = false) out.
Proof.
  intros (k & n & -> & Hk & _). apply List.Forall_app. split.
  - eapply List.Forall_impl; [|exact Hk]. intros e (_ & _ & _ & H). exact H.
  - apply List.Forall_forall. intros e He. apply repeat_spec in He. subst. reflexivity.
Qed.

Lemma cleanStack_nonempty (rooted : bool) (out : list string) :
  cleanStack rooted out -> Forall (fun e => e <> "") out.
Proof.
  intros (k & n & -> & Hk & _). apply List.Forall_app. split.
  - eapply List.Forall_impl; [|exact Hk]. intros e (H & _). exact H.
  - apply List.Forall_forall. intros e He. apply repeat_spec in He. subst. discriminate.
Qed.

Lemma splitPath_joinElems (l : list string) :
  Forall (fun e => Contains e "/" = false) l -> l <> nil ->
  splitPath "" (joinElems l) = l.
Proof.
  induction 1 as [|e l He Hl IH]; intros Hne; [congruence|].
  destruct l as [|y l].
  - cbn [joinElems]. apply (splitPath_simple e He "").
  - change (joinElems (e :: y :: l)) with (e ++ String "/" (joinElems (y :: l))).
    rewrite splitPath_app, (splitPath_simple e He ""), IH by discriminate.
    reflexivity.
Qed.

Lemma stackOf_joinElems (rooted : bool) (l : list string) :
  cleanStack rooted (rev l) -> stackOf rooted (joinElems l) = rev l.
Proof.
  intros Hl. unfold stackOf. destruct l as [|x l]; [reflexivity|].
  rewrite splitPath_joinElems.
  - rewrite <- (List.rev_involutive (x :: l)) at 1. apply fold_cleanStack_rev. exact Hl.
  - apply cleanStack_no_sep in Hl. apply List.Forall_rev in Hl.
    rewrite List.rev_involutive in Hl. exact Hl.
  - discriminate.
Qed.

Lemma Clean_idempotent (path : string) : Clean (Clean path) = Clean path.
Proof.
  destruct path as [|c p]; [reflexivity|].
  rewrite (Clean_render c p).
  pose proof (stackOf_cleanStack (IsPathSeparator c) (String c p)) as HS.
  set (S := stackOf (IsPathSeparator c) (String c p)) in *.
  assert (HL : cleanStack (IsPathSeparator c) (rev (rev S)))
    by (rewrite List.rev_involutive; exact HS).
  pose proof (List.Forall_rev (cleanStack_nonempty _ _ HS)) as Hne.
  pose proof (List.Forall_rev (cleanStack_no_sep _ _ HS)) as Hns.
  destruct (IsPathSeparator c) eqn:Hroot; unfold render.
  - change ("/" ++ joinElems (rev S)) with (String "/" (joinElems (rev S))).
    rewrite Clean_render. change (IsPathSeparator "/") with true.
    assert (Hst : stackOf true (String "/" (joinElems (rev S)))
                  = stackOf true (joinElems (rev S))) by reflexivity.
    rewrite Hst, (stackOf_joinElems true _ HL), !List.rev_involutive. reflexivity.
  - destruct (rev S) as [|x l] eqn:HrS; [reflexivity|].
    assert (Hx : exists c' x', x = String c' x' /\ IsPathSeparator c' = false).
    { apply List.Forall_inv in Hne. apply List.Forall_inv in Hns.
      cbn beta in Hne, Hns. rename Hns into Hs.
      destruct x as [|c' x']; [congruence|]. exists c', x'. split; [reflexivity|].
      rewrite Contains_sep_cons in Hs. apply orb_false_iff in Hs as [Hs _]. exact Hs. }
    destruct Hx as (c' & x' & -> & Hc').
    assert (Hform : exists rest, joinElems (String c' x' :: l) = String c' rest).
    { destruct l; cbn [joinElems String.append]; eauto. }
    destruct Hform as [rest Hform].
    rewrite Hform at 1. rewrite Clean_render, Hc', <- Hform.
    rewrite (stackOf_joinElems false _ HL), !List.rev_involutive. reflexivity.
Qed.

(** What [filepath.Join] returns is clean, the empty result apart. *)
Lemma Join_clean (elem : list string) : Join elem <> "" -> Clean (Join elem) = Join elem.
Proof.
  induction elem as [|e elem IH]; cbn [Join]; [congruence|].
  destruct (String.eqb e ""); [exact IH|]. intros _. apply Clean_idempotent.
Qed.

End CleanFacts.

(** ** The containment check in a run *)

Section Requests.
Import GoStrings Filepath OS Config HTTP Mirror Spec.

Lemma Do_sends (w : World) (method url : string) (m m' : Machine) r :
  Do w method url m = (r, m') -> grows isRequest m m'.
Proof.
  intros H. apply Do_requests in H.
  eapply grows_weaken; [|exact H]. intros e <-. exact I.
Qed.

Lemma CheckFileInfo_sends (w : World) (url : string) (m m' : Machine) r :
  CheckFileInfo w url m = (r, m') -> grows isRequest m m'.
Proof.
  unfold CheckFileInfo. destruct (urlPath w url).
  - destruct (Do w "HEAD" url m) as [[e|resp] m1] eqn:HDo;
      apply Do_sends in HDo.
    + intros [= _ <-]. exact HDo.
    + destruct (negb _); intros [= _ <-]; exact HDo.
  - intros [= _ <-]. apply grows_refl.
Qed.

Lemma transfer_sends (w : World) (config : Target.t) (url localPath : string)
    (m m' : Machine) r :
  transfer w config url localPath m = (r, m') -> grows isRequest m m'.
Proof.
  unfold transfer.
  destruct (MkdirAll _ _ _) as [fs1|]; [|intros [= _ <-]; apply grows_refl].
  cbn [setFS fs clock trace].
  destruct (Create _ _ _) as [fs2|]; [|intros [= _ <-]; apply grows_same; reflexivity].
  destruct (urlPath w url); [|intros [= _ <-]; apply grows_same; reflexivity].
  destruct (Do w "GET" url _) as [[e|resp] m1] eqn:HDo; apply Do_sends in HDo.
  - intros [= _ <-]. exact HDo.
  - destruct (negb _); [intros [= _ <-]; exact HDo|].
    destruct (negb _); [intros [= _ <-]; exact HDo|].
    destruct (Response.BodyErr resp); [intros [= _ <-]; exact HDo|].
    destruct (Response.LastModified resp); intros [= _ <-]; exact HDo.
Qed.

Lemma DownloadFile_sends (w : World) (config : Target.t) (url localPath : string)
    (m m' : Machine) r :
  DownloadFile w config url localPath m = (r, m') -> grows isRequest m m'.
Proof.
  unfold DownloadFile. destruct (Target.CheckChanges config);
    [|apply transfer_sends].
  destruct (CheckFileInfo w url m) as [[e|info] m1] eqn:HC;
    apply CheckFileInfo_sends in HC.
  - intros [= _ <-]. exact HC.
  - destruct (NeedsUpdate _ _ _) as [e|[|]].
    + intros [= _ <-]. exact HC.
    + intros Ht. apply transfer_sends in Ht. eapply grows_trans; eassumption.
    + intros [= _ <-]. exact HC.
Qed.

Lemma upToDate_sends (w : World) (target : Target.t) (url localPath : string)
    (m m' : Machine) b :
  upToDate w target url localPath m = (b, m') -> grows isRequest m m'.
Proof.
  unfold upToDate. destruct (Target.CheckChanges target);
    [|intros [= _ <-]; apply grows_refl].
  destruct (CheckFileInfo w url m) as [[e|info] m1] eqn:HC;
    apply CheckFileInfo_sends in HC.
  - intros [= _ <-]. exact HC.
  - destruct (NeedsUpdate _ _ _); intros [= _ <-]; exact HC.
Qed.

(** [downloadFile] logs nothing and sends requests only. *)
Lemma downloadFile_sends (w : World) (target : Target.t) (url localPath : string)
    (st st' : State) r :
  downloadFile w target url localPath st = (r, st') ->
  grows isRequest (mach st) (mach st').
Proof.
  unfold downloadFile.
  destruct (upToDate _ _ _ _ _) as [[|] m1] eqn:HU; apply upToDate_sends in HU.
  - intros [= _ <-]. exact HU.
  - destruct (DownloadFile _ _ _ _ _) as [[e|] m2] eqn:HD;
      apply DownloadFile_sends in HD.
    + intros [= _ <-]. eapply grows_trans; eassumption.
    + destruct (Stat _ _); intros [= _ <-]; eapply grows_trans; eassumption.
Qed.

End Requests.

Section InBounds.
Import GoStrings Filepath OS Config HTTP Mirror Spec.

Variable w : World.
Variable target : Target.t.

Lemma request_inBounds (e : Event) : isRequest e -> inBounds e.
Proof. destruct e; simpl; try tauto. reflexivity. Qed.

Lemma downloadLogged_inBounds (o : Origin) (url localPath : string) (st : State) :
  grows inBounds (mach st) (mach (downloadLogged w target o url localPath st)).
Proof.
  unfold downloadLogged.
  destruct (downloadFile _ _ _ _ _) as [[e|] st1] eqn:HD;
    apply downloadFile_sends in HD;
    apply (grows_weaken _ inBounds _ _ request_inBounds) in HD.
  - apply grows_trans with (mach (note (EvDownload o url localPath) st)).
    + eapply grows_emit; reflexivity.
    + apply grows_trans with (mach st1); [exact HD|].
      eapply grows_emit; reflexivity.
  - apply grows_trans with (mach (note (EvDownload o url localPath) st)).
    + eapply grows_emit; reflexivity.
    + exact HD.
Qed.

Section Level.
Variable recurse : string -> string -> Z -> State -> Outcome.
Hypothesis recurse_inBounds :
  forall url dir depth st r st',
    cleanDir dir -> recurse url dir depth st = Some (r, st') ->
    grows inBounds (mach st) (mach st').

Lemma processLink_inBounds (currentURL localDir : string) (depth : Z)
    (link : string) (st st' : State) :
  cleanDir localDir ->
  processLink w target recurse currentURL localDir depth link st = Some st' ->
  grows inBounds (mach st) (mach st').
Proof.
  intros Hclean. unfold processLink.
  destruct (resolveReference w currentURL link) as [absoluteURL|];
    [|intros [= <-]; apply grows_refl].
  destruct (_ || _); [intros [= <-]; apply grows_refl|].
  destruct (HasSuffix link "/").
  - destruct (isValidFilename (TrimSuffix link "/")) eqn:Hvalid; cbn [negb].
    2:{ intros [= <-]. eapply grows_emit; reflexivity. }
    destruct (Join_child localDir _ Hclean Hvalid) as [Hin Hsub].
    rewrite Hin. cbn [negb].
    cbn [note setMach mach emit clock fs].
    assert (Hmk : grows inBounds (mach st)
                    (emit (EvMkdirAll (Join [localDir; TrimSuffix link "/"])) (mach st)))
      by (eapply grows_emit; reflexivity).
    destruct (MkdirAll _ _ _) as [fs'|]; [|intros [= <-]; exact Hmk].
    destruct (recurse _ _ _ _) as [[r st1]|] eqn:Hrec; [|discriminate].
    apply (recurse_inBounds _ _ _ _ _ _ Hsub) in Hrec.
    assert (Hst1 : grows inBounds (mach st) (mach st1))
      by (eapply grows_trans; [exact Hmk | exact Hrec]).
    destruct r; intros [= <-]; [|exact Hst1].
    eapply grows_trans; [exact Hst1|]. eapply grows_emit; reflexivity.
  - destruct (isValidFilename (Base link)) eqn:Hvalid; cbn [negb].
    2:{ intros [= <-]. eapply grows_emit; reflexivity. }
    destruct (Join_child localDir _ Hclean Hvalid) as [Hin _].
    rewrite Hin. cbn [negb].
    intros [= <-]. apply downloadLogged_inBounds.
Qed.

Lemma processLinks_inBounds (currentURL localDir : string) (depth : Z)
    (links : list string) :
  cleanDir localDir ->
  forall st st',
    processLinks w target recurse currentURL localDir depth links st = Some st' ->
    grows inBounds (mach st) (mach st').
Proof.
  intros Hclean. induction links as [|link links IH]; intros st st'; simpl.
  - intros [= <-]. apply grows_refl.
  - destruct (processLink _ _ _ _ _ _ _ _) as [st1|] eqn:H1; [|discriminate].
    intros H2. eapply grows_trans.
    + eapply processLink_inBounds; eassumption.
    + apply IH. exact H2.
Qed.

Lemma mirrorURLBody_inBounds (currentURL localDir : string) (depth : Z)
    (st st' : State) r :
  cleanDir localDir ->
  mirrorURLBody w target recurse currentURL localDir depth st = Some (r, st') ->
  grows inBounds (mach st) (mach st').
Proof.
  intros Hclean. unfold mirrorURLBody.
  destruct (depthReached target depth); [intros [= _ <-]; apply grows_refl|].
  destruct (ctxDone w (mach st)); [intros [= _ <-]; apply grows_refl|].
  assert (Hp : grows inBounds (mach st) (mach (pace target depth st)))
    by (apply grows_same, pace_trace).
  destruct (urlPath w currentURL) as [path|] eqn:Hpath; [|intros [= _ <-]; exact Hp].
  unfold fetchDirectoryListing. rewrite Hpath.
  destruct (Do w "GET" currentURL _) as [[e|resp] m] eqn:HDo;
    apply Do_sends in HDo;
    apply (grows_weaken _ inBounds _ _ request_inBounds) in HDo.
  - intros [= _ <-]. eapply grows_trans; eassumption.
  - assert (H0 : grows inBounds (mach st) m) by (eapply grows_trans; eassumption).
    unfold handleResponse. destruct (Contains _ "text/html").
    + destruct (parseDirectoryListing resp) as [[|l ls]|].
      * intros [= _ <-]. eapply grows_trans; [exact H0|].
        apply (downloadLogged_inBounds _ _ _ (setMach (pace target depth st) m)).
      * destruct (processLinks _ _ _ _ _ _ _ _) as [st1|] eqn:H1; [|discriminate].
        intros [= _ <-]. eapply grows_trans; [exact H0|].
        apply (processLinks_inBounds _ _ _ _ Hclean _ _ H1).
      * intros [= _ <-]. eapply grows_trans; [exact H0|].
        eapply grows_emit; reflexivity.
    + intros [= _ <-]. eapply grows_trans; [exact H0|].
      apply (downloadLogged_inBounds _ _ _ (setMach (pace target depth st) m)).
Qed.

End Level.

Lemma mirrorURL_inBounds (fuel : nat) :
  forall currentURL localDir depth st r st',
    cleanDir localDir ->
    mirrorURL fuel w target currentURL localDir depth st = Some (r, st') ->
    grows inBounds (mach st) (mach st').
Proof.
  induction fuel as [|fuel IH]; intros currentURL localDir depth st r st' Hclean;
    [discriminate|].
  cbn [mirrorURL]. apply mirrorURLBody_inBounds; assumption.
Qed.

End InBounds.

Section InBoundsTheorem.
Import GoStrings Filepath OS Config HTTP Mirror Spec.

(** X8.  The containment check of [mirrorURL] rejects no link in a run
    whose target directory is neither empty nor the current directory [.]:
    the directory of every level of the walk is a clean path, and a name
    that passes [isValidFilename], joined to a clean directory, gives the
    directory itself or a path below it.  No warning of the check is
    logged (and so the check adds nothing to the error counter). *)
Theorem containment_check_never_fires (fuel : nat) (w : World) (cfg : Config)
    (target : Target.t) (m : Machine) r st' :
  Join [MirrorSection.DataPath (Mirror cfg); Target.Name target] <> "" ->
  Join [MirrorSection.DataPath (Mirror cfg); Target.Name target] <> "." ->
  MirrorTarget fuel w cfg target m = Some (r, st') ->
  grows inBounds m (mach st').
Proof.
  intros Hne Hdot. unfold MirrorTarget.
  set (root := Join [MirrorSection.DataPath (Mirror cfg); Target.Name target]) in *.
  assert (Hroot : cleanDir root) by (split; [apply Join_clean; exact Hne | exact Hdot]).
  cbn [emit fs clock trace].
  assert (Hmk : forall f, grows inBounds m
                  {| fs := f; clock := clock m; trace := EvMkdirAll root :: trace m |})
    by (intros f; eapply grows_emit; reflexivity).
  destruct (MkdirAll _ _ _) as [fs'|].
  - destruct (mirrorURL _ _ _ _ _ _ _) as [[e st1]|] eqn:Hrun; [|discriminate].
    apply (mirrorURL_inBounds w target fuel _ _ _ _ _ _ Hroot) in Hrun.
    intros [= _ <-]. cbn [mach]. eapply grows_trans; [apply (Hmk fs')|exact Hrun].
  - intros [= _ <-]. apply Hmk.
Qed.

Lemma containment_check_never_fires_witness :
  exists r st',
    MirrorTarget 10 (Scenario.world Scenario.twoSubdirs None) Scenario.config
      (Scenario.target "http://h/" 5 true) (Scenario.boot 5000) = Some (r, st') /\
    Forall (fun e => boundsWarning e = false) (trace (mach st')).
Proof.
  destruct (MirrorTarget 10 (Scenario.world Scenario.twoSubdirs None) Scenario.config
              (Scenario.target "http://h/" 5 true) (Scenario.boot 5000))
    as [[r st']|] eqn:E; [|vm_compute in E; discriminate].
  exists r, st'. split; [reflexivity|].
  assert (Hne : Join [MirrorSection.DataPath (Mirror Scenario.config);
                      Target.Name (Scenario.target "http://h/" 5 true)] <> "")
    by (vm_compute; discriminate).
  assert (Hdot : Join [MirrorSection.DataPath (Mirror Scenario.config);
                       Target.Name (Scenario.target "http://h/" 5 true)] <> ".")
    by (vm_compute; discriminate).
  destruct (containment_check_never_fires 10 _ _ _ _ r st' Hne Hdot E)
    as (new & Htr & Hnew).
  rewrite Htr. cbn [Scenario.boot trace]. rewrite app_nil_r. exact Hnew.
Defined.

End InBoundsTheorem.

(** ** Loading the configuration *)

Section Loading.
Import GoStrings Filepath OS Config HTTP Mirror Spec.

(** X9.  [applyDefaults] is idempotent: a target that has taken the
    defaults is left as it is by a second application. *)
Theorem applyDefaults_idempotent (t : Target.t) (d : Defaults.t) :
  applyDefaults (applyDefaults t d) d = applyDefaults t d.
Proof.
  unfold applyDefaults. cbn [Target.Name Target.URL Target.UserAgent Target.RateLimit
    Target.Retries Target.MaxDepth Target.Timeout Target.WaitBetweenRequests
    Target.Timestamping Target.NoClobber Target.ContinueDownload Target.CheckChanges].
  f_equal.
  - destruct (String.eqb (Target.UserAgent t) "") eqn:E; [|rewrite E; reflexivity].
    destruct (String.eqb (Defaults.UserAgent d) ""); reflexivity.
  - destruct (String.eqb (Target.RateLimit t) "") eqn:E; [|rewrite E; reflexivity].
    destruct (String.eqb (Defaults.RateLimit d) ""); reflexivity.
  - destruct (Target.Retries t =? 0) eqn:E; [|rewrite E; reflexivity].
    destruct (Defaults.Retries d =? 0); reflexivity.
  - destruct (Target.MaxDepth t =? 0) eqn:E; [|rewrite E; reflexivity].
    destruct (Defaults.MaxDepth d =? 0); reflexivity.
  - destruct (Target.Timeout t =? 0) eqn:E; [|rewrite E; reflexivity].
    destruct (Defaults.Timeout d =? 0); reflexivity.
  - destruct (Target.WaitBetweenRequests t =? 0) eqn:E; [|rewrite E; reflexivity].
    destruct (Defaults.WaitBetweenRequests d =? 0); reflexivity.
  - destruct (Target.Timestamping t), (Defaults.Timestamping d); reflexivity.
  - destruct (Target.NoClobber t), (Defaults.NoClobber d); reflexivity.
  - destruct (Target.ContinueDownload t), (Defaults.ContinueDownload d); reflexivity.
  - destruct (Target.CheckChanges t), (Defaults.CheckChanges d); reflexivity.
Qed.

Lemma applyDefaults_switches (t : Target.t) (d : Defaults.t) :
  Target.Timestamping (applyDefaults t d) = Target.Timestamping t || Defaults.Timestamping d /\
  Target.NoClobber (applyDefaults t d) = Target.NoClobber t || Defaults.NoClobber d /\
  Target.ContinueDownload (applyDefaults t d)
  = Target.ContinueDownload t || Defaults.ContinueDownload d /\
  Target.CheckChanges (applyDefaults t d) = Target.CheckChanges t || Defaults.CheckChanges d.
Proof.
  unfold applyDefaults. cbn.
  destruct (Target.Timestamping t), (Target.NoClobber t), (Target.ContinueDownload t),
    (Target.CheckChanges t); cbn; auto.
Qed.

(** X10.  A target cannot switch off what the defaults switch on: in a
    loaded configuration, each of the four switches of a target is on
    whenever it is on in the defaults of the configuration, whatever the
    target itself says. *)
Theorem loaded_targets_inherit_switches (env : string -> string)
    (readConfig : string -> option ConfigFile) (cfg : Config) :
  LoadConfig env readConfig = Some cfg ->
  Forall (fun t =>
            (Defaults.Timestamping (Defaults_ cfg) = true -> Target.Timestamping t = true) /\
            (Defaults.NoClobber (Defaults_ cfg) = true -> Target.NoClobber t = true) /\
            (Defaults.ContinueDownload (Defaults_ cfg) = true ->
             Target.ContinueDownload t = true) /\
            (Defaults.CheckChanges (Defaults_ cfg) = true -> Target.CheckChanges t = true))
    (Targets cfg).
Proof.
  unfold LoadConfig.
  destruct (if String.eqb (env "CONFIG_FILE") "" then _ else _) as [loaded|];
    [|discriminate].
  intros [= <-]. cbn [Defaults_ Targets].
  apply List.Forall_forall. intros t Ht. apply in_map_iff in Ht as (t0 & <- & _).
  destruct (applyDefaults_switches t0 (Defaults_ loaded)) as (H1 & H2 & H3 & H4).
  rewrite H1, H2, H3, H4.
  repeat split; intros ->; apply orb_true_r.
Qed.

Lemma loaded_targets_inherit_switches_witness :
  let env := fun k : string => if String.eqb k "CONFIG_FILE" then "/etc/mirror.json" else "" in
  let file :=
    {| fileUserAgent := None; fileRateLimit := None; fileRetries := None;
       fileMaxDepth := None; fileTimeout := None; fileWaitBetweenRequests := None;
       fileTimestamping := None; fileNoClobber := None; fileContinueDownload := None;
       fileCheckChanges := None;
       fileTargets := Some [Scenario.target "http://h/" 2 false];
       fileDataPath := None; fileLogLevel := None |} in
  exists cfg,
    LoadConfig env (fun _ => Some file) = Some cfg /\
    Forall (fun t => Target.CheckChanges t = true) (Targets cfg).
Proof.
  intros env file.
  destruct (LoadConfig env (fun _ => Some file)) as [cfg|] eqn:E;
    [|vm_compute in E; discriminate].
  exists cfg. split; [reflexivity|].
  pose proof (loaded_targets_inherit_switches env (fun _ => Some file) cfg E) as H.
  assert (Hd : Defaults.CheckChanges (Defaults_ cfg) = true)
    by (vm_compute in E; injection E as <-; reflexivity).
  eapply List.Forall_impl; [|exact H]. intros t (_ & _ & _ & Hc). exact (Hc Hd).
Defined.

(** X11.  Without a configuration file, loading never fails.  The
    result has the built-in defaults and at most one target: none when
    [MIRROR_URL] is not set, and otherwise the target of that URL, named by
    [MIRROR_NAME] or [default], with every setting taken from the built-in
    defaults (depth 5, one second between requests, change detection
    on). *)
Theorem environment_configuration (env : string -> string)
    (readConfig : string -> option ConfigFile) :
  env "CONFIG_FILE" = "" ->
  exists cfg,
    LoadConfig env readConfig = Some cfg /\
    Defaults_ cfg = GetDefaults /\
    Targets cfg =
      (if String.eqb (env "MIRROR_URL") "" then nil
       else [ {| Target.Name := if String.eqb (env "MIRROR_NAME") "" then "default"
                                else env "MIRROR_NAME";
                 Target.URL := env "MIRROR_URL";
                 Target.UserAgent := Defaults.UserAgent GetDefaults;
                 Target.RateLimit := "500k";
                 Target.Retries := 3; Target.MaxDepth := 5; Target.Timeout := 30;
                 Target.WaitBetweenRequests := 1;
                 Target.Timestamping := true; Target.NoClobber := true;
                 Target.ContinueDownload := true; Target.CheckChanges := true |} ]).
Proof.
  intros Hfile. unfold LoadConfig. rewrite Hfile. cbn [String.eqb].
  eexists. split; [reflexivity|]. unfold loadFromEnv.
  destruct (String.eqb (env "MIRROR_URL") ""); cbn [Defaults_ Targets map].
  - split; reflexivity.
  - split; reflexivity.
Qed.

Lemma environment_configuration_witness :
  let env := fun k : string => if String.eqb k "MIRROR_URL" then "http://h/" else "" in
  exists cfg,
    LoadConfig env (fun _ => None) = Some cfg /\
    map Target.MaxDepth (Targets cfg) = [5] /\ map Target.Name (Targets cfg) = ["default"].
Proof.
  intros env.
  destruct (environment_configuration env (fun _ => None) eq_refl)
    as (cfg & H & _ & Ht).
  exists cfg. split; [exact H|]. rewrite Ht. split; reflexivity.
Defined.

End Loading.


(** ** [strings.ToLower] *)

Section LowerFacts.
Import GoStrings Mirror Spec.

Lemma dropBytes_nil (k : nat) : dropBytes k "" = "".
Proof. destruct k; reflexivity. Qed.

Lemma mapRunes_skip (mapping : N -> N) (k : nat) :
  forall s, mapRunes mapping k s = mapRunes mapping 0 (dropBytes k s).
Proof.
  induction k as [|k IH]; intros s; [destruct s; reflexivity|].
  destruct s as [|c s]; [reflexivity|]. cbn [mapRunes dropBytes]. apply IH.
Qed.

(** The width of a rune: at least one byte and no more than there are. *)
Lemma DecodeRune_width (c : ascii) (s : string) :
  (1 <= snd (DecodeRune (String c s)) <= String.length (String c s))%nat.
Proof.
  unfold DecodeRune, continuation.
  repeat match goal with
         | |- context [if ?b then _ else _] => destruct b
         | |- context [match ?x with "" => _ | String _ _ => _ end] => destruct x
         end; cbn [snd String.length]; lia.
Qed.

(** One step of [ToLower]: the first rune is mapped, and what is behind
    it is mapped in the same way. *)
Lemma ToLower_step (c : ascii) (s : string) :
  ToLower (String c s)
  = EncodeRune (ToLowerRune (fst (DecodeRune (String c s))))
    ++ ToLower (dropBytes (snd (DecodeRune (String c s))) (String c s)).
Proof.
  unfold ToLower at 1. cbn [mapRunes]. rewrite mapRunes_skip.
  pose proof (DecodeRune_width c s) as Hw.
  destruct (snd (DecodeRune (String c s))) as [|w]; [lia|].
  cbn [dropBytes]. replace (S w - 1)%nat with w by lia. reflexivity.
Qed.

Lemma lowerRune_ascii (c : ascii) :
  isASCII c = true ->
  EncodeRune (ToLowerRune (N_of_ascii c)) = String (lowerByte c) "".
Proof.
  destruct c as [[] [] [] [] [] [] [] []]; intros H; try discriminate H;
    vm_compute; reflexivity.
Qed.

Lemma ToLower_ascii_byte (c : ascii) (s : string) :
  isASCII c = true -> ToLower (String c s) = String (lowerByte c) (ToLower s).
Proof.
  intros Hc. rewrite ToLower_step.
  assert (HD : DecodeRune (String c s) = (N_of_ascii c, 1%nat)).
  { unfold DecodeRune. unfold isASCII in Hc. rewrite Hc. reflexivity. }
  rewrite HD. cbn [fst snd dropBytes]. rewrite (lowerRune_ascii c Hc). reflexivity.
Qed.

End LowerFacts.

Section RuneFacts.
Import GoStrings Mirror Spec.

Ltac boolN :=
  repeat match goal with
         | H : (_ && _) = true |- _ => apply andb_true_iff in H; destruct H
         | H : (_ || _) = false |- _ => apply orb_false_iff in H; destruct H
         | H : (_ && _) = false |- _ => apply andb_false_iff in H
         | H : (_ || _) = true |- _ => apply orb_true_iff in H
         | H : (_ <=? _)%N = true |- _ => apply N.leb_le in H
         | H : (_ <=? _)%N = false |- _ => apply N.leb_gt in H
         | H : (_ <? _)%N = true |- _ => apply N.ltb_lt in H
         | H : (_ <? _)%N = false |- _ => apply N.ltb_ge in H
         | H : (_ =? _)%N = true |- _ => apply N.eqb_eq in H
         | H : (_ =? _)%N = false |- _ => apply N.eqb_neq in H
         end.

Lemma byte_code (c : ascii) : (N_of_ascii c < 256)%N.
Proof. apply N_ascii_bounded. Qed.

Lemma byte_of_code (c : ascii) (n : N) : N_of_ascii c = n -> c = chr n.
Proof. intros <-. unfold chr. symmetry. apply ascii_N_embedding. Qed.

Lemma high_byte (n : N) : (128 <= n < 256)%N -> isASCII (chr n) = false.
Proof.
  intros Hn. unfold isASCII, chr. rewrite N_ascii_embedding by lia.
  apply N.ltb_ge. lia.
Qed.

(** Outside ASCII, only U+0130 and U+212A have an ASCII letter as their
    lower case. *)
Lemma ToLowerRune_ascii_image (r : N) :
  (128 <= r)%N -> (ToLowerRune r < 128)%N ->
  (r = 304 /\ ToLowerRune r = 105)%N \/ (r = 8490 /\ ToLowerRune r = 107)%N.
Proof.
  intros Hr. unfold ToLowerRune.
  assert (Hok : forallb (fun e : N * N * N * N =>
                           let '(first, last, step, image) := e in
                           (last <? 128) || (128 <=? image) ||
                           ((first =? last) &&
                            (((first =? 304) && (image =? 105)) ||
                             ((first =? 8490) && (image =? 107)))))%N
                  lowerRanges = true) by (vm_compute; reflexivity).
  destruct (List.find _ lowerRanges) as [[[[first last] step] image]|] eqn:Hf; [|lia].
  apply find_some in Hf as [Hin Hcond].
  rewrite forallb_forall in Hok. specialize (Hok _ Hin). cbn beta iota in Hok.
  intros Hlt.
  apply andb_true_iff in Hcond as [Hcond _].
  apply andb_true_iff in Hcond as [Hlo Hhi].
  apply N.leb_le in Hlo. apply N.leb_le in Hhi.
  apply orb_true_iff in Hok as [Hok|Hok].
  { apply orb_true_iff in Hok as [Hok|Hok];
      [apply N.ltb_lt in Hok | apply N.leb_le in Hok]; lia. }
  apply andb_true_iff in Hok as [Hsingle Hok]. apply N.eqb_eq in Hsingle.
  apply orb_true_iff in Hok as [Hok|Hok];
    apply andb_true_iff in Hok as [Hf Hi];
    apply N.eqb_eq in Hf; apply N.eqb_eq in Hi; subst.
  - left. split; [lia|]. replace (r - 304)%N with 0%N by lia. reflexivity.
  - right. split; [lia|]. replace (r - 8490)%N with 0%N by lia. reflexivity.
Qed.

(** The encoding of a rune outside ASCII has no ASCII byte. *)
Lemma EncodeRune_high (r : N) :
  (128 <= r)%N ->
  allBytes (fun c => negb (isASCII c)) (EncodeRune r) = true /\
  exists c t, EncodeRune r = String c t.
Proof.
  intros Hr. unfold EncodeRune.
  pose proof (N.mod_lt r 64 ltac:(lia)) as Hm0.
  pose proof (N.mod_lt (r / 64) 64 ltac:(lia)) as Hm1.
  pose proof (N.mod_lt (r / 4096) 64 ltac:(lia)) as Hm2.
  pose proof (N.le_0_l (r mod 64)) as Hp0.
  pose proof (N.le_0_l ((r / 64) mod 64)) as Hp1.
  pose proof (N.le_0_l ((r / 4096) mod 64)) as Hp2.
  pose proof (N.le_0_l (r / 64)) as Hq0.
  pose proof (N.le_0_l (r / 4096)) as Hq1.
  pose proof (N.le_0_l (r / 262144)) as Hq2.
  destruct (r <? 128)%N eqn:E1; [apply N.ltb_lt in E1; lia|].
  destruct (r <? 2048)%N eqn:E2.
  { apply N.ltb_lt in E2.
    assert (r / 64 < 32)%N by (apply N.Div0.div_lt_upper_bound; lia).
    split; [|eexists _, _; reflexivity]. cbn [bytes allBytes].
    rewrite !high_byte by lia. reflexivity. }
  destruct (_ || _)%N eqn:E3.
  { split; [reflexivity | eexists _, _; reflexivity]. }
  apply orb_false_iff in E3 as [E3 _]. apply N.ltb_ge in E3.
  destruct (r <? 65536)%N eqn:E4.
  { apply N.ltb_lt in E4.
    assert (r / 4096 < 16)%N by (apply N.Div0.div_lt_upper_bound; lia).
    split; [|eexists _, _; reflexivity]. cbn [bytes allBytes].
    rewrite !high_byte by lia. reflexivity. }
  assert (r / 262144 < 5)%N by (apply N.Div0.div_lt_upper_bound; lia).
  split; [|eexists _, _; reflexivity]. cbn [bytes allBytes].
  rewrite !high_byte by lia. reflexivity.
Qed.

(** A rune that starts with a byte outside ASCII is outside ASCII, and
    the two runes with an ASCII lower case are found by their bytes. *)
Lemma DecodeRune_high (c : ascii) (s : string) :
  isASCII c = false ->
  (128 <= fst (DecodeRune (String c s)))%N /\
  (fst (DecodeRune (String c s)) = 304%N ->
   String c s = dottedI ++ dropBytes (snd (DecodeRune (String c s))) (String c s)) /\
  (fst (DecodeRune (String c s)) = 8490%N ->
   String c s = kelvinSign ++ dropBytes (snd (DecodeRune (String c s))) (String c s)).
Proof.
  unfold isASCII. intros Hc. unfold DecodeRune, continuation. rewrite Hc.
  apply N.ltb_ge in Hc.
  repeat match goal with
         | |- context [(?a =? ?b)%N] => destruct (a =? b)%N eqn:?
         end.
  all: repeat match goal with
         | |- context [match ?x with "" => _ | String _ _ => _ end] =>
             destruct x as [|? ?]
         | |- context [if ?b then _ else _] => destruct b eqn:?
         end;
    cbn [fst snd]; unfold RuneError; boolN;
    (split; [lia|]); split; intros Hr; try lia.
  all: match goal with
       | |- String ?a (String ?b ?t) = dottedI ++ _ =>
           rewrite (byte_of_code a 196), (byte_of_code b 176) by lia; reflexivity
       | |- String ?a (String ?b (String ?d ?t)) = kelvinSign ++ _ =>
           rewrite (byte_of_code a 226), (byte_of_code b 132), (byte_of_code d 170) by lia;
           reflexivity
       end.
Qed.

End RuneFacts.

Section CaseFacts.
Import GoStrings Mirror Spec.

Lemma dropBytes_length (k : nat) :
  forall s, String.length (dropBytes k s) = (String.length s - k)%nat.
Proof.
  induction k as [|k IH]; intros s; [destruct s; cbn; lia|].
  destruct s as [|c s]; [reflexivity|]. cbn [dropBytes String.length]. rewrite IH. lia.
Qed.

Lemma dropBytes_app (k : nat) :
  forall a b, (k <= String.length a)%nat -> dropBytes k (a ++ b) = dropBytes k a ++ b.
Proof.
  induction k as [|k IH]; intros a b Hk; [destruct a, b; reflexivity|].
  destruct a as [|c a]; [cbn in Hk; lia|].
  cbn [String.append dropBytes]. apply IH. cbn in Hk. lia.
Qed.

Lemma dropBytes_split (k : nat) :
  forall s, exists v, s = v ++ dropBytes k s.
Proof.
  induction k as [|k IH]; intros s; [exists ""; destruct s; reflexivity|].
  destruct s as [|c s]; [exists ""; reflexivity|].
  destruct (IH s) as [v Hv]. exists (String c v). cbn [dropBytes String.append].
  congruence.
Qed.

(** *** Runes and what follows them *)

Lemma continuation_sub (lo hi : N) (s : string) :
  continuation 128 191 s = None -> (128 <= lo)%N -> (hi <= 191)%N ->
  continuation lo hi s = None.
Proof.
  unfold continuation. destruct s as [|c s]; [reflexivity|].
  destruct (_ && _) eqn:E; [discriminate|]. intros _ Hlo Hhi.
  destruct ((lo <=? _) && _)%N eqn:E'; [|reflexivity].
  apply andb_true_iff in E' as [H1 H2]. apply N.leb_le in H1. apply N.leb_le in H2.
  apply andb_false_iff in E as [E|E]; [apply N.leb_gt in E | apply N.leb_gt in E]; lia.
Qed.

Lemma continuation_app (lo hi : N) (a s : string) :
  continuation lo hi s = None ->
  continuation lo hi (a ++ s)
  = match continuation lo hi a with
    | Some (x, t) => Some (x, t ++ s)
    | None => None
    end.
Proof.
  intros Hs. destruct a as [|c a]; [exact Hs|].
  cbn [String.append continuation]. destruct (_ && _); reflexivity.
Qed.

(** The first rune of a text does not depend on what follows the text,
    when that does not start with a continuation byte. *)
Lemma DecodeRune_app (c : ascii) (a s : string) :
  continuation 128 191 s = None ->
  DecodeRune (String c a ++ s) = DecodeRune (String c a).
Proof.
  intros Hs. cbn [String.append]. unfold DecodeRune.
  repeat match goal with
         | |- context [(?x =? ?y)%N] => destruct (x =? y)%N
         end.
  all: repeat match goal with
         | |- context [if ?b then _ else _] => destruct b; try reflexivity
         end.
  all: repeat (rewrite continuation_app by (apply continuation_sub; [exact Hs|lia|lia]);
               match goal with
               | |- context [continuation ?lo ?hi ?t] =>
                   destruct (continuation lo hi t) as [[? ?]|]; try reflexivity
               end).
Qed.

(** [ToLower] of a text and of what follows it, when that does not start
    with a continuation byte. *)
Lemma ToLower_app (s : string) :
  continuation 128 191 s = None ->
  forall a, ToLower (a ++ s) = ToLower a ++ ToLower s.
Proof.
  intros Hs a. remember (String.length a) as n eqn:Hn. revert a Hn.
  induction n as [n IH] using lt_wf_ind. intros a Hn.
  destruct a as [|c a]; [reflexivity|].
  change (String c a ++ s) with (String c (a ++ s)) at 1.
  rewrite (ToLower_step c (a ++ s)), (ToLower_step c a).
  change (String c (a ++ s)) with (String c a ++ s).
  rewrite (DecodeRune_app c a s Hs).
  pose proof (DecodeRune_width c a) as Hw.
  rewrite dropBytes_app by lia.
  rewrite (IH (String.length (dropBytes (snd (DecodeRune (String c a))) (String c a))));
    [apply eq_sym, append_assoc | | reflexivity].
  rewrite dropBytes_length. subst n. lia.
Qed.

(** *** The letters of a word in either case *)

Lemma lower_variant_byte (c : ascii) :
  isASCII c = true -> isLower (lowerByte c) = true ->
  In (String c "") (caseVariants (lowerByte c)).
Proof.
  destruct c as [[] [] [] [] [] [] [] []]; intros H1 H2;
    try discriminate H1; try discriminate H2; vm_compute; auto.
Qed.

Lemma isLower_isASCII (x : ascii) : isLower x = true -> isASCII x = true.
Proof.
  destruct x as [[] [] [] [] [] [] [] []]; intros H; try discriminate H; reflexivity.
Qed.

Lemma lowerByte_variant (x : ascii) :
  isLower x = true ->
  lowerByte x = x /\ lowerByte (upperByte x) = x /\ isASCII (upperByte x) = true.
Proof.
  destruct x as [[] [] [] [] [] [] [] []]; intros H; try discriminate H;
    repeat split; reflexivity.
Qed.

(** The first rune of a text under [ToLower]: a rune that becomes the
    ASCII byte [x], which is then written as a variant of [x], or a rune that
    becomes bytes outside ASCII. *)
Lemma ToLower_first (c : ascii) (s : string) :
  exists v rest,
    String c s = v ++ rest /\
    (String.length rest < String.length (String c s))%nat /\
    ((exists x,
         ToLower (String c s) = String x (ToLower rest) /\
         (isLower x = true -> In v (caseVariants x))) \/
     (exists o out,
         ToLower (String c s) = String o out ++ ToLower rest /\
         allBytes (fun b => negb (isASCII b)) (String o out) = true)).
Proof.
  destruct (isASCII c) eqn:Hc.
  - exists (String c ""), s. split; [reflexivity|]. split; [cbn; lia|].
    left. exists (lowerByte c).
    split; [apply ToLower_ascii_byte, Hc|].
    apply lower_variant_byte, Hc.
  - pose proof (DecodeRune_width c s) as Hw.
    destruct (DecodeRune_high c s Hc) as (Hr & Hi & Hk).
    destruct (dropBytes_split (snd (DecodeRune (String c s))) (String c s)) as [v Hv].
    rewrite ToLower_step.
    destruct (N.ltb_spec (ToLowerRune (fst (DecodeRune (String c s)))) 128) as [Hlt|Hge].
    + destruct (ToLowerRune_ascii_image _ Hr Hlt) as [[Hrune ->]|[Hrune ->]].
      * exists dottedI, (dropBytes (snd (DecodeRune (String c s))) (String c s)).
        split; [exact (Hi Hrune)|]. split; [rewrite dropBytes_length; lia|].
        left. exists "i"%char. split; [reflexivity|]. intros _. vm_compute. auto.
      * exists kelvinSign, (dropBytes (snd (DecodeRune (String c s))) (String c s)).
        split; [exact (Hk Hrune)|]. split; [rewrite dropBytes_length; lia|].
        left. exists "k"%char. split; [reflexivity|]. intros _. vm_compute. auto.
    + exists v, (dropBytes (snd (DecodeRune (String c s))) (String c s)).
      split; [exact Hv|]. split; [rewrite dropBytes_length; lia|].
      right. destruct (EncodeRune_high _ Hge) as (Hall & o & out & Hout).
      rewrite Hout in *. exists o, out. split; [reflexivity | exact Hall].
Qed.

Lemma AnyCase_prefix (word : string) :
  allBytes isLower word = true ->
  forall s, HasPrefix (ToLower s) word = true ->
            exists w b, s = w ++ b /\ AnyCase word w.
Proof.
  induction word as [|x word IH]; intros Hword s Hp.
  - exists "", s. split; reflexivity.
  - cbn [allBytes] in Hword. apply andb_true_iff in Hword as [Hx Hword].
    destruct s as [|c s]; [discriminate Hp|].
    destruct (ToLower_first c s)
      as (v & rest & Hs & _ & [(x' & HT & Hv)|(o & out & HT & Hall)]).
    + rewrite HT in Hp. cbn [HasPrefix] in Hp.
      apply andb_true_iff in Hp as [Hxx Hp]. apply Ascii.eqb_eq in Hxx. subst x'.
      destruct (IH Hword rest Hp) as (w & b & -> & Hw).
      exists (v ++ w), b. split; [rewrite Hs; symmetry; apply append_assoc|].
      cbn [AnyCase]. exists v, w. auto.
    + rewrite HT in Hp. cbn [String.append HasPrefix] in Hp.
      apply andb_true_iff in Hp as [Hxx _]. apply Ascii.eqb_eq in Hxx. subst o.
      cbn [allBytes] in Hall. apply andb_true_iff in Hall as [Ho _].
      rewrite (isLower_isASCII x Hx) in Ho. discriminate.
Qed.

Lemma Contains_high (word out U : string) (x : ascii) :
  isASCII x = true -> allBytes (fun b => negb (isASCII b)) out = true ->
  Contains (out ++ U) (String x word) = true -> Contains U (String x word) = true.
Proof.
  intros Hx. induction out as [|o out IH]; intros Hall H; [exact H|].
  cbn [allBytes] in Hall. apply andb_true_iff in Hall as [Ho Hall].
  cbn [String.append Contains HasPrefix] in H.
  destruct (Ascii.eqb_spec o x) as [->|_].
  { rewrite Hx in Ho. discriminate. }
  cbn [andb orb] in H. apply IH; [exact Hall|].
  destruct (out ++ U); exact H.
Qed.

(** A word of lower-case letters found in the lower case of a text is
    written in the text in some case. *)
Lemma AnyCase_contained (x : ascii) (word : string) :
  allBytes isLower (String x word) = true ->
  forall s, Contains (ToLower s) (String x word) = true ->
            exists a w b, s = a ++ w ++ b /\ AnyCase (String x word) w.
Proof.
  intros Hword s. remember (String.length s) as n eqn:Hn. revert s Hn.
  induction n as [n IH] using lt_wf_ind. intros s Hn Hc.
  destruct s as [|c s]; [discriminate Hc|].
  destruct (HasPrefix (ToLower (String c s)) (String x word)) eqn:Hp.
  { destruct (AnyCase_prefix _ Hword _ Hp) as (w & b & Hs & Hw).
    exists "", w, b. split; [exact Hs | exact Hw]. }
  pose proof Hword as Hx. cbn [allBytes] in Hx. apply andb_true_iff in Hx as [Hx _].
  destruct (ToLower_first c s)
    as (v & rest & Hs & Hlen & Hcase).
  assert (Hrest : Contains (ToLower rest) (String x word) = true).
  { destruct Hcase as [(x' & HT & _)|(o & out & HT & Hall)].
    - rewrite HT in Hc, Hp. cbn [Contains] in Hc. rewrite Hp in Hc.
      cbn [orb] in Hc. destruct (ToLower rest); exact Hc.
    - rewrite HT in Hc.
      eapply Contains_high; [apply isLower_isASCII, Hx | exact Hall | exact Hc]. }
  destruct (IH _ ltac:(subst n; exact Hlen) rest eq_refl Hrest) as (a & w & b & Hr & Hw).
  exists (v ++ a), w, b. split; [|exact Hw].
  rewrite Hs, Hr. symmetry. apply append_assoc.
Qed.

(** The lower case of a word written in some case is the word, and the
    word starts with no continuation byte. *)
Lemma AnyCase_ToLower (word : string) :
  allBytes isLower word = true ->
  forall w b, AnyCase word w ->
              ToLower (w ++ b) = word ++ ToLower b /\
              (word <> "" -> continuation 128 191 (w ++ b) = None).
Proof.
  induction word as [|x word IH]; intros Hword w b Hw.
  - cbn [AnyCase] in Hw. subst w. split; [reflexivity | congruence].
  - cbn [allBytes] in Hword. apply andb_true_iff in Hword as [Hx Hword].
    destruct Hw as (v & w' & Hv & -> & Hw').
    destruct (IH Hword w' b Hw') as [HT _].
    destruct (lowerByte_variant x Hx) as (Hl1 & Hl2 & Hup).
    rewrite append_assoc.
    unfold caseVariants in Hv. apply in_app_or in Hv as [Hv|Hv].
    { destruct Hv as [<-|[<-|[]]]; cbn [String.append].
      - rewrite ToLower_ascii_byte by (apply isLower_isASCII, Hx).
        rewrite Hl1, HT. split; [reflexivity|]. intros _.
        unfold continuation. pose proof (isLower_isASCII x Hx) as Ha.
        unfold isASCII in Ha. apply N.ltb_lt in Ha.
        destruct (_ && _) eqn:E; [|reflexivity].
        apply andb_true_iff in E as [E _]. apply N.leb_le in E. lia.
      - rewrite ToLower_ascii_byte by exact Hup.
        rewrite Hl2, HT. split; [reflexivity|]. intros _.
        unfold continuation. unfold isASCII in Hup. apply N.ltb_lt in Hup.
        destruct (_ && _) eqn:E; [|reflexivity].
        apply andb_true_iff in E as [E _]. apply N.leb_le in E. lia. }
    apply in_app_or in Hv as [Hv|Hv].
    + destruct (Ascii.eqb_spec x "k") as [->|]; [|destruct Hv].
      destruct Hv as [<-|[]].
      split; [|reflexivity].
      change (kelvinSign ++ w' ++ b)
        with (String (chr 226) (String (chr 132) (String (chr 170) (w' ++ b)))).
      rewrite ToLower_step.
      change (DecodeRune (String (chr 226) (String (chr 132) (String (chr 170) (w' ++ b)))))
        with (8490%N, 3%nat).
      cbn [fst snd dropBytes]. rewrite HT. reflexivity.
    + destruct (Ascii.eqb_spec x "i") as [->|]; [|destruct Hv].
      destruct Hv as [<-|[]].
      split; [|reflexivity].
      change (dottedI ++ w' ++ b) with (String (chr 196) (String (chr 176) (w' ++ b))).
      rewrite ToLower_step.
      change (DecodeRune (String (chr 196) (String (chr 176) (w' ++ b))))
        with (304%N, 2%nat).
      cbn [fst snd dropBytes]. rewrite HT. reflexivity.
Qed.

(** [strings.Contains(strings.ToLower(s), word)] for a word of lower-case
    letters: [s] contains the word written in some case. *)
Lemma Contains_ToLower_iff (x : ascii) (word s : string) :
  allBytes isLower (String x word) = true ->
  Contains (ToLower s) (String x word) = true <->
  exists a w b, s = a ++ w ++ b /\ AnyCase (String x word) w.
Proof.
  intros Hword. split; [apply AnyCase_contained, Hword|].
  intros (a & w & b & -> & Hw).
  destruct (AnyCase_ToLower _ Hword w b Hw) as [HT Hstart].
  rewrite (ToLower_app (w ++ b) (Hstart ltac:(discriminate)) a), HT.
  apply Contains_spec. exists (ToLower a), (ToLower b). reflexivity.
Qed.

End CaseFacts.
(** ** The rate limit of a client *)

Section RateLimit.
Import GoStrings Rate Spec.

Lemma allBytes_app (p : ascii -> bool) (a b : string) :
  allBytes p (a ++ b) = allBytes p a && allBytes p b.
Proof.
  induction a as [|c a IH]; [reflexivity|].
  cbn [String.append allBytes]. rewrite IH, andb_assoc. reflexivity.
Qed.

Lemma allBytes_rev (p : ascii -> bool) (a : string) :
  allBytes p (String.rev a) = allBytes p a.
Proof.
  induction a as [|c a IH]; [reflexivity|].
  rewrite rev_cons, allBytes_app, IH. cbn [allBytes].
  rewrite andb_true_r. apply andb_comm.
Qed.

Lemma digit_isDigit (c : ascii) : isDigit c = true -> exists d, digit c = Some d.
Proof. unfold isDigit, digit. intros ->. eauto. Qed.

Lemma isDigit_isAlnum (c : ascii) : isDigit c = true -> isAlnum c = true.
Proof. unfold isDigit, isAlnum. intros ->. reflexivity. Qed.

Lemma digitChar_spec (d : Z) :
  0 <= d < 10 -> digit (digitChar d) = Some d /\ isDigit (digitChar d) = true.
Proof.
  intros Hd.
  assert (H : d = 0 \/ d = 1 \/ d = 2 \/ d = 3 \/ d = 4 \/ d = 5 \/ d = 6 \/ d = 7 \/
              d = 8 \/ d = 9) by lia.
  repeat (destruct H as [->|H]; [split; reflexivity|]). subst. split; reflexivity.
Qed.

(** The numeral of [n]: digits, at least one, that read as [n]. *)
Lemma decimalFrom_spec (fuel : nat) :
  forall n acc,
    0 <= n < 10 ^ Z.of_nat fuel -> (0 < fuel)%nat ->
    exists pre,
      decimalFrom fuel n acc = pre ++ acc /\ pre <> "" /\ allBytes isDigit pre = true /\
      forall a rest,
        digits a (pre ++ rest) = digits (a * 10 ^ Z.of_nat (String.length pre) + n) rest.
Proof.
  induction fuel as [|fuel IH]; intros n acc Hn Hfuel; [lia|].
  cbn [decimalFrom].
  assert (Hmod : 0 <= n mod 10 < 10) by (apply Z.mod_pos_bound; lia).
  destruct (digitChar_spec _ Hmod) as [Hdig Hisd].
  destruct (Z.ltb_spec n 10) as [Hsmall|Hbig].
  - exists (String (digitChar (n mod 10)) ""). split; [reflexivity|].
    split; [discriminate|]. split; [cbn [allBytes]; rewrite Hisd; reflexivity|].
    intros a rest. cbn [String.append digits String.length]. rewrite Hdig.
    rewrite Z.mod_small by lia. f_equal. change (Z.of_nat 1) with 1. lia.
  - assert (Hfuel' : (0 < fuel)%nat).
    { destruct fuel; [|lia]. change (10 ^ Z.of_nat 1) with 10 in Hn. lia. }
    assert (Hdiv : 0 <= n / 10 < 10 ^ Z.of_nat fuel).
    { split; [apply Z.div_pos; lia|].
      apply Z.div_lt_upper_bound; [lia|].
      rewrite Nat2Z.inj_succ, Z.pow_succ_r in Hn by lia. lia. }
    destruct (IH (n / 10) (String (digitChar (n mod 10)) acc) Hdiv Hfuel')
      as (pre & Heq & Hne & Hall & Hread).
    exists (pre ++ String (digitChar (n mod 10)) ""). split.
    { rewrite Heq, append_assoc. reflexivity. }
    split; [destruct pre; [congruence|discriminate]|].
    split; [rewrite allBytes_app, Hall; cbn [allBytes]; rewrite Hisd; reflexivity|].
    intros a rest. rewrite append_assoc. cbn [String.append].
    rewrite Hread. cbn [digits]. rewrite Hdig. f_equal.
    rewrite length_append. cbn [String.length].
    rewrite Nat2Z.inj_add. change (Z.of_nat 1) with 1.
    rewrite Z.pow_add_r by lia. change (10 ^ 1) with 10.
    pose proof (Z.div_mod n 10 ltac:(lia)) as Hdm. lia.
Qed.

Lemma decimal_spec (n : Z) :
  0 <= n < 2 ^ 63 ->
  decimal n <> "" /\ allBytes isDigit (decimal n) = true /\
  digits 0 (decimal n) = Some n.
Proof.
  intros Hn. unfold decimal.
  assert (Hbound : 0 <= n < 10 ^ Z.of_nat 19).
  { change (10 ^ Z.of_nat 19) with 10000000000000000000.
    change (2 ^ 63) with 9223372036854775808 in Hn. lia. }
  assert (Hfuel : (0 < 19)%nat) by lia.
  destruct (decimalFrom_spec 19 n "" Hbound Hfuel) as (pre & -> & Hne & Hall & Hread).
  rewrite append_nil_r. split; [exact Hne|]. split; [exact Hall|].
  rewrite <- (append_nil_r pre) at 1. rewrite Hread. cbn [digits]. f_equal; lia.
Qed.

(** *** Strings that begin and end with a letter or a digit *)

Lemma isAlnum_not_space (c : ascii) (s : string) :
  isAlnum c = true ->
  List.find (HasPrefix (String c s)) spaceRunes = None /\
  List.find (HasPrefix (String c s)) (map String.rev spaceRunes) = None.
Proof.
  destruct c as [[] [] [] [] [] [] [] []]; intros H; try discriminate H;
    split; reflexivity.
Qed.

Lemma TrimSpace_alnum (s : string) (c1 c2 : ascii) (t1 t2 : string) :
  s = String c1 t1 -> String.rev s = String c2 t2 ->
  isAlnum c1 = true -> isAlnum c2 = true ->
  TrimSpace s = s.
Proof.
  intros H1 H2 Hc1 Hc2. unfold TrimSpace.
  rewrite (trimLeftRunes_none spaceRunes s)
    by (rewrite H1; apply (isAlnum_not_space c1 t1 Hc1)).
  rewrite (trimLeftRunes_none _ (String.rev s))
    by (rewrite H2; apply (isAlnum_not_space c2 t2 Hc2)).
  apply rev_involutive.
Qed.

Lemma lowerByte_digit (c : ascii) : isDigit c = true -> lowerByte c = c.
Proof.
  destruct c as [[] [] [] [] [] [] [] []]; intros H; try discriminate H; reflexivity.
Qed.

Lemma isAlnum_isASCII (c : ascii) : isAlnum c = true -> isASCII c = true.
Proof.
  destruct c as [[] [] [] [] [] [] [] []]; intros H; try discriminate H; reflexivity.
Qed.

Lemma ToLower_digits (s t : string) :
  allBytes isDigit s = true -> ToLower (s ++ t) = s ++ ToLower t.
Proof.
  induction s as [|c s IH]; [reflexivity|]. cbn [allBytes String.append].
  intros H. apply andb_true_iff in H as [Hc Hs].
  rewrite ToLower_ascii_byte by (apply isAlnum_isASCII, isDigit_isAlnum, Hc).
  rewrite (lowerByte_digit c Hc), (IH Hs). reflexivity.
Qed.

Lemma HasSuffix_last (a : string) (c c' : ascii) :
  HasSuffix (a ++ String c "") (String c' "") = Ascii.eqb c c'.
Proof.
  destruct (Ascii.eqb_spec c c') as [->|Hne].
  - apply HasSuffix_spec. exists a. reflexivity.
  - destruct (HasSuffix _ _) eqn:H; [|reflexivity].
    apply HasSuffix_spec in H as [b Hb].
    apply (f_equal String.rev) in Hb. rewrite !rev_append in Hb.
    cbn in Hb. congruence.
Qed.

Lemma substring_prefix (a b : string) : substring 0 (String.length a) (a ++ b) = a.
Proof.
  induction a as [|c a IH]; cbn [String.length String.append substring].
  - destruct b; reflexivity.
  - rewrite IH. reflexivity.
Qed.

Lemma TrimSuffix_last (a : string) (c : ascii) :
  TrimSuffix (a ++ String c "") (String c "") = a.
Proof.
  unfold TrimSuffix. rewrite HasSuffix_last, Ascii.eqb_refl.
  rewrite length_append. cbn [String.length].
  replace (String.length a + 1 - 1)%nat with (String.length a) by lia.
  apply substring_prefix.
Qed.

(** A numeral ends with a digit. *)
Lemma digits_last (s : string) :
  s <> "" -> allBytes isDigit s = true ->
  exists a d, s = a ++ String d "" /\ isDigit d = true.
Proof.
  intros Hne Hall. rewrite <- (allBytes_rev isDigit s) in Hall.
  destruct (String.rev s) as [|d r] eqn:Hr.
  - apply rev_empty in Hr. congruence.
  - cbn [allBytes] in Hall. apply andb_true_iff in Hall as [Hd _].
    exists (String.rev r), d. split; [|exact Hd].
    rewrite <- (rev_involutive s), Hr, rev_cons. reflexivity.
Qed.

Lemma ParseInt_numeral (n : Z) : 0 <= n < 2 ^ 63 -> ParseInt (decimal n) = Some n.
Proof.
  intros Hn. destruct (decimal_spec n Hn) as (Hne & Hall & Hread).
  unfold ParseInt. destruct (decimal n) as [|c s] eqn:Hd; [congruence|].
  cbn [allBytes] in Hall. apply andb_true_iff in Hall as [Hc _].
  assert (Hsign : Ascii.eqb c "+" || Ascii.eqb c "-" = false).
  { destruct c as [[] [] [] [] [] [] [] []]; try discriminate Hc; reflexivity. }
  apply orb_false_iff in Hsign as [-> ->]. cbn [orb].
  rewrite Hread. destruct (Z.ltb_spec n (2 ^ 63)); [reflexivity | lia].
Qed.

(** The rate of a numeral with a suffix byte. *)
Lemma parseRateLimit_suffix (n : Z) (c : ascii) :
  0 <= n < 2 ^ 63 -> isAlnum c = true -> isDigit c = false ->
  parseRateLimit (decimal n ++ String c "")
  = let l := lowerByte c in
    if Ascii.eqb l "k" then wrap64 (n * 1024)
    else if Ascii.eqb l "m" then wrap64 (n * (1024 * 1024))
    else if Ascii.eqb l "g" then wrap64 (n * (1024 * 1024 * 1024))
    else match ParseInt (decimal n ++ String l "") with
         | Some num => wrap64 (num * 1)
         | None => 0
         end.
Proof.
  intros Hn Hc Hnd. destruct (decimal_spec n Hn) as (Hne & Hall & _).
  unfold parseRateLimit.
  assert (Htrim : TrimSpace (decimal n ++ String c "") = decimal n ++ String c "").
  { destruct (decimal n) as [|c1 t1] eqn:Hd; [congruence|].
    cbn [allBytes] in Hall. apply andb_true_iff in Hall as [Hc1 _].
    eapply TrimSpace_alnum.
    - reflexivity.
    - rewrite rev_append. reflexivity.
    - apply isDigit_isAlnum, Hc1.
    - exact Hc. }
  rewrite Htrim, (ToLower_digits _ _ Hall).
  rewrite (ToLower_ascii_byte c "" (isAlnum_isASCII c Hc)).
  change (ToLower "") with "".
  rewrite !HasSuffix_last. cbn zeta.
  destruct (Ascii.eqb_spec (lowerByte c) "k") as [->|_].
  { rewrite TrimSuffix_last, (ParseInt_numeral n Hn). reflexivity. }
  destruct (Ascii.eqb_spec (lowerByte c) "m") as [->|_].
  { rewrite TrimSuffix_last, (ParseInt_numeral n Hn). reflexivity. }
  destruct (Ascii.eqb_spec (lowerByte c) "g") as [->|_].
  { rewrite TrimSuffix_last, (ParseInt_numeral n Hn). reflexivity. }
  reflexivity.
Qed.

(** X12.  [parseRateLimit] on the numeral of a number [n] below [2^63]:
    the numeral alone gives [n]; followed by [k], [m] or [g], in either
    case, it gives [n] times 1024, 1024^2 or 1024^3, reduced to 64 bits as
    the multiplication of the code is; followed by another letter it
    gives 0. *)
Theorem parseRateLimit_numeral (n : Z) :
  0 <= n < 2 ^ 63 ->
  parseRateLimit (decimal n) = n /\
  (forall c, c = "k"%char \/ c = "K"%char ->
             parseRateLimit (decimal n ++ String c "") = wrap64 (n * 1024)) /\
  (forall c, c = "m"%char \/ c = "M"%char ->
             parseRateLimit (decimal n ++ String c "") = wrap64 (n * 1048576)) /\
  (forall c, c = "g"%char \/ c = "G"%char ->
             parseRateLimit (decimal n ++ String c "") = wrap64 (n * 1073741824)) /\
  (forall c, isAlnum c = true -> isDigit c = false ->
             ~ In (lowerByte c) ["k"; "m"; "g"]%char ->
             parseRateLimit (decimal n ++ String c "") = 0).
Proof.
  intros Hn. destruct (decimal_spec n Hn) as (Hne & Hall & Hread).
  split; [|split; [|split; [|split]]].
  - unfold parseRateLimit.
    assert (Htrim : TrimSpace (decimal n) = decimal n).
    { destruct (digits_last _ Hne Hall) as (a & d & Hd & Hdig).
      destruct (decimal n) as [|c1 t1] eqn:Hdec; [congruence|].
      cbn [allBytes] in Hall. apply andb_true_iff in Hall as [Hc1 _].
      eapply TrimSpace_alnum.
      - reflexivity.
      - rewrite Hd, rev_append. reflexivity.
      - apply isDigit_isAlnum, Hc1.
      - apply isDigit_isAlnum, Hdig. }
    assert (Hlow : ToLower (decimal n) = decimal n).
    { rewrite <- (append_nil_r (decimal n)) at 1.
      rewrite (ToLower_digits _ "" Hall). apply append_nil_r. }
    rewrite Htrim, Hlow.
    destruct (digits_last _ Hne Hall) as (a & d & Hd & Hdig).
    assert (Hno : forall x, isDigit x = false -> HasSuffix (decimal n) (String x "") = false).
    { intros x Hx. rewrite Hd, HasSuffix_last.
      destruct (Ascii.eqb_spec d x) as [->|]; [congruence | reflexivity]. }
    rewrite !Hno by reflexivity. cbn zeta.
    rewrite (ParseInt_numeral n Hn). unfold wrap64.
    rewrite Z.mul_1_r, Z.mod_small by lia. lia.
  - intros c [->| ->]; rewrite parseRateLimit_suffix by (auto; reflexivity); reflexivity.
  - intros c [->| ->]; rewrite parseRateLimit_suffix by (auto; reflexivity); reflexivity.
  - intros c [->| ->]; rewrite parseRateLimit_suffix by (auto; reflexivity); reflexivity.
  - intros c Hc Hnd Hnot. rewrite parseRateLimit_suffix by assumption. cbn zeta.
    destruct (Ascii.eqb_spec (lowerByte c) "k") as [E|_]; [exfalso; apply Hnot; rewrite E; simpl; auto|].
    destruct (Ascii.eqb_spec (lowerByte c) "m") as [E|_]; [exfalso; apply Hnot; rewrite E; simpl; auto|].
    destruct (Ascii.eqb_spec (lowerByte c) "g") as [E|_]; [exfalso; apply Hnot; rewrite E; simpl; auto|].
    assert (Hbad : ParseInt (decimal n ++ String (lowerByte c) "") = None).
    { unfold ParseInt.
      destruct (decimal n) as [|c1 t1] eqn:Hdec; [congruence|].
      cbn [String.append].
      pose proof Hall as Hall'. cbn [allBytes] in Hall'.
      apply andb_true_iff in Hall' as [Hc1 Ht1].
      assert (Hsign : Ascii.eqb c1 "+" || Ascii.eqb c1 "-" = false).
      { destruct c1 as [[] [] [] [] [] [] [] []]; try discriminate Hc1; reflexivity. }
      apply orb_false_iff in Hsign as [-> ->]. cbn [orb].
      assert (Hd : forall s a, allBytes isDigit s = true ->
                               digits a (s ++ String (lowerByte c) "") = None).
      { induction s as [|x s IH]; intros a Hs; cbn [String.append digits].
        - assert (Hl : digit (lowerByte c) = None).
          { clear - Hc Hnd. destruct c as [[] [] [] [] [] [] [] []];
              try discriminate Hc; try discriminate Hnd; reflexivity. }
          rewrite Hl. reflexivity.
        - cbn [allBytes] in Hs. apply andb_true_iff in Hs as [Hx Hs].
          destruct (digit_isDigit x Hx) as [dx ->]. apply IH. exact Hs. }
      change (String c1 (t1 ++ String (lowerByte c) ""))
        with (String c1 t1 ++ String (lowerByte c) "").
      rewrite (Hd _ 0 Hall). reflexivity. }
    rewrite Hbad. reflexivity.
Qed.

Lemma parseRateLimit_numeral_witness :
  parseRateLimit (decimal 500 ++ "k") = 512000 /\ parseRateLimit (decimal 100 ++ "x") = 0.
Proof.
  destruct (parseRateLimit_numeral 500 ltac:(lia)) as (_ & Hk & _).
  destruct (parseRateLimit_numeral 100 ltac:(lia)) as (_ & _ & _ & _ & Hx).
  split.
  - rewrite (Hk "k"%char (or_introl eq_refl)). reflexivity.
  - apply (Hx "x"%char); [reflexivity | reflexivity |].
    vm_compute. intros [H|[H|[H|[]]]]; discriminate H.
Defined.

End RateLimit.

(** ** The updater program *)

Section UpdaterFacts.
Import GoStrings Filepath OS Config HTTP Mirror Updater Spec.

Lemma MirrorTarget_trace (fuel : nat) (w : World) (cfg : Config) (target : Target.t)
    (m : Machine) r st :
  MirrorTarget fuel w cfg target m = Some (r, st) ->
  exists new,
    trace (mach st)
    = (new ++ EvMkdirAll (Join [MirrorSection.DataPath (Mirror cfg); Target.Name target])
           :: trace m)%list.
Proof.
  unfold MirrorTarget. cbn [emit fs clock trace].
  destruct (MkdirAll _ _ _) as [fs'|].
  - destruct (mirrorURL _ _ _ _ _ _ _) as [[e st1]|] eqn:Hrun; [|discriminate].
    apply mirrorURL_grows in Hrun as (new & Htr & _).
    intros [= _ <-]. cbn [mach]. exists new. exact Htr.
  - intros [= _ <-]. exists nil. reflexivity.
Qed.

Lemma mirrorTargets_trace (fuel : nat) (w : World) (cfg : Config)
    (targets : list Target.t) :
  forall m errors errors' m',
    mirrorTargets fuel w cfg targets m errors = Some (errors', m') ->
    (exists new, trace m' = (new ++ trace m)%list) /\
    Forall (fun t => In (EvMkdirAll (Join [MirrorSection.DataPath (Mirror cfg);
                                           Target.Name t])) (trace m')) targets.
Proof.
  induction targets as [|t targets IH]; intros m errors errors' m'; cbn [mirrorTargets].
  - intros [= _ <-]. split; [exists nil; reflexivity | constructor].
  - destruct (MirrorTarget fuel w cfg t m) as [[err st]|] eqn:Hrun; [|discriminate].
    apply MirrorTarget_trace in Hrun as [new1 H1].
    intros Hrest. apply IH in Hrest as [[new2 H2] Hall].
    split.
    + exists (new2 ++ new1 ++ [EvMkdirAll (Join [MirrorSection.DataPath (Mirror cfg);
                                                 Target.Name t])])%list.
      rewrite H2, H1, <- !app_assoc. reflexivity.
    + constructor; [|exact Hall].
      rewrite H2, H1. apply in_or_app. right. apply in_or_app. right. left. reflexivity.
Qed.

End UpdaterFacts.

Section UpdaterTheorems.
Import GoStrings Filepath OS Config HTTP Mirror Updater Spec.

(** X13.  The updater attempts every target of the configuration: a
    target that fails does not stop the loop.  When [main] comes to its
    end, the creation of the target directory, the first step of
    [MirrorTarget], has been asked for each target, and the exit status is
    0 or 1. *)
Theorem updater_attempts_every_target (fuel : nat) (w : World) (env : string -> string)
    (readConfig : string -> option ConfigFile) (configFile : string) (m : Machine)
    (cfg : Config) (status : Z) (m' : Machine) :
  LoadConfig (withConfigFlag env configFile) readConfig = Some cfg ->
  main fuel w env readConfig configFile m = Some (status, m') ->
  Targets cfg <> nil ->
  Forall (fun t => In (EvMkdirAll (Join [MirrorSection.DataPath (Mirror cfg);
                                         Target.Name t])) (trace m'))
    (Targets cfg) /\
  (status = 0 \/ status = 1).
Proof.
  intros Hload. unfold main. rewrite Hload.
  destruct (Targets cfg) as [|t ts] eqn:Hts; [congruence|].
  destruct (mirrorTargets _ _ _ _ _ _) as [[errors m1]|] eqn:Hrun; [|discriminate].
  apply mirrorTargets_trace in Hrun as [_ Hall].
  destruct errors; intros [= <- <-] _; auto.
Qed.

Lemma updater_attempts_every_target_witness :
  let env := fun k : string => if String.eqb k "CONFIG_FILE" then "/etc/mirror.json" else "" in
  let file :=
    {| fileUserAgent := None; fileRateLimit := None; fileRetries := None;
       fileMaxDepth := None; fileTimeout := None; fileWaitBetweenRequests := None;
       fileTimestamping := None; fileNoClobber := None; fileContinueDownload := None;
       fileCheckChanges := None;
       fileTargets := Some [ {| Target.Name := "gone"; Target.URL := "";
                                Target.UserAgent := ""; Target.RateLimit := "";
                                Target.Retries := 0; Target.MaxDepth := 0;
                                Target.Timeout := 0; Target.WaitBetweenRequests := 0;
                                Target.Timestamping := false; Target.NoClobber := false;
                                Target.ContinueDownload := false;
                                Target.CheckChanges := false |};
                             Scenario.target "http://h/" 2 true ];
       fileDataPath := None; fileLogLevel := None |} in
  exists status m',
    main 10 (Scenario.world Scenario.twoSubdirs None) env (fun _ => Some file) ""
      (Scenario.boot 5000) = Some (status, m') /\
    In (EvMkdirAll "/data/gone") (trace m') /\ In (EvMkdirAll "/data/t") (trace m').
Proof.
  intros env file.
  destruct (LoadConfig (withConfigFlag env "") (fun _ => Some file)) as [cfg|] eqn:Hload;
    [|vm_compute in Hload; discriminate].
  destruct (main 10 (Scenario.world Scenario.twoSubdirs None) env (fun _ => Some file) ""
              (Scenario.boot 5000)) as [[status m']|] eqn:Hmain;
    [|vm_compute in Hmain; discriminate].
  exists status, m'. split; [reflexivity|].
  assert (Hts : map Target.Name (Targets cfg) = ["gone"; "t"])
    by (vm_compute in Hload; injection Hload as <-; reflexivity).
  assert (Hdp : MirrorSection.DataPath (Mirror cfg) = "/data")
    by (vm_compute in Hload; injection Hload as <-; reflexivity).
  assert (Hne : Targets cfg <> nil) by (intros E; rewrite E in Hts; discriminate).
  destruct (updater_attempts_every_target 10 _ env _ "" _ cfg status m' Hload Hmain Hne)
    as [Hall _].
  rewrite Hdp in Hall.
  destruct (Targets cfg) as [|t1 [|t2 [|]]]; try discriminate Hts.
  injection Hts as Hn1 Hn2.
  apply List.Forall_cons_iff in Hall as [H1 Hall].
  apply List.Forall_cons_iff in Hall as [H2 _].
  rewrite Hn1 in H1. rewrite Hn2 in H2. split; [exact H1 | exact H2].
Defined.

(** X14.  With neither a configuration file (the variable [CONFIG_FILE],
    the flag [-config]) nor [MIRROR_URL], the updater has no target: it
    exits with status 1, sends no request and leaves the disk as it
    is. *)
Theorem updater_without_targets (fuel : nat) (w : World) (env : string -> string)
    (readConfig : string -> option ConfigFile) (m : Machine) :
  env "CONFIG_FILE" = "" -> env "MIRROR_URL" = "" ->
  main fuel w env readConfig "" m = Some (1, m).
Proof.
  intros Hfile Hurl. unfold main, withConfigFlag, LoadConfig, loadFromEnv.
  cbn [String.eqb]. rewrite Hfile, Hurl. reflexivity.
Qed.

Lemma updater_without_targets_witness :
  main 10 (Scenario.world Scenario.twoSubdirs None) (fun _ => "") (fun _ => None) ""
    (Scenario.boot 5000) = Some (1, Scenario.boot 5000).
Proof.
  apply (updater_without_targets 10 (Scenario.world Scenario.twoSubdirs None)
           (fun _ => "") (fun _ => None) (Scenario.boot 5000) eq_refl eq_refl).
Defined.

End UpdaterTheorems.

(** ** The file name of a resource downloaded as a single file *)

Section BaseFacts.
Import GoStrings Filepath Spec.

Lemma dropWhile_all (f : ascii -> bool) (a b : string) :
  allBytes f a = true -> dropWhile f (a ++ b) = dropWhile f b.
Proof.
  induction a as [|c a IH]; [reflexivity|]. cbn [allBytes String.append dropWhile].
  intros H. apply andb_true_iff in H as [-> H]. apply IH, H.
Qed.

Lemma takeWhile_all (f : ascii -> bool) (a b : string) :
  allBytes f a = true -> takeWhile f (a ++ b) = a ++ takeWhile f b.
Proof.
  induction a as [|c a IH]; [reflexivity|]. cbn [allBytes String.append takeWhile].
  intros H. apply andb_true_iff in H as [-> H]. rewrite (IH H). reflexivity.
Qed.

Lemma no_sep_allBytes (s : string) :
  Contains s "/" = false -> allBytes (fun c => negb (IsPathSeparator c)) s = true.
Proof.
  induction s as [|c s IH]; [reflexivity|].
  rewrite Contains_sep_cons. intros H. apply orb_false_iff in H as [Hc Hs].
  cbn [allBytes]. rewrite Hc, (IH Hs). reflexivity.
Qed.

(** [filepath.Base] of a path of separators only. *)
Lemma Base_separators (path : string) :
  path <> "" -> allBytes IsPathSeparator path = true -> Base path = "/".
Proof.
  intros Hne Hall. unfold Base. destruct path as [|c p]; [congruence|].
  rewrite <- (append_nil_r (String.rev (String c p))).
  rewrite dropWhile_all by (rewrite allBytes_rev; exact Hall).
  reflexivity.
Qed.

(** [filepath.Base] of a path with a last element: the element [elem]
    comes after nothing or after a separator, and only separators follow
    it. *)
Lemma Base_last_element (pre elem slashes : string) :
  elem <> "" -> Contains elem "/" = false ->
  allBytes IsPathSeparator slashes = true ->
  (pre = "" \/ exists p, pre = p ++ "/") ->
  Base (pre ++ elem ++ slashes) = elem.
Proof.
  intros Hne Hno Hsl Hpre. unfold Base.
  destruct (pre ++ elem ++ slashes) as [|c0 p0] eqn:Hpath.
  { destruct pre; [destruct elem; [congruence|discriminate]|discriminate]. }
  rewrite <- Hpath. clear Hpath.
  rewrite !rev_append.
  rewrite append_assoc.
  rewrite dropWhile_all by (rewrite allBytes_rev; exact Hsl).
  assert (Hrev : allBytes (fun c => negb (IsPathSeparator c)) (String.rev elem) = true)
    by (rewrite allBytes_rev; apply no_sep_allBytes, Hno).
  assert (Hdrop : dropWhile IsPathSeparator (String.rev elem ++ String.rev pre)
                  = String.rev elem ++ String.rev pre).
  { destruct (String.rev elem) as [|c r] eqn:Hr.
    - apply rev_empty in Hr. congruence.
    - cbn [allBytes] in Hrev. apply andb_true_iff in Hrev as [Hc _].
      cbn [String.append dropWhile]. apply negb_true_iff in Hc. rewrite Hc. reflexivity. }
  rewrite Hdrop, (takeWhile_all _ _ _ Hrev).
  assert (Hstop : takeWhile (fun c => negb (IsPathSeparator c)) (String.rev pre) = "").
  { destruct Hpre as [->|[p ->]]; [reflexivity|].
    rewrite rev_append. reflexivity. }
  rewrite Hstop, append_nil_r, rev_involutive.
  destruct elem; [congruence | reflexivity].
Qed.

Lemma takeWhile_dropWhile (f : ascii -> bool) (s : string) :
  takeWhile f s ++ dropWhile f s = s.
Proof.
  induction s as [|c s IH]; [reflexivity|]. cbn [takeWhile dropWhile].
  destruct (f c); [|reflexivity]. cbn [String.append]. rewrite IH. reflexivity.
Qed.

Lemma takeWhile_allBytes (f : ascii -> bool) (s : string) :
  allBytes f (takeWhile f s) = true.
Proof.
  induction s as [|c s IH]; [reflexivity|]. cbn [takeWhile].
  destruct (f c) eqn:E; [|reflexivity]. cbn [allBytes]. rewrite E, IH. reflexivity.
Qed.

Lemma dropWhile_stops (f : ascii -> bool) (s : string) :
  dropWhile f s = "" \/ exists c t, dropWhile f s = String c t /\ f c = false.
Proof.
  induction s as [|c s IH]; [left; reflexivity|]. cbn [dropWhile].
  destruct (f c) eqn:E; [exact IH|]. right. eauto.
Qed.

Lemma allBytes_no_sep (s : string) :
  allBytes (fun c => negb (IsPathSeparator c)) s = true -> Contains s "/" = false.
Proof.
  induction s as [|c s IH]; [reflexivity|]. cbn [allBytes].
  intros H. apply andb_true_iff in H as [Hc Hs]. apply negb_true_iff in Hc.
  rewrite Contains_sep_cons, Hc, (IH Hs). reflexivity.
Qed.

(** Every path is empty, or made of separators only, or has a last
    element. *)
Lemma path_shape (path : string) :
  path = "" \/
  (path <> "" /\ allBytes IsPathSeparator path = true) \/
  exists pre elem slashes,
    path = pre ++ elem ++ slashes /\ elem <> "" /\ Contains elem "/" = false /\
    allBytes IsPathSeparator slashes = true /\ (pre = "" \/ exists p, pre = p ++ "/").
Proof.
  destruct path as [|c0 p0]; [left; reflexivity|]. right.
  set (path := String c0 p0).
  pose proof (takeWhile_dropWhile IsPathSeparator (String.rev path)) as Hsplit.
  pose proof (takeWhile_allBytes IsPathSeparator (String.rev path)) as Hsl.
  destruct (dropWhile_stops IsPathSeparator (String.rev path)) as [Hrest|(c & t & Hrest & Hc)].
  - left. split; [discriminate|].
    rewrite Hrest, append_nil_r in Hsplit. rewrite Hsplit in Hsl.
    rewrite allBytes_rev in Hsl. exact Hsl.
  - right. rewrite Hrest in Hsplit.
    pose proof (takeWhile_dropWhile (fun c => negb (IsPathSeparator c)) (String c t)) as Hsplit2.
    pose proof (takeWhile_allBytes (fun c => negb (IsPathSeparator c)) (String c t)) as Hel.
    set (el := takeWhile (fun c => negb (IsPathSeparator c)) (String c t)) in *.
    set (pr := dropWhile (fun c => negb (IsPathSeparator c)) (String c t)) in *.
    set (sl := takeWhile IsPathSeparator (String.rev path)) in *.
    exists (String.rev pr), (String.rev el), (String.rev sl).
    split; [|split; [|split; [|split]]].
    + rewrite <- (rev_involutive path), <- Hsplit, <- Hsplit2, !rev_append.
      rewrite append_assoc. reflexivity.
    + intros E. apply rev_empty in E. subst el. cbn [takeWhile] in E.
      rewrite Hc in E. discriminate.
    + apply allBytes_no_sep. rewrite allBytes_rev. exact Hel.
    + rewrite allBytes_rev. exact Hsl.
    + subst pr.
      destruct (dropWhile_stops (fun c => negb (IsPathSeparator c)) (String c t))
        as [->|(c' & t' & -> & Hc')]; [left; reflexivity|].
      right. exists (String.rev t'). rewrite rev_cons.
      apply negb_false_iff in Hc'. unfold IsPathSeparator, Separator in Hc'.
      apply Ascii.eqb_eq in Hc'. subst c'. reflexivity.
Qed.

End BaseFacts.

Section DefaultFilename.
Import GoStrings Filepath OS Config HTTP Mirror Spec.

(** C8 (amended).  A resource that is not HTML, and an HTML page whose
    link extraction yields no link, are downloaded as a single file into
    the local directory.  When the path of the fetched URL has a last
    element, the file name is that element, as [filepath.Base] gives it
    (the separators at the end of the path are dropped first), so that a
    directory path such as [/files/] is saved as [files]; when that
    element is [.] the name is [index.html].  The name is [index.html]
    also when the path is empty, in both cases, and when the path consists
    of separators only, as the bare root [/] does, for a resource that is
    not HTML.  Every path has one of these three shapes. *)
Theorem default_filename (w : World) (target : Target.t)
    (recurse : string -> string -> Z -> State -> Outcome)
    (currentURL localDir : string) (depth : Z) (path : string)
    (resp : Response.t) (st : State) :
  (Contains (Response.ContentType resp) "text/html" = false ->
   handleResponse w target recurse currentURL localDir depth path resp st =
   Some (None, downloadLogged w target ForDirectFile currentURL
                 (Join [localDir; directFilename path]) st)) /\
  (Contains (Response.ContentType resp) "text/html" = true ->
   parseDirectoryListing resp = Some nil ->
   handleResponse w target recurse currentURL localDir depth path resp st =
   Some (None, downloadLogged w target ForEmptyListing currentURL
                 (Join [localDir; emptyListingFilename path]) st)) /\
  (path = "" ->
   directFilename path = "index.html" /\ emptyListingFilename path = "index.html") /\
  (forall pre slashes,
      path = pre ++ "." ++ slashes ->
      allBytes IsPathSeparator slashes = true ->
      (pre = "" \/ exists p, pre = p ++ "/") ->
      directFilename path = "index.html" /\ emptyListingFilename path = "index.html") /\
  (path <> "" -> allBytes IsPathSeparator path = true ->
   directFilename path = "index.html") /\
  (forall pre elem slashes,
      path = pre ++ elem ++ slashes ->
      elem <> "" -> elem <> "." -> Contains elem "/" = false ->
      allBytes IsPathSeparator slashes = true ->
      (pre = "" \/ exists p, pre = p ++ "/") ->
      directFilename path = elem /\ emptyListingFilename path = elem) /\
  (path = "" \/
   (path <> "" /\ allBytes IsPathSeparator path = true) \/
   exists pre elem slashes,
     path = pre ++ elem ++ slashes /\ elem <> "" /\ Contains elem "/" = false /\
     allBytes IsPathSeparator slashes = true /\ (pre = "" \/ exists p, pre = p ++ "/")).
Proof.
  unfold handleResponse. split; [|split; [|split; [|split; [|split; [|split]]]]];
    [| | | | | | apply path_shape].
  - intros ->. reflexivity.
  - intros -> ->. reflexivity.
  - intros ->. split; reflexivity.
  - intros pre slashes -> Hsl Hpre.
    unfold directFilename, emptyListingFilename.
    rewrite (Base_last_element pre "." slashes) by (auto; discriminate).
    split; reflexivity.
  - intros Hne Hall. unfold directFilename.
    rewrite (Base_separators path Hne Hall). reflexivity.
  - intros pre elem slashes -> Hne Hdot Hno Hsl Hpre.
    unfold directFilename, emptyListingFilename.
    rewrite (Base_last_element pre elem slashes Hne Hno Hsl Hpre).
    destruct (String.eqb_spec elem ""); [congruence|].
    destruct (String.eqb_spec elem "."); [congruence|].
    destruct (String.eqb_spec elem "/") as [->|_]; [discriminate Hno|].
    split; reflexivity.
Qed.

Lemma default_filename_witness :
  let w := Scenario.world Scenario.emptyPageNoPath None in
  let t := Scenario.target "http://h" 5 false in
  let rec := fun (_ _ : string) (_ : Z) (_ : State) => @None (option Error * State) in
  let st := {| mach := Scenario.boot 0; stats := mkStats 0 0 0 "t" 0 0 0 0 |} in
  let empty := Scenario.page "<html><body>nothing here</body></html>" in
  handleResponse w t rec "http://h" "/data/t" 0 "" empty st
  = Some (None, downloadLogged w t ForEmptyListing "http://h" "/data/t/index.html" st) /\
  handleResponse w t rec "http://h/" "/data/t" 0 "/" (Scenario.file 1000 "data") st
  = Some (None, downloadLogged w t ForDirectFile "http://h/" "/data/t/index.html" st) /\
  directFilename "/a/./" = "index.html" /\ emptyListingFilename "/a/./" = "index.html" /\
  directFilename "//" = "index.html" /\
  directFilename "/files/" = "files" /\ emptyListingFilename "/files/" = "files".
Proof.
  intros w t rec st empty.
  destruct (default_filename w t rec "http://h" "/data/t" 0 "" empty st)
    as (_ & Hempty & _).
  destruct (default_filename w t rec "http://h/" "/data/t" 0 "/"
              (Scenario.file 1000 "data") st) as (Hdirect & _).
  destruct (default_filename w t rec "http://h/a/./" "/data/t" 0 "/a/./" empty st)
    as (_ & _ & _ & Hdot & _).
  destruct (default_filename w t rec "http://h//" "/data/t" 0 "//" empty st)
    as (_ & _ & _ & _ & Hroot & _).
  destruct (default_filename w t rec "http://h/files/" "/data/t" 0 "/files/" empty st)
    as (_ & _ & _ & _ & _ & Helem & _).
  destruct (Hdot "/a/" "/" eq_refl eq_refl (or_intror (ex_intro _ "/a" eq_refl)))
    as [Hd1 Hd2].
  destruct (Helem "/" "files" "/" eq_refl ltac:(discriminate) ltac:(discriminate)
              eq_refl eq_refl (or_intror (ex_intro _ "" eq_refl))) as [He1 He2].
  split; [exact (Hempty eq_refl eq_refl)|].
  split; [exact (Hdirect eq_refl)|].
  split; [exact Hd1|]. split; [exact Hd2|].
  split; [exact (Hroot ltac:(discriminate) eq_refl)|].
  split; [exact He1 | exact He2].
Defined.

(** C8 as stated fails: the resource at the directory path [/files/] is
    not HTML and is saved as [files]; no [index.html] is written. *)
Lemma directory_path_not_saved_as_index :
  Scenario.pathOf "http://h/files/" = Some "/files/" /\
  directFilename "/files/" = "files" /\
  Scenario.observe
    (MirrorTarget 3 (Scenario.world Scenario.plainAtDirectoryPath None) Scenario.config
       (Scenario.target "http://h/files/" 5 false) (Scenario.boot 5000))
  = Some (None, (1, 0, 4, 0),
          [EvMkdirAll "/data/t"; EvRequest "GET" "http://h/files/";
           EvDownload ForDirectFile "http://h/files/" "/data/t/files";
           EvRequest "GET" "http://h/files/"],
          [("/data/t/files", Regular "data" 1000);
           ("/data/t", Directory 5000); ("/data", Directory 5000)]).
Proof. vm_compute. repeat split. Qed.

(** The runs behind the default name: an HTML page without links at the
    URL without a path and a resource that is not HTML at the root are
    saved as [index.html].  An HTML page without links at the root is not:
    that branch lacks the test for [/] its sibling has, the local path is
    the directory itself, and the download fails. *)
Lemma default_filename_runs :
  Scenario.observe
    (MirrorTarget 3 (Scenario.world Scenario.emptyPageNoPath None) Scenario.config
       (Scenario.target "http://h" 5 false) (Scenario.boot 5000))
  = Some (None, (1, 0, 38, 0),
          [EvMkdirAll "/data/t"; EvRequest "GET" "http://h";
           EvDownload ForEmptyListing "http://h" "/data/t/index.html";
           EvRequest "GET" "http://h"],
          [("/data/t/index.html", Regular "<html><body>nothing here</body></html>" 5002);
           ("/data/t", Directory 5000); ("/data", Directory 5000)]) /\
  Scenario.observe
    (MirrorTarget 3 (Scenario.world Scenario.plainAtRoot None) Scenario.config
       (Scenario.target "http://h/" 5 false) (Scenario.boot 5000))
  = Some (None, (1, 0, 4, 0),
          [EvMkdirAll "/data/t"; EvRequest "GET" "http://h/";
           EvDownload ForDirectFile "http://h/" "/data/t/index.html";
           EvRequest "GET" "http://h/"],
          [("/data/t/index.html", Regular "data" 1000);
           ("/data/t", Directory 5000); ("/data", Directory 5000)]) /\
  Scenario.observe
    (MirrorTarget 3 (Scenario.world Scenario.emptyPageAtRoot None) Scenario.config
       (Scenario.target "http://h/" 5 false) (Scenario.boot 5000))
  = Some (None, (0, 0, 0, 1),
          [EvMkdirAll "/data/t"; EvRequest "GET" "http://h/";
           EvDownload ForEmptyListing "http://h/" "/data/t";
           EvWarn "Failed to download file"
             (Some (ErrWrap "failed to create local file" (ErrFS "open" "/data/t")))],
          [("/data/t", Directory 5000); ("/data", Directory 5000)]).
Proof. vm_compute. repeat split. Qed.

End DefaultFilename.

(** ** Link extraction *)

Section HrefFacts.
Import GoStrings Filepath HTTP Mirror Spec.

Lemma isQuote_quote (c : ascii) : isQuote c = true <-> quote c.
Proof.
  unfold isQuote, quote, dquote. rewrite orb_true_iff, !Ascii.eqb_eq. reflexivity.
Qed.

Lemma allBytes_quoteFree (s : string) :
  allBytes (fun c => negb (isQuote c)) s = true <-> quoteFree s.
Proof.
  unfold quoteFree. induction s as [|x s IH]; cbn [allBytes].
  - split; [|reflexivity]. intros _ a c b H. destruct a; discriminate H.
  - rewrite andb_true_iff, IH, negb_true_iff. split.
    + intros [Hx Hs] a c b H. destruct a as [|y a]; cbn [String.append] in H.
      * injection H as <- _. intros Hq. apply isQuote_quote in Hq. congruence.
      * injection H as _ H. exact (Hs a c b H).
    + intros H. split.
      * destruct (isQuote x) eqn:E; [|reflexivity].
        exfalso. apply (H "" x s eq_refl). apply isQuote_quote, E.
      * intros a c b Hs. apply (H (String x a) c b). cbn [String.append]. congruence.
Qed.

Lemma dropBytes_takeWhile (f : ascii -> bool) (s : string) :
  dropBytes (String.length (takeWhile f s)) s = dropWhile f s.
Proof.
  induction s as [|c s IH]; [reflexivity|]. cbn [takeWhile dropWhile].
  destruct (f c); [|reflexivity]. cbn [String.length dropBytes]. exact IH.
Qed.

Lemma dropBytes_exact (a b : string) : dropBytes (String.length a) (a ++ b) = b.
Proof.
  induction a as [|c a IH]; [destruct b; reflexivity|]. exact IH.
Qed.

(** A match of the pattern at the start of a text. *)
Lemma matchHref_spec (s link : string) :
  matchHref s = Some link <-> exists rest, MatchAt s link rest.
Proof.
  unfold matchHref, MatchAt. split.
  - destruct (HasPrefix s "href=") eqn:Hp; [|discriminate].
    apply HasPrefix_spec in Hp as [r0 ->].
    change (dropBytes 5 ("href=" ++ r0)) with r0.
    destruct r0 as [|q r]; [discriminate|].
    destruct (isQuote q) eqn:Hq; [|discriminate].
    pose proof (takeWhile_dropWhile (fun c => negb (isQuote c)) r) as Hsplit.
    pose proof (takeWhile_allBytes (fun c => negb (isQuote c)) r) as Hfree.
    pose proof (dropBytes_takeWhile (fun c => negb (isQuote c)) r) as Hd.
    cbv zeta.
    destruct (takeWhile (fun c => negb (isQuote c)) r) as [|l0 l] eqn:Hl; [discriminate|].
    rewrite Hd.
    destruct (dropWhile_stops (fun c => negb (isQuote c)) r) as [Hs|(q' & rest & Hs & Hq')];
      rewrite Hs in *; [discriminate|].
    intros [= <-]. exists rest, q, q'.
    split; [apply isQuote_quote, Hq|].
    split; [apply isQuote_quote; apply negb_false_iff in Hq'; exact Hq'|].
    split; [discriminate|].
    split; [apply allBytes_quoteFree, Hfree|].
    rewrite Hsplit. reflexivity.
  - intros (rest & q & q' & Hq & Hq' & Hne & Hfree & ->).
    change (HasPrefix ("href=" ++ String q (link ++ String q' rest)) "href=") with true.
    change (dropBytes 5 ("href=" ++ String q (link ++ String q' rest)))
      with (String q (link ++ String q' rest)).
    cbv iota zeta. apply isQuote_quote in Hq. rewrite Hq.
    apply allBytes_quoteFree in Hfree.
    assert (Htake : takeWhile (fun c => negb (isQuote c)) (link ++ String q' rest) = link).
    { rewrite (takeWhile_all _ _ _ Hfree). cbn [takeWhile].
      apply isQuote_quote in Hq'. rewrite Hq'. apply append_nil_r. }
    destruct link as [|l0 l]; [congruence|].
    rewrite Htake. cbv iota. rewrite (dropBytes_exact (String l0 l)). reflexivity.
Qed.

Lemma findAllHrefs_skip (k : nat) :
  forall s, findAllHrefs k s = findAllHrefs 0 (dropBytes k s).
Proof.
  induction k as [|k IH]; intros s; [destruct s; reflexivity|].
  destruct s as [|c s]; [reflexivity|]. cbn [findAllHrefs dropBytes]. apply IH.
Qed.

(** The search goes on behind a match. *)
Lemma findAllHrefs_match (s link rest : string) :
  MatchAt s link rest -> findAllHrefs 0 s = link :: findAllHrefs 0 rest.
Proof.
  intros HM. assert (Hm : matchHref s = Some link) by (apply matchHref_spec; eauto).
  destruct HM as (q & q' & _ & _ & _ & _ & ->).
  change ("href=" ++ String q (link ++ String q' rest))
    with (String "h" ("ref=" ++ String q (link ++ String q' rest))) in *.
  cbn [findAllHrefs]. rewrite Hm, findAllHrefs_skip. do 2 f_equal.
  replace (String.length link + 6)%nat with (5 + (String.length link + 1))%nat by lia.
  change (dropBytes (5 + (String.length link + 1))
            ("ref=" ++ String q (link ++ String q' rest)))
    with (dropBytes (String.length link + 1) (link ++ String q' rest)).
  replace (String.length link + 1)%nat with (String.length (link ++ String q' ""))
    by (rewrite length_append; reflexivity).
  replace (link ++ String q' rest) with ((link ++ String q' "") ++ rest)
    by (rewrite append_assoc; reflexivity).
  apply dropBytes_exact.
Qed.

Lemma findAllHrefs_no_match (c : ascii) (s : string) :
  (forall link rest, ~ MatchAt (String c s) link rest) ->
  findAllHrefs 0 (String c s) = findAllHrefs 0 s.
Proof.
  intros Hno. cbn [findAllHrefs].
  destruct (matchHref (String c s)) as [link|] eqn:Hm; [|reflexivity].
  apply matchHref_spec in Hm as [rest Hm]. destruct (Hno _ _ Hm).
Qed.

Lemma MatchAt_shorter (s link rest : string) :
  MatchAt s link rest -> (String.length rest < String.length s)%nat.
Proof.
  intros (q & q' & _ & _ & _ & _ & ->).
  change ("href=" ++ String q (link ++ String q' rest))
    with (("href=" ++ String q "") ++ link ++ String q' rest).
  rewrite !length_append. cbn [String.length]. lia.
Qed.

(** [findAllHrefs] finds the hrefs of a text, and nothing else is the
    list of its hrefs. *)
Lemma findAllHrefs_Hrefs (body : string) (links : list string) :
  Hrefs body links <-> links = findAllHrefs 0 body.
Proof.
  split.
  - induction 1 as [|s link rest links HM _ IH|c s links Hno _ IH].
    + reflexivity.
    + rewrite (findAllHrefs_match _ _ _ HM), IH. reflexivity.
    + rewrite (findAllHrefs_no_match _ _ Hno). exact IH.
  - intros ->. remember (String.length body) as n eqn:Hn. revert body Hn.
    induction n as [n IH] using lt_wf_ind. intros body Hn.
    destruct body as [|c s]; [constructor|].
    destruct (matchHref (String c s)) as [link|] eqn:Hm.
    + apply matchHref_spec in Hm as [rest HM].
      rewrite (findAllHrefs_match _ _ _ HM).
      apply (hrefs_match _ _ _ _ HM).
      apply (IH (String.length rest)); [|reflexivity].
      subst n. apply (MatchAt_shorter _ _ _ HM).
    + assert (Hno : forall link rest, ~ MatchAt (String c s) link rest).
      { intros link rest HM.
        assert (matchHref (String c s) = Some link) by (apply matchHref_spec; eauto).
        congruence. }
      rewrite (findAllHrefs_no_match _ _ Hno).
      apply hrefs_skip; [exact Hno|].
      apply (IH (String.length s)); [subst n; cbn; lia | reflexivity].
Qed.

End HrefFacts.

Section RuleFacts.
Import GoStrings Filepath HTTP Mirror Spec.

Lemma absoluteOrSelf_iff (link : string) :
  absoluteOrSelf link = true <-> AbsoluteOrSelf link.
Proof.
  unfold absoluteOrSelf, AbsoluteOrSelf.
  rewrite !orb_true_iff, existsb_exists, !String.eqb_eq. split.
  - intros [[H|H]|H]; auto. left. destruct H as (scheme & Hin & Hp).
    apply HasPrefix_spec in Hp as [rest ->]. eauto.
  - intros [(scheme & rest & Hin & ->)|[H|H]]; auto. left. left.
    exists scheme. split; [exact Hin|]. apply HasPrefix_spec. eauto.
Qed.

Lemma parentTraversal_iff (link : string) :
  parentTraversal link = true <-> ParentTraversal link.
Proof. apply Contains_spec. Qed.

Lemma nonContent_iff (link : string) :
  nonContent link = true <-> NonContent link.
Proof.
  unfold nonContent, NonContent.
  rewrite !orb_true_iff.
  rewrite (Contains_ToLower_iff "p" "arent" link eq_refl).
  rewrite (Contains_ToLower_iff "b" "ack" link eq_refl).
  rewrite !Contains_spec.
  split.
  - intros [[[(a & w & b & H & Hw)|(a & w & b & H & Hw)]|H]|H]; auto.
    + left. exists a, w, b. auto.
    + left. exists a, w, b. auto.
  - intros [(a & w & b & H & [Hw|Hw])|[H|H]]; auto.
    + left. left. left. exists a, w, b. auto.
    + left. left. right. exists a, w, b. auto.
Qed.

Lemma blank_iff (link : string) : blank link = true <-> Blank link.
Proof.
  unfold blank, Blank. rewrite orb_true_iff, !String.eqb_eq, TrimSpace_empty_iff.
  split; [|auto]. intros [->|H]; [constructor | exact H].
Qed.

Lemma survives_iff (link : string) : survives link = true <-> Survives link.
Proof.
  unfold survives, Survives.
  rewrite negb_true_iff, <- absoluteOrSelf_iff, <- parentTraversal_iff,
    <- nonContent_iff, <- blank_iff.
  destruct (absoluteOrSelf link), (parentTraversal link), (nonContent link), (blank link);
    cbn; split; intros H; try congruence;
    try (intros [?|[?|[?|?]]]; congruence); exfalso; apply H; auto.
Qed.

End RuleFacts.

Section LinkExtractionTheorem.
Import GoStrings Filepath HTTP Mirror Spec.

(** C2.  Link extraction returns exactly the hrefs of the body that
    survive the four exclusion rules, in document order.  The hrefs are the
    groups of the successive matches of the link pattern, with quotes of
    either kind; a link survives when no rule excludes it: rule a, an
    absolute scheme, a fragment, [/] or [./]; rule b, a parent traversal,
    which always contains [..]; rule c, [parent] or [back] written in any
    case, or a query character; rule d, an empty link or one of whitespace
    only.  For the candidate links [file1.txt], [subdir/], [../],
    [?order=name], [mailto:a@b.com] and [javascript:void(0)] the result is
    [file1.txt] and [subdir/], in that order. *)
Theorem parseDirectoryListing_survivors :
  (forall resp : Response.t,
      parseDirectoryListing resp =
      if Response.BodyErr resp then None
      else Some (List.filter survives (findAllHrefs 0 (Response.Body resp)))) /\
  (forall body links, Hrefs body links <-> links = findAllHrefs 0 body) /\
  (forall link, survives link = true <-> Survives link) /\
  findAllHrefs 0 (Scenario.listing Scenario.candidates) = Scenario.candidates /\
  parseDirectoryListing (Scenario.page (Scenario.listing Scenario.candidates))
  = Some ["file1.txt"; "subdir/"] /\
  parseDirectoryListing (Scenario.page Scenario.mixedListing)
  = Some ["Docs/"; "a b.txt"; "Read Me.TXT"].
Proof.
  split; [|split; [|split; [|split; [|split]]]].
  - intros resp. unfold parseDirectoryListing.
    destruct (Response.BodyErr resp); [reflexivity|].
    rewrite fold_keepLink. reflexivity.
  - apply findAllHrefs_Hrefs.
  - apply survives_iff.
  - vm_compute. reflexivity.
  - vm_compute. reflexivity.
  - vm_compute. reflexivity.
Qed.

End LinkExtractionTheorem.

(** ** The limiter and the copy buffer *)

Section Throttle.
Import GoStrings Filepath OS Config HTTP Mirror Spec.

Lemma limiterAllows_iff (config : Target.t) :
  limiterAllows config = false <->
  exists burst, limiter config = Some burst /\ burst < 32768.
Proof.
  unfold limiterAllows, copyBuffer. destruct (limiter config) as [burst|].
  - rewrite Z.leb_gt. split.
    + intros H. exists burst. split; [reflexivity | lia].
    + intros (b & [= <-] & H). lia.
  - split; [discriminate|]. intros (b & H & _). discriminate.
Qed.

(** X15.  A client whose rate is below the 32768 bytes of the buffer of
    [io.Copy] copies nothing: the reader asks the limiter for a whole
    buffer of tokens before it reads, which is more than the burst, so
    every download of such a client returns an error, and the local file,
    when the download got as far as creating it, is left empty.  The rate
    limit [10k] is such a rate, [32k] is the least rate in kilobytes that is
    not. *)
Theorem low_rate_fails_every_copy :
  (forall (w : World) (config : Target.t) (url localPath : string) (m : Machine)
          (burst : Z),
      limiter config = Some burst -> burst < 32768 ->
      exists e m',
        transfer w config url localPath m = (Some e, m') /\
        match MkdirAll (clock m) (fs m) (Dir localPath) with
        | None => fs m' = fs m
        | Some made =>
            fs m' = made \/ fs m' = <[localPath := Regular "" (clock m)]> made
        end) /\
  (forall config, limiterAllows config = false <->
                  exists burst, limiter config = Some burst /\ burst < 32768) /\
  limiter (Scenario.throttled "10k") = Some 10240 /\
  limiter (Scenario.throttled "32k") = Some 32768 /\
  limiter (Scenario.throttled "") = None /\
  limiter (Scenario.throttled "0") = None /\
  (let w := Scenario.world Scenario.twoSubdirs None in
   let disk : FS := <["/data/t" := Directory 1]> (<["/data" := Directory 1]> ∅) in
   let m := setFS (Scenario.boot 5000) disk in
   fst (DownloadFile w (Scenario.throttled "10k") "http://h/a/x.txt" "/data/t/x.txt" m)
   = Some (ErrWrap "failed to copy file" ErrRate) /\
   fst (DownloadFile w (Scenario.throttled "32k") "http://h/a/x.txt" "/data/t/x.txt" m)
   = None).
Proof.
  split; [|split; [exact limiterAllows_iff|]].
  2:{ vm_compute. repeat split. }
  intros w config url localPath m burst Hlim Hlow.
  assert (Hno : limiterAllows config = false)
    by (apply limiterAllows_iff; eauto).
  unfold transfer.
  destruct (MkdirAll (clock m) (fs m) (Dir localPath)) as [made|];
    [|eexists _, _; split; reflexivity].
  cbn [setFS fs clock trace].
  destruct (Create (clock m) made localPath) as [created|] eqn:HC;
    [|eexists _, _; split; [reflexivity | left; reflexivity]].
  assert (Hcreated : created = <[localPath := Regular "" (clock m)]> made).
  { unfold Create in HC. destruct (Stat made localPath) as [fi| |].
    - destruct (IsDir fi); [discriminate|]. congruence.
    - destruct (_ && _); [congruence | discriminate].
    - discriminate. }
  subst created. cbn [setFS fs clock trace].
  destruct (urlPath w url);
    [|eexists _, _; split; [reflexivity | right; reflexivity]].
  destruct (Do w "GET" url _) as [[e|resp] m1] eqn:HDo; apply Do_keeps_fs in HDo.
  - eexists _, _. split; [reflexivity | right; exact HDo].
  - destruct (negb (Response.StatusCode resp =? 200)).
    + eexists _, _. split; [reflexivity | right; exact HDo].
    + rewrite Hno. cbn [negb]. eexists _, _. split; [reflexivity | right; exact HDo].
Qed.

Lemma low_rate_fails_every_copy_witness :
  let w := Scenario.world Scenario.twoSubdirs None in
  let disk : FS := <["/data/t" := Directory 1]> (<["/data" := Directory 1]> ∅) in
  let m := setFS (Scenario.boot 5000) disk in
  limiter (Scenario.throttled "10k") = Some 10240 /\ 10240 < 32768 /\
  exists e m',
    transfer w (Scenario.throttled "10k") "http://h/a/x.txt" "/data/t/x.txt" m
    = (Some e, m') /\
    fs m' !! "/data/t/x.txt" = Some (Regular "" 5000).
Proof.
  intros w disk m.
  assert (Hlim : limiter (Scenario.throttled "10k") = Some 10240)
    by (vm_compute; reflexivity).
  assert (Hlow : 10240 < 32768) by lia.
  split; [exact Hlim|]. split; [exact Hlow|].
  destruct (proj1 low_rate_fails_every_copy w (Scenario.throttled "10k")
              "http://h/a/x.txt" "/data/t/x.txt" m 10240 Hlim Hlow)
    as (e & m' & H & Hfs).
  exists e, m'. split; [exact H|].
  assert (Hmk : MkdirAll (clock m) (fs m) (Dir "/data/t/x.txt") = Some disk)
    by (vm_compute; reflexivity).
  rewrite Hmk in Hfs. destruct Hfs as [Hfs|Hfs].
  - exfalso. vm_compute in H. injection H as _ <-. vm_compute in Hfs. discriminate Hfs.
  - rewrite Hfs. apply lookup_insert_eq.
Defined.

End Throttle.
